(** * Font downloader and path validation of evergreen-press

    A shallow embedding of the font-downloader plugin (the Netlify build
    plugin with its cache state store, retrying fetcher and download loop,
    and the Astro integration that calls it) and of [sanitizePath] and
    [validateOptions] from the shared validation utilities, with the
    properties the specification states about them and further properties
    of the code: its edge cases, what it never does, and how its parts
    compose. *)

From Stdlib Require Import ZArith Lia Bool Ascii String DecimalString.
From Stdlib Require QArith.
From stdpp Require Import gmap strings list fin_maps.

Set Warnings "-register-all".
Local Open Scope Z_scope.

(** ** JavaScript values

    The values that flow through the plugin are JSON documents (the font
    configuration read from [global.json], the cache state file) and the
    objects the code builds from them.  Numbers are restricted to integers;
    the fields of an object are listed in enumeration order. *)

Inductive jsval : Type :=
| JUndef
| JNull
| JBool (b : bool)
| JNum (z : Z)
| JStr (s : string)
| JArr (l : list jsval)
| JObj (o : list (string * jsval)).

(** What JavaScript code can throw here. *)
Inductive JsError : Type :=
| EUndefined                          (* [throw undefined] *)
| EError (message : string)           (* [new Error(message)] *)
| ETypeError (message : string)
| ESyntaxError (message : string)     (* raised by [JSON.parse] *)
| EAbort                              (* the abort signal fired *)
| EFetch (message : string)           (* network failure reported by fetch *)
| EFs (code : string) (path : list string).

(** Result of evaluating a piece of code: a value or a thrown error. *)
Inductive Res (A : Type) : Type :=
| Ok (a : A)
| Throw (e : JsError).
Arguments Ok {A} a.
Arguments Throw {A} e.

Definition res_bind {A B} (r : Res A) (k : A -> Res B) : Res B :=
  match r with
  | Ok a => k a
  | Throw e => Throw e
  end.

Fixpoint res_mapM {A B} (f : A -> Res B) (l : list A) : Res (list B) :=
  match l with
  | [] => Ok []
  | x :: l' =>
      res_bind (f x) (fun y => res_bind (res_mapM f l') (fun ys => Ok (y :: ys)))
  end.

(** [!!v]: every value is truthy except undefined, null, false, 0 and the
    empty string. *)
Definition truthy (v : jsval) : bool :=
  match v with
  | JUndef | JNull => false
  | JBool b => b
  | JNum z => negb (z =? 0)
  | JStr s => negb (String.eqb s "")
  | JArr _ | JObj _ => true
  end.

Fixpoint assoc_get (o : list (string * jsval)) (k : string) : jsval :=
  match o with
  | [] => JUndef
  | (k', v) :: o' => if String.eqb k' k then v else assoc_get o' k
  end.

(** Property read [v.k] for the keys the plugin reads ("name", "url1",
    "url2", "woff", "woff2", "configHash", "fonts", "lastSync", "font",
    "length"): it throws on undefined and null, looks the key up in an
    object, knows [length] of arrays and strings, and is undefined on the
    other primitives. *)
Definition js_get (v : jsval) (k : string) : Res jsval :=
  match v with
  | JUndef | JNull =>
      Throw (ETypeError ("Cannot read properties of null or undefined (reading '" +:+ k +:+ "')"))
  | JObj o => Ok (assoc_get o k)
  | JArr l => Ok (if String.eqb k "length" then JNum (Z.of_nat (List.length l)) else JUndef)
  | JStr s => Ok (if String.eqb k "length" then JNum (Z.of_nat (String.length s)) else JUndef)
  | JBool _ | JNum _ => Ok JUndef
  end.

(** [v === 0]. *)
Definition js_is_zero (v : jsval) : bool :=
  match v with
  | JNum z => z =? 0
  | _ => false
  end.

(** An array receiver, as [fonts.map] and [fonts.every] need one. *)
Definition js_array (v : jsval) (method : string) : Res (list jsval) :=
  match v with
  | JArr l => Ok l
  | JUndef | JNull =>
      Throw (ETypeError ("Cannot read properties of null or undefined (reading '" +:+ method +:+ "')"))
  | _ => Throw (ETypeError (method +:+ " is not a function"))
  end.

(** Strict equality [===] on primitives. *)
Definition prim_eqb (a b : jsval) : bool :=
  match a, b with
  | JUndef, JUndef | JNull, JNull => true
  | JBool x, JBool y => Bool.eqb x y
  | JNum x, JNum y => x =? y
  | JStr x, JStr y => String.eqb x y
  | _, _ => false
  end.

(** ** JSON.stringify *)

Definition hex_digit (n : Z) : ascii :=
  ascii_of_nat (Z.to_nat (if n <? 10 then 48 + n else 87 + n)).

Definition str1 (c : ascii) : string := String c EmptyString.

(** One character of a quoted JSON string. *)
Definition json_escape_char (c : ascii) : string :=
  let n := Z.of_nat (nat_of_ascii c) in
  if n =? 34 then "\" +:+ str1 c
  else if n =? 92 then "\\"
  else if n =? 8 then "\b"
  else if n =? 12 then "\f"
  else if n =? 10 then "\n"
  else if n =? 13 then "\r"
  else if n =? 9 then "\t"
  else if n <? 32 then "\u00" +:+ str1 (hex_digit (n / 16)) +:+ str1 (hex_digit (n mod 16))
  else str1 c.

Fixpoint json_escape (s : string) : string :=
  match s with
  | EmptyString => EmptyString
  | String c s' => json_escape_char c +:+ json_escape s'
  end.

Definition json_quote (s : string) : string :=
  str1 (ascii_of_nat 34) +:+ json_escape s +:+ str1 (ascii_of_nat 34).

Fixpoint join_with (sep : string) (l : list string) : string :=
  match l with
  | [] => ""
  | [x] => x
  | x :: l' => x +:+ sep +:+ join_with sep l'
  end.

(** [JSON.stringify(v)] without indentation.  An undefined array element
    prints as null; an undefined property is left out. *)
Fixpoint stringify (v : jsval) : string :=
  match v with
  | JUndef | JNull => "null"
  | JBool true => "true"
  | JBool false => "false"
  | JNum z => NilZero.string_of_int (Z.to_int z)
  | JStr s => json_quote s
  | JArr l => "[" +:+ join_with "," (List.map stringify l) +:+ "]"
  | JObj o =>
      "{" +:+ join_with ","
               (List.flat_map
                  (fun kv =>
                     match kv with
                     | (_, JUndef) => []
                     | (k, x) => [json_quote k +:+ ":" +:+ stringify x]
                     end) o) +:+ "}"
  end.

(** The value read back by [JSON.parse] from what [JSON.stringify] wrote:
    undefined properties are gone and undefined array elements are null. *)
Fixpoint json_norm (v : jsval) : jsval :=
  match v with
  | JArr l => JArr (List.map (fun x => match x with JUndef => JNull | _ => json_norm x end) l)
  | JObj o =>
      JObj (List.flat_map
              (fun kv =>
                 match kv with
                 | (_, JUndef) => []
                 | (k, x) => [(k, json_norm x)]
                 end) o)
  | _ => v
  end.

(** ** SHA-256 ([createHash('sha256').update(s).digest('hex')])

    Words are 32-bit, held in [Z] and reduced modulo 2^32 after every
    addition.  A string is hashed as its sequence of bytes. *)

Definition w32 (x : Z) : Z := x mod 4294967296.

Definition rotr (n x : Z) : Z :=
  Z.lor (Z.shiftr x n) (w32 (Z.shiftl x (32 - n))).

Definition sha_ch (x y z : Z) : Z :=
  Z.lxor (Z.land x y) (Z.land (Z.lxor x 4294967295) z).

Definition sha_maj (x y z : Z) : Z :=
  Z.lxor (Z.lxor (Z.land x y) (Z.land x z)) (Z.land y z).

Definition big_sigma0 (x : Z) : Z := Z.lxor (Z.lxor (rotr 2 x) (rotr 13 x)) (rotr 22 x).
Definition big_sigma1 (x : Z) : Z := Z.lxor (Z.lxor (rotr 6 x) (rotr 11 x)) (rotr 25 x).
Definition small_sigma0 (x : Z) : Z := Z.lxor (Z.lxor (rotr 7 x) (rotr 18 x)) (Z.shiftr x 3).
Definition small_sigma1 (x : Z) : Z := Z.lxor (Z.lxor (rotr 17 x) (rotr 19 x)) (Z.shiftr x 10).

(** The constants of the standard are fractional parts of roots of the
    first primes: the first 32 bits of the cube roots of the first 64 primes
    for the rounds, of the square roots of the first 8 for the initial
    state. *)
Definition is_prime (n : Z) : bool :=
  (1 <? n)
  && forallb (fun d => negb (n mod Z.of_nat d =? 0)) (seq 2 (Z.to_nat n - 2)).

Definition first_primes (count : nat) : list Z :=
  firstn count (List.filter is_prime (List.map Z.of_nat (seq 2 310))).

(** The integer cube root of [n], one bit at a time from bit [bit] down. *)
Fixpoint cube_root (bit : nat) (n acc : Z) : Z :=
  let candidate := acc + 2 ^ Z.of_nat bit in
  let acc' := if candidate * candidate * candidate <=? n then candidate else acc in
  match bit with
  | O => acc'
  | S bit' => cube_root bit' n acc'
  end.

Definition sha_round_constants : list Z :=
  Eval vm_compute in
    List.map (fun p => w32 (cube_root 40 (p * 2 ^ 96) 0)) (first_primes 64).

Definition sha_initial_state : list Z :=
  Eval vm_compute in
    List.map (fun p => w32 (Z.sqrt (p * 2 ^ 64))) (first_primes 8).

Definition bytes_of_string (s : string) : list Z :=
  List.map (fun c => Z.of_nat (nat_of_ascii c)) (list_ascii_of_string s).

(** Big-endian bytes of [x], [n] of them. *)
Fixpoint be_bytes (n : nat) (x : Z) : list Z :=
  match n with
  | O => []
  | S n' => be_bytes n' (x / 256) ++ [x mod 256]
  end.

(** The message followed by the bit 1, zero bits up to 56 modulo 64 bytes,
    and the bit length on 8 bytes. *)
Definition sha_pad (msg : list Z) : list Z :=
  let len := Z.of_nat (length msg) in
  let zeros := Z.to_nat ((55 - len) mod 64) in
  msg ++ [128] ++ List.repeat 0 zeros ++ be_bytes 8 (8 * len).

Fixpoint be_words (fuel : nat) (bs : list Z) : list Z :=
  match fuel, bs with
  | S fuel', a :: b :: c :: d :: rest =>
      (((a * 256 + b) * 256 + c) * 256 + d) :: be_words fuel' rest
  | _, _ => []
  end.

(** Message schedule: [sched] holds the words computed so far, newest
    first; [n] more are appended. *)
Fixpoint sha_extend (n : nat) (sched : list Z) : list Z :=
  match n with
  | O => sched
  | S n' =>
      let at_back k := nth k sched 0 in
      let x := w32 (small_sigma1 (at_back 1%nat) + at_back 6%nat
                    + small_sigma0 (at_back 14%nat) + at_back 15%nat) in
      sha_extend n' (x :: sched)
  end.

Definition sha_schedule (block : list Z) : list Z :=
  rev (sha_extend 48 (rev block)).

Record sha_regs : Type := ShaRegs {
  ra : Z; rb : Z; rc : Z; rd : Z; re : Z; rf : Z; rg : Z; rh : Z
}.

Definition sha_step (r : sha_regs) (kw : Z * Z) : sha_regs :=
  let t1 := w32 (rh r + big_sigma1 (re r) + sha_ch (re r) (rf r) (rg r) + fst kw + snd kw) in
  let t2 := w32 (big_sigma0 (ra r) + sha_maj (ra r) (rb r) (rc r)) in
  ShaRegs (w32 (t1 + t2)) (ra r) (rb r) (rc r) (w32 (rd r + t1)) (re r) (rf r) (rg r).

Definition regs_of_list (l : list Z) : sha_regs :=
  let g k := nth k l 0 in
  ShaRegs (g 0%nat) (g 1%nat) (g 2%nat) (g 3%nat) (g 4%nat) (g 5%nat) (g 6%nat) (g 7%nat).

Definition list_of_regs (r : sha_regs) : list Z :=
  [ra r; rb r; rc r; rd r; re r; rf r; rg r; rh r].

Definition sha_compress (state : list Z) (block : list Z) : list Z :=
  let r := fold_left sha_step (combine sha_round_constants (sha_schedule block))
                     (regs_of_list state) in
  List.map (fun p => w32 (fst p + snd p)) (combine state (list_of_regs r)).

Fixpoint sha_blocks (fuel : nat) (state : list Z) (ws : list Z) : list Z :=
  match fuel with
  | O => state
  | S fuel' =>
      match ws with
      | [] => state
      | _ => sha_blocks fuel' (sha_compress state (firstn 16 ws)) (skipn 16 ws)
      end
  end.

Definition hex_word (x : Z) : string :=
  string_of_list_ascii
    (List.map (fun k => hex_digit ((x / 16 ^ k) mod 16)) [7; 6; 5; 4; 3; 2; 1; 0]).

Definition sha256_hex (s : string) : string :=
  let bs := sha_pad (bytes_of_string s) in
  let ws := be_words (length bs) bs in
  let st := sha_blocks (length ws) sha_initial_state ws in
  String.concat "" (List.map hex_word (list_of_regs (regs_of_list st))).

(** ** Node's [path] module, POSIX flavour *)

Definition slash : ascii := ascii_of_nat 47.

(** The segments between the slashes of a path; never empty. *)
Fixpoint split_slash (s : string) : list string :=
  match s with
  | EmptyString => [EmptyString]
  | String c s' =>
      if Ascii.eqb c slash then EmptyString :: split_slash s'
      else match split_slash s' with
           | seg :: rest => String c seg :: rest
           | [] => [str1 c]
           end
  end.

(** One segment against the stack of segments kept so far (top first):
    empty and "." segments vanish, ".." removes the segment before it, and
    is kept only where there is nothing to remove and the path may climb. *)
Definition norm_step (allowAboveRoot : bool) (stack : list string) (seg : string)
  : list string :=
  if String.eqb seg EmptyString || String.eqb seg "." then stack
  else if String.eqb seg ".." then
    match stack with
    | top :: rest =>
        if String.eqb top ".." then (if allowAboveRoot then seg :: stack else stack)
        else rest
    | [] => if allowAboveRoot then [seg] else []
    end
  else seg :: stack.

Definition norm_segs (allowAboveRoot : bool) (segs : list string) : list string :=
  rev (fold_left (norm_step allowAboveRoot) segs []).

Definition starts_with_slash (s : string) : bool :=
  match s with
  | String c _ => Ascii.eqb c slash
  | EmptyString => false
  end.

Fixpoint ends_with_slash (s : string) : bool :=
  match s with
  | EmptyString => false
  | String c EmptyString => Ascii.eqb c slash
  | String _ s' => ends_with_slash s'
  end.

(** [path.posix.normalize] *)
Definition normalize (path : string) : string :=
  if String.eqb path EmptyString then "."
  else
    let isAbsolute := starts_with_slash path in
    let trailingSeparator := ends_with_slash path in
    let p := join_with "/" (norm_segs (negb isAbsolute) (split_slash path)) in
    if String.eqb p EmptyString then
      (if isAbsolute then "/" else if trailingSeparator then "./" else ".")
    else
      (if isAbsolute then "/" else EmptyString) +:+ p
        +:+ (if trailingSeparator then "/" else EmptyString).

(** [path.isAbsolute] on a POSIX host. *)
Definition isAbsolute (path : string) : bool := starts_with_slash path.

(** [path.basename(p)]: the last non-empty segment, or the empty string. *)
Definition basename_str (p : string) : string :=
  List.last (List.filter (fun seg => negb (String.eqb seg EmptyString)) (split_slash p))
            EmptyString.

(** [path.basename] refuses anything but a string. *)
Definition basename (v : jsval) : Res string :=
  match v with
  | JStr s => Ok (basename_str s)
  | _ => Throw (ETypeError "The path argument must be of type string")
  end.

(** Locations in the file system are lists of segments below the working
    directory of the build.  [path_join dir name] is
    [path.join(dir, name)] for a resolved directory [dir]. *)
Abbreviation fpath := (list string).

Definition path_join (dir : fpath) (name : string) : fpath :=
  norm_segs false (dir ++ split_slash name).

(** [path.resolve(rel)] for a path relative to the working directory. *)
Definition path_resolve (rel : string) : fpath := path_join [] rel.

(** [s.includes(sub)] *)
Fixpoint includes (sub s : string) : bool :=
  String.prefix sub s
  || match s with
     | EmptyString => false
     | String _ s' => includes sub s'
     end.

(** ** Validation utilities: [sanitizePath] *)

Definition sanitizePath (inputPath : jsval) (fieldName : option string) : Res string :=
  let fieldName := default "Path" fieldName in
  match inputPath with
  | JStr s =>
      if negb (truthy inputPath) then
        Throw (EError (fieldName +:+ " is required and must be a string"))
      else
        let normalized := normalize s in
        if String.prefix "../" normalized
           || includes "/../" normalized
           || includes "..\" normalized
           || String.eqb normalized ".."
        then Throw (EError (fieldName +:+ " contains invalid directory traversal: " +:+ s))
        else if isAbsolute normalized
        then Throw (EError (fieldName +:+ " must be a relative path: " +:+ s))
        else Ok normalized
  | _ => Throw (EError (fieldName +:+ " is required and must be a string"))
  end.

(** ** The world around the plugin

    File contents are kept as what a reader makes of them: [CJson v] is
    text that [JSON.parse] reads as [v] (what [JSON.stringify] writes),
    [CRaw s] is any other data, which [JSON.parse] refuses. *)
Inductive content : Type :=
| CJson (v : jsval)
| CRaw (data : string).

Inductive FsOp : Type :=
| OpMkdir (p : fpath)
| OpRead (p : fpath)
| OpWrite (p : fpath)
| OpUnlink (p : fpath)
| OpReaddir (p : fpath).

(** What the origin does with one request. *)
Inductive Response : Type :=
| RespNetError (message : string)     (* connection refused, reset, hang up *)
| RespHang                            (* no answer before the timeout *)
| RespHttp (status : Z) (statusText : string) (body : option content).

(** One constructor per message the plugin prints. *)
Inductive LogEntry : Type :=
| LogInvalidState (message : string)
| LogSaveError (e : JsError)
| LogUnchanged (count : string)
| LogLastSync (lastSync : string)
| LogMissing
| LogDownloading (configChanged : bool)
| LogCleaned
| LogDownloadingWoff (name : string)
| LogDownloadedWoff (name : string)
| LogFailedWoff (name message : string)
| LogDownloadingWoff2 (name : string)
| LogDownloadedWoff2 (name : string)
| LogFailedWoff2 (name message : string)
| LogSkipping (name : string)
| LogSummary (successCount : Z)
| LogSkipped (skipCount : Z)
| LogRestoring
| LogRestored (fontCount : jsval)
| LogNoCachedFonts
| LogRestoreFailed (message : string)
| LogKirbyUrlNotSet
| LogNoFonts
| LogError (message : string)
| LogContinuing
| LogSavingCache
| LogCachedFiles (count : nat)
| LogCachedState
| LogSaveCacheFailed (message : string)
| LogDevelopmentSkip
| LogNetlifySkip
| LogLocalBuild
| LogDone.

(** The parts of the language this development leaves to the engine: the
    conversion of an array or an object to a string (in a template literal
    or in [new Date(v)]), and the comparison [v > 0] for a string, an array
    or an object.  [None] stands for the [TypeError] of a value that cannot
    be converted to a primitive. *)
Record Engine : Type := mkEngine {
  coerce_string : jsval -> option string;
  coerce_positive : jsval -> option bool
}.

(** The environment variables, the file system below the working
    directory (directories, files, and the operations the operating system
    refuses), the origin (its answer to the n-th request of the run, by
    URL), the engine, and what the run has done so far: the requests sent,
    the delays waited, the clock in milliseconds and the console. *)
Record World : Type := mkWorld {
  env : gmap string string;
  dirs : gset (list string);
  files : gmap (list string) content;
  io_fault : FsOp -> bool;
  remote : nat -> jsval -> Response;
  engine : Engine;
  net_log : list jsval;
  sleeps : list Z;
  clock : Z;
  console : list LogEntry
}.

Definition set_dirs (d : gset (list string)) (w : World) : World :=
  mkWorld (env w) d (files w) (io_fault w) (remote w) (engine w)
          (net_log w) (sleeps w) (clock w) (console w).
Definition set_files (f : gmap (list string) content) (w : World) : World :=
  mkWorld (env w) (dirs w) f (io_fault w) (remote w) (engine w)
          (net_log w) (sleeps w) (clock w) (console w).
Definition set_net_log (l : list jsval) (w : World) : World :=
  mkWorld (env w) (dirs w) (files w) (io_fault w) (remote w) (engine w)
          l (sleeps w) (clock w) (console w).
Definition set_sleeps (l : list Z) (w : World) : World :=
  mkWorld (env w) (dirs w) (files w) (io_fault w) (remote w) (engine w)
          (net_log w) l (clock w) (console w).
Definition set_clock (t : Z) (w : World) : World :=
  mkWorld (env w) (dirs w) (files w) (io_fault w) (remote w) (engine w)
          (net_log w) (sleeps w) t (console w).
Definition set_console (c : list LogEntry) (w : World) : World :=
  mkWorld (env w) (dirs w) (files w) (io_fault w) (remote w) (engine w)
          (net_log w) (sleeps w) (clock w) c.

(** ** Computations: state passing with exceptions *)

Definition M (A : Type) : Type := World -> Res A * World.

Definition ret {A} (a : A) : M A := fun w => (Ok a, w).

Definition bind {A B} (m : M A) (k : A -> M B) : M B :=
  fun w =>
    match m w with
    | (Ok a, w') => k a w'
    | (Throw e, w') => (Throw e, w')
    end.

Definition throw {A} (e : JsError) : M A := fun w => (Throw e, w).

Definition lift {A} (r : Res A) : M A := fun w => (r, w).

(** [try { m } catch (e) { h e }] *)
Definition try_catch {A} (m : M A) (h : JsError -> M A) : M A :=
  fun w =>
    match m w with
    | (Throw e, w') => h e w'
    | r => r
    end.

Notation "'let*' x ':=' m 'in' k" := (bind m (fun x => k))
  (at level 10, x name, m at level 100, k at level 200).

Definition when (b : bool) (m : M unit) : M unit := if b then m else ret tt.

(** [error.message] *)
Definition err_message (e : JsError) : Res string :=
  match e with
  | EUndefined => Throw (ETypeError "Cannot read properties of undefined (reading 'message')")
  | EError m | ETypeError m | ESyntaxError m | EFetch m => Ok m
  | EAbort => Ok "The operation was aborted."
  | EFs code _ => Ok code
  end.

Definition log (e : LogEntry) : M unit :=
  fun w => (Ok tt, set_console (console w ++ [e]) w).

(** The time after which a timer set by [setTimeout(f, delay)] fires: Node
    takes a delay below 1 or above 2147483647 (a signed 32-bit integer) to
    be 1. *)
Definition timer_delay (delay : Z) : Z :=
  if (1 <=? delay) && (delay <=? 2147483647) then delay else 1.

(** [await new Promise((resolve) => setTimeout(resolve, delay))] *)
Definition sleep (delay : Z) : M unit :=
  fun w => (Ok tt, set_clock (clock w + timer_delay delay) (set_sleeps (sleeps w ++ [delay]) w)).

Definition getenv (name : string) : M (option string) :=
  fun w => (Ok (env w !! name), w).

Definition not_primitive : JsError :=
  ETypeError "Cannot convert object to primitive value".

(** [v > 0] in a condition. *)
Definition js_gt_zero (v : jsval) : M bool :=
  fun w =>
    (match v with
     | JNum z => Ok (0 <? z)
     | JUndef | JNull => Ok false
     | JBool b => Ok b
     | JStr _ | JArr _ | JObj _ =>
         match coerce_positive (engine w) v with
         | Some b => Ok b
         | None => Throw not_primitive
         end
     end, w).

(** Conversion to a string inside a template literal or [new Date(v)]. *)
Definition js_to_string (v : jsval) : M string :=
  fun w =>
    (match v with
     | JUndef => Ok "undefined"
     | JNull => Ok "null"
     | JBool true => Ok "true"
     | JBool false => Ok "false"
     | JNum z => Ok (NilZero.string_of_int (Z.to_int z))
     | JStr s => Ok s
     | JArr _ | JObj _ =>
         match coerce_string (engine w) v with
         | Some s => Ok s
         | None => Throw not_primitive
         end
     end, w).

(** ** File system operations *)

Definition is_dir (w : World) (p : fpath) : bool :=
  bool_decide (p = []) || bool_decide (p ∈ dirs w).

Definition is_file (w : World) (p : fpath) : bool :=
  bool_decide (is_Some (files w !! p)).

Definition parent (p : fpath) : fpath := removelast p.

Definition existsSync (p : fpath) : M bool :=
  fun w => (Ok (is_dir w p || is_file w p), w).

(** [fs.mkdirSync(p, { recursive: true })]: every missing directory on the
    way down to [p] is created in turn. *)
Fixpoint mkdir_from (base : fpath) (rest : list string) : M unit :=
  match rest with
  | [] => ret tt
  | s :: rest' =>
      let p := base ++ [s] in
      fun w =>
        if is_dir w p then mkdir_from p rest' w
        else if is_file w p then (Throw (EFs "EEXIST" p), w)
        else if io_fault w (OpMkdir p) then (Throw (EFs "EACCES" p), w)
        else mkdir_from p rest' (set_dirs ({[p]} ∪ dirs w) w)
  end.

Definition mkdirSync_recursive (p : fpath) : M unit := mkdir_from [] p.

Definition readFileSync (p : fpath) : M content :=
  fun w =>
    if io_fault w (OpRead p) then (Throw (EFs "EACCES" p), w)
    else match files w !! p with
         | Some c => (Ok c, w)
         | None => (Throw (EFs (if is_dir w p then "EISDIR" else "ENOENT") p), w)
         end.

Definition writeFileSync (p : fpath) (c : content) : M unit :=
  fun w =>
    if io_fault w (OpWrite p) then (Throw (EFs "EACCES" p), w)
    else if is_dir w p then (Throw (EFs "EISDIR" p), w)
    else if negb (is_dir w (parent p)) then (Throw (EFs "ENOENT" p), w)
    else (Ok tt, set_files (<[p := c]> (files w)) w).

Definition unlinkSync (p : fpath) : M unit :=
  fun w =>
    if io_fault w (OpUnlink p) then (Throw (EFs "EACCES" p), w)
    else if is_file w p then (Ok tt, set_files (delete p (files w)) w)
    else (Throw (EFs (if is_dir w p then "EISDIR" else "ENOENT") p), w).

(** The name of [p] when it lies directly inside [dir]. *)
Definition child_name (dir p : fpath) : option string :=
  if bool_decide (take (length dir) p = dir) then
    match drop (length dir) p with
    | [n] => Some n
    | _ => None
    end
  else None.

Definition readdirSync (p : fpath) : M (list string) :=
  fun w =>
    if io_fault w (OpReaddir p) then (Throw (EFs "EACCES" p), w)
    else if negb (is_dir w p) then (Throw (EFs "ENOENT" p), w)
    else (Ok (omap (child_name p) (elements (dom (files w) ∪ dirs w))), w).

(** [JSON.parse(text)] *)
Definition JSON_parse (c : content) : Res jsval :=
  match c with
  | CJson v => Ok v
  | CRaw _ => Throw (ESyntaxError "Unexpected token in JSON")
  end.

(** The text [JSON.stringify(v, null, 2)] hands to [writeFileSync]; for
    undefined there is no text and the write is refused. *)
Definition JSON_document (v : jsval) : Res content :=
  match v with
  | JUndef => Throw (ETypeError "The data argument must be of type string")
  | _ => Ok (CJson (json_norm v))
  end.

(** ** The clock: [new Date().toISOString()] *)

Definition dec (z : Z) : string := NilZero.string_of_int (Z.to_int z).

Fixpoint zeros (n : nat) : string :=
  match n with
  | O => EmptyString
  | S n' => String (ascii_of_nat 48) (zeros n')
  end.

(** [z >= 0] printed on at least [width] digits. *)
Definition pad (width : nat) (z : Z) : string :=
  let s := dec z in
  zeros (width - String.length s) +:+ s.

(** Year, month and day of a day count from 1970-01-01. *)
Definition civil_from_days (days : Z) : Z * Z * Z :=
  let z := days + 719468 in
  let era := z / 146097 in
  let doe := z - era * 146097 in
  let yoe := (doe - doe / 1460 + doe / 36524 - doe / 146096) / 365 in
  let doy := doe - (365 * yoe + yoe / 4 - yoe / 100) in
  let mp := (5 * doy + 2) / 153 in
  let d := doy - (153 * mp + 2) / 5 + 1 in
  let m := if mp <? 10 then mp + 3 else mp - 9 in
  let y := yoe + era * 400 + (if m <=? 2 then 1 else 0) in
  (y, m, d).

Definition toISOString (ms : Z) : string :=
  let days := ms / 86400000 in
  let r := ms mod 86400000 in
  let '(y, m, d) := civil_from_days days in
  let year :=
    if (0 <=? y) && (y <=? 9999) then pad 4 y
    else (if y <? 0 then "-" else "+") +:+ pad 6 (Z.abs y) in
  year +:+ "-" +:+ pad 2 m +:+ "-" +:+ pad 2 d +:+ "T"
    +:+ pad 2 (r / 3600000) +:+ ":" +:+ pad 2 (r / 60000 mod 60) +:+ ":"
    +:+ pad 2 (r / 1000 mod 60) +:+ "." +:+ pad 3 (r mod 1000) +:+ "Z".

Definition now_iso : M string := fun w => (Ok (toISOString (clock w)), w).

(** ** font-downloader: fingerprint, retry, fetch *)

Definition project_font (f : jsval) : Res jsval :=
  res_bind (js_get f "name") (fun name =>
  res_bind (js_get f "url1") (fun url1 =>
  res_bind (js_get f "url2") (fun url2 =>
  Ok (JObj [("name", name); ("url1", url1); ("url2", url2)])))).

(** Generate SHA-256 hash of font configuration *)
Definition generateFontConfigHash (fonts : jsval) : Res string :=
  res_bind (js_array fonts "fonts.map") (fun l =>
  res_bind (res_mapM project_font l) (fun projected =>
  Ok (sha256_hex (stringify (JArr projected))))).

(** The loop of [retryWithBackoff]: [attempt] is the loop variable, [n]
    the number of iterations left, [lastError] the last error caught. *)
Fixpoint retry_loop {A} (fn : M A) (maxRetries baseDelay : Z)
    (attempt : Z) (n : nat) (lastError : JsError) : M A :=
  match n with
  | O => throw lastError
  | S n' =>
      try_catch fn (fun error =>
        let* _ := when (attempt <? maxRetries) (sleep (baseDelay * 2 ^ attempt)) in
        retry_loop fn maxRetries baseDelay (attempt + 1) n' error)
  end.

(** Retry a function with exponential backoff.  The loop runs for
    [attempt = 0 .. maxRetries]; [lastError] starts out undefined. *)
Definition retryWithBackoff {A} (fn : M A) (maxRetries baseDelay : Z) : M A :=
  retry_loop fn maxRetries baseDelay 0 (Z.to_nat (maxRetries + 1)) EUndefined.

Record Options : Type := mkOptions {
  timeout : option Z;
  maxRetries : option Z;
  retryDelay : option Z
}.

Definition noOptions : Options := mkOptions None None None.

Definition defaultOptions : Options :=
  mkOptions (Some 30000) (Some 3) (Some 1000).

(** [{ ...defaults, ...options }] *)
Definition merge_options (defaults options : Options) : Options :=
  mkOptions
    (match timeout options with Some x => Some x | None => timeout defaults end)
    (match maxRetries options with Some x => Some x | None => maxRetries defaults end)
    (match retryDelay options with Some x => Some x | None => retryDelay defaults end).

Definition response_ok (status : Z) : bool := (200 <=? status) && (status <=? 299).

(** [fetch(url, { signal })] under an abort timer of [timeout_ms]: the
    request is recorded, and the origin's answer decides what comes back. *)
Definition fetch (url : jsval) (timeout_ms : Z) : M (Z * string * option content) :=
  fun w =>
    let w1 := set_net_log (net_log w ++ [url]) w in
    match remote w (length (net_log w)) url with
    | RespNetError m => (Throw (EFetch m), w1)
    | RespHang => (Throw EAbort, set_clock (clock w1 + timer_delay timeout_ms) w1)
    | RespHttp status statusText body => (Ok (status, statusText, body), w1)
    end.

(** [response.arrayBuffer()] *)
Definition arrayBuffer (body : option content) : M content :=
  match body with
  | Some c => ret c
  | None => throw (EFetch "Premature close")
  end.

(** One attempt of [downloadFont]. *)
Definition download_attempt (url : jsval) (timeout_ms : Z) : M content :=
  try_catch
    (let* response := fetch url timeout_ms in
     let '(status, statusText, body) := response in
     if negb (response_ok status) then
       throw (EError ("HTTP " +:+ dec status +:+ ": " +:+ statusText))
     else arrayBuffer body)
    (fun error => throw error).

(** Download a font file with retries and timeout *)
Definition downloadFont (url : jsval) (options : Options) : M content :=
  let timeout_ms := default 30000 (timeout options) in
  let maxRetries := default 3 (maxRetries options) in
  let retryDelay := default 1000 (retryDelay options) in
  retryWithBackoff (download_attempt url timeout_ms) maxRetries retryDelay.

(** ** font-downloader: cache state store *)

Definition astroDir : fpath := path_resolve "./.astro".
Definition fontsDir : fpath := path_resolve "./public/fonts".
Definition fontsJson : fpath := path_join fontsDir "fonts.json".

(** Get font cache state file path *)
Definition getFontCacheStatePath : M fpath :=
  let* present := existsSync astroDir in
  let* _ := when (negb present) (mkdirSync_recursive astroDir) in
  ret (path_join astroDir "font-cache-state.json").

Definition freshState : jsval :=
  JObj [("lastSync", JNull); ("configHash", JNull); ("fonts", JArr []);
        ("version", JStr "1.0.0")].

(** Load font cache state *)
Definition loadFontCacheState : M jsval :=
  let* stateFile := getFontCacheStatePath in
  let* present := existsSync stateFile in
  if negb present then ret freshState
  else
    try_catch
      (let* text := readFileSync stateFile in
       lift (JSON_parse text))
      (fun error =>
         let* message := lift (err_message error) in
         let* _ := log (LogInvalidState message) in
         ret freshState).

(** Save font cache state *)
Definition saveFontCacheState (state : jsval) : M unit :=
  let* stateFile := getFontCacheStatePath in
  try_catch
    (let* text := lift (JSON_document state) in
     writeFileSync stateFile text)
    (fun error => log (LogSaveError error)).

(** Check if font configuration has changed *)
Definition hasFontConfigChanged (fonts cachedState : jsval) : Res bool :=
  res_bind (generateFontConfigHash fonts) (fun newHash =>
  res_bind (js_get cachedState "configHash") (fun configHash =>
  Ok (negb (truthy configHash) || negb (prim_eqb configHash (JStr newHash))))).

(** ** font-downloader: download with caching *)

(** [!font.woff || fs.existsSync(path.join(fontsDir, path.basename(font.woff)))] *)
Definition recorded_file_exists (recorded : jsval) : M bool :=
  if negb (truthy recorded) then ret true
  else
    let* fileName := lift (basename recorded) in
    existsSync (path_join fontsDir fileName).

(** The callback of [cacheState.fonts.every]. *)
Definition cached_font_exists (font : jsval) : M bool :=
  let* woff := lift (js_get font "woff") in
  let* woffExists := recorded_file_exists woff in
  let* woff2 := lift (js_get font "woff2") in
  let* woff2Exists := recorded_file_exists woff2 in
  ret (woffExists && woff2Exists).

(** [l.every(cb)] stops at the first element the callback rejects. *)
Fixpoint every (cb : jsval -> M bool) (l : list jsval) : M bool :=
  match l with
  | [] => ret true
  | x :: l' =>
      let* ok := cb x in
      if ok then every cb l' else ret false
  end.

(** The branch taken when the configuration is unchanged: [Some fonts]
    when the cached fonts are returned, [None] when the code goes on to
    download. *)
Definition use_cache (cacheState : jsval) : M (option jsval) :=
  let* cachedFonts := lift (js_get cacheState "fonts") in
  let* len := lift (js_get cachedFonts "length") in
  let* nonEmpty := js_gt_zero len in
  if negb nonEmpty then ret None
  else
    let* count := js_to_string len in
    let* _ := log (LogUnchanged count) in
    let* lastSync := lift (js_get cacheState "lastSync") in
    let* shown := js_to_string lastSync in
    let* _ := log (LogLastSync shown) in
    let* l := lift (js_array cachedFonts "cacheState.fonts.every") in
    let* allFilesExist := every cached_font_exists l in
    if allFilesExist then
      let* text := lift (JSON_document (JObj [("fonts", cachedFonts)])) in
      let* _ := writeFileSync fontsJson text in
      ret (Some cachedFonts)
    else
      let* _ := log LogMissing in
      ret None.

(** Clean old fonts (except fonts.json) *)
Fixpoint clean_fonts (names : list string) : M unit :=
  match names with
  | [] => ret tt
  | file :: rest =>
      let* _ := when (negb (String.eqb file "fonts.json"))
                     (unlinkSync (path_join fontsDir file)) in
      clean_fonts rest
  end.

Inductive Format : Type := Woff | Woff2.

Definition logDownloadingFmt (f : Format) : string -> LogEntry :=
  match f with Woff => LogDownloadingWoff | Woff2 => LogDownloadingWoff2 end.
Definition logDownloadedFmt (f : Format) : string -> LogEntry :=
  match f with Woff => LogDownloadedWoff | Woff2 => LogDownloadedWoff2 end.
Definition logFailedFmt (f : Format) : string -> string -> LogEntry :=
  match f with Woff => LogFailedWoff | Woff2 => LogFailedWoff2 end.

(** The download of one format of one font: the public path of the file
    written, or [None] when the URL is missing or the attempt failed. *)
Definition download_format (f : Format) (fontName url : jsval) (opts : Options)
  : M (option string) :=
  if negb (truthy url) then ret None
  else
    try_catch
      (let* name := js_to_string fontName in
       let* _ := log (logDownloadingFmt f name) in
       let* buffer := downloadFont url opts in
       let* fileName := lift (basename url) in
       let* _ := writeFileSync (path_join fontsDir fileName) buffer in
       let* _ := log (logDownloadedFmt f name) in
       ret (Some ("/fonts/" +:+ fileName)))
      (fun error =>
         let* name := js_to_string fontName in
         let* message := lift (err_message error) in
         let* _ := log (logFailedFmt f name message) in
         ret None).

Fixpoint find_index (p : jsval -> bool) (l : list jsval) (k : Z) : Z :=
  match l with
  | [] => -1
  | x :: l' => if p x then k else find_index p l' (k + 1)
  end.

(** [fonts.indexOf(font)] for the element at position [i]: an object or an
    array is found at its own position (the elements of a parsed document
    are distinct objects), a primitive at the first position holding it. *)
Definition js_indexOf (fonts : list jsval) (i : nat) (font : jsval) : Z :=
  match font with
  | JArr _ | JObj _ => Z.of_nat i
  | _ => find_index (prim_eqb font) fonts 0
  end.

Definition path_value (p : option string) : jsval :=
  match p with
  | Some s => JStr s
  | None => JNull
  end.

(** The body of the loop over the fonts: the entry pushed to [fontData],
    or [None] when the font is skipped. *)
Definition process_font (opts : Options) (fonts : list jsval) (i : nat) (font : jsval)
  : M (option jsval) :=
  let* fontName := lift (js_get font "name") in
  let* url1 := lift (js_get font "url1") in
  let* woffPath := download_format Woff fontName url1 opts in
  let* url2 := lift (js_get font "url2") in
  let* woff2Path := download_format Woff2 fontName url2 opts in
  let hasSuccessfulDownload := bool_decide (is_Some woffPath) || bool_decide (is_Some woff2Path) in
  let* entry :=
    if hasSuccessfulDownload then
      ret (Some (JObj [("name", fontName); ("woff", path_value woffPath);
                       ("woff2", path_value woff2Path)]))
    else
      let* name := js_to_string fontName in
      let* _ := log (LogSkipping name) in
      ret None in
  let* _ := when (js_indexOf fonts i font <? Z.of_nat (length fonts) - 1) (sleep 100) in
  ret entry.

Fixpoint download_loop (opts : Options) (fonts rest : list jsval) (i : nat)
    (fontData : list jsval) (successCount skipCount : Z)
  : M (list jsval * Z * Z) :=
  match rest with
  | [] => ret (fontData, successCount, skipCount)
  | font :: rest' =>
      let* entry := process_font opts fonts i font in
      match entry with
      | Some e =>
          download_loop opts fonts rest' (S i) (fontData ++ [e]) (successCount + 1) skipCount
      | None =>
          download_loop opts fonts rest' (S i) fontData successCount (skipCount + 1)
      end
  end.

(** Configuration changed or no cache - download fonts *)
Definition download_all (fonts : jsval) (opts : Options) (configChanged : bool) : M jsval :=
  let* _ := log (LogDownloading configChanged) in
  let* names := readdirSync fontsDir in
  let* _ := clean_fonts names in
  let* _ := log LogCleaned in
  let* l := lift (js_array fonts "fonts[Symbol.iterator]") in
  let* r := download_loop opts l l 0 [] 0 0 in
  let '(fontData, successCount, skipCount) := r in
  let* text := lift (JSON_document (JObj [("fonts", JArr fontData)])) in
  let* _ := writeFileSync fontsJson text in
  let* lastSync := now_iso in
  let* configHash := lift (generateFontConfigHash fonts) in
  let* _ := saveFontCacheState
              (JObj [("lastSync", JStr lastSync); ("configHash", JStr configHash);
                     ("fonts", JArr fontData); ("version", JStr "1.0.0")]) in
  let* _ := log (LogSummary successCount) in
  let* _ := when (0 <? skipCount) (log (LogSkipped skipCount)) in
  ret (JArr fontData).

(** Download fonts with caching support *)
Definition downloadFontsWithCache (fonts : jsval) (options : Options) : M jsval :=
  let opts := merge_options defaultOptions options in
  let* present := existsSync fontsDir in
  let* _ := when (negb present) (mkdirSync_recursive fontsDir) in
  let* cacheState := loadFontCacheState in
  let* configChanged := lift (hasFontConfigChanged fonts cacheState) in
  let* cached := (if negb configChanged then use_cache cacheState else ret None) in
  match cached with
  | Some cachedFonts => ret cachedFonts
  | None => download_all fonts opts configChanged
  end.

(** ** Entry points *)

(** Netlify's build cache, handed to the hooks as [utils.cache]. *)
Record Utils : Type := mkUtils {
  cache_restore : fpath -> M bool;
  cache_save : fpath -> M bool
}.

(** An environment variable used as a condition. *)
Definition env_set (v : option string) : bool :=
  match v with
  | Some s => negb (String.eqb s EmptyString)
  | None => false
  end.

(** [state.fonts?.length || 0] *)
Definition restored_font_count (state : jsval) : Res jsval :=
  res_bind (js_get state "fonts") (fun cachedFonts =>
  res_bind (match cachedFonts with
            | JUndef | JNull => Ok JUndef
            | _ => js_get cachedFonts "length"
            end) (fun len =>
  Ok (if truthy len then len else JNum 0))).

(** The part both entry points share once the origin is known: fetch the
    global data, then write an empty index (and return [false]: the hook
    returns there) or download the fonts (and return [true]). *)
Definition fetch_and_download (API_URL : string) (globalOptions fontOptions : Options)
  : M bool :=
  let* globalBuffer := downloadFont (JStr (API_URL +:+ "/global.json")) globalOptions in
  let* global := lift (JSON_parse globalBuffer) in
  let* fonts := lift (js_get global "font") in
  let* len := (if truthy fonts then lift (js_get fonts "length") else ret JUndef) in
  if negb (truthy fonts) || js_is_zero len then
    let* present := existsSync fontsDir in
    let* _ := when (negb present) (mkdirSync_recursive fontsDir) in
    let* text := lift (JSON_document (JObj [("fonts", JArr [])])) in
    let* _ := writeFileSync fontsJson text in
    let* _ := log LogNoFonts in
    ret false
  else
    let* _ := downloadFontsWithCache fonts fontOptions in
    ret true.

(** Before the build starts, restore font cache *)
Definition onPreBuild (utils : Utils) : M unit :=
  let* _ := log LogRestoring in
  let* cacheStatePath := getFontCacheStatePath in
  let* _ :=
    try_catch
      (let* _ := cache_restore utils fontsDir in
       let* _ := cache_restore utils cacheStatePath in
       let* present := existsSync cacheStatePath in
       if present then
         let* state := loadFontCacheState in
         let* fontCount := lift (restored_font_count state) in
         let* positive := js_gt_zero fontCount in
         when positive (log (LogRestored fontCount))
       else log LogNoCachedFonts)
      (fun error =>
         let* message := lift (err_message error) in
         log (LogRestoreFailed message)) in
  try_catch
    (let* API_URL := getenv "KIRBY_URL" in
     if negb (env_set API_URL) then log LogKirbyUrlNotSet
     else
       let* _ := fetch_and_download (default EmptyString API_URL)
                   (mkOptions (Some 30000) (Some 3) (Some 1000)) noOptions in
       ret tt)
    (fun error =>
       let* message := lift (err_message error) in
       let* _ := log (LogError message) in
       let* netlify := getenv "NETLIFY" in
       if env_set netlify then log LogContinuing
       else throw error).

(** After the build, cache the fonts *)
Definition onPostBuild (utils : Utils) : M unit :=
  let* _ := log LogSavingCache in
  let* cacheStatePath := getFontCacheStatePath in
  try_catch
    (let* present := existsSync fontsDir in
     let* _ :=
       (if present then
          let* _ := cache_save utils fontsDir in
          let* names := readdirSync fontsDir in
          let fontFiles := List.filter (fun f => negb (String.eqb f "fonts.json")) names in
          log (LogCachedFiles (length fontFiles))
        else ret tt) in
     let* statePresent := existsSync cacheStatePath in
     if statePresent then
       let* _ := cache_save utils cacheStatePath in
       log LogCachedState
     else ret tt)
    (fun error =>
       let* message := lift (err_message error) in
       log (LogSaveCacheFailed message)).

(** The ['astro:config:setup'] hook of the Astro integration
    [fontDownloader(userOptions)]. *)
Definition astro_config_setup (userOptions : Options) : M unit :=
  let options := merge_options defaultOptions userOptions in
  let* nodeEnv := getenv "NODE_ENV" in
  if bool_decide (nodeEnv = Some "development") then log LogDevelopmentSkip
  else
    let* netlify := getenv "NETLIFY" in
    if env_set netlify then log LogNetlifySkip
    else
      let* _ := log LogLocalBuild in
      try_catch
        (let* API_URL := getenv "KIRBY_URL" in
         if negb (env_set API_URL) then log LogKirbyUrlNotSet
         else
           let* downloaded := fetch_and_download (default EmptyString API_URL) options options in
           when downloaded (log LogDone))
        (fun error =>
           let* message := lift (err_message error) in
           let* _ := log (LogError message) in
           throw error).

(** ** Notions used to state the properties *)

(** Two font objects that agree on the logical fields. *)
Definition same_logical_fields (f g : jsval) : Prop :=
  js_get f "name" = js_get g "name"
  /\ js_get f "url1" = js_get g "url1"
  /\ js_get f "url2" = js_get g "url2".


(** The delays waited before the attempts [1 .. k], the first attempt
    being attempt 0: the delay before attempt [n] is
    [baseDelay * 2^(n-1)]. *)
Definition backoff_delays (baseDelay : Z) (k : nat) : list Z :=
  List.map (fun n => baseDelay * 2 ^ (Z.of_nat n - 1)) (seq 1 k).

(** What one attempt of [downloadFont] makes of the origin's answer. *)
Definition attempt_result (r : Response) : Res content :=
  match r with
  | RespNetError m => Throw (EFetch m)
  | RespHang => Throw EAbort
  | RespHttp status statusText body =>
      if response_ok status then
        match body with
        | Some c => Ok c
        | None => Throw (EFetch "Premature close")
        end
      else Throw (EError ("HTTP " +:+ dec status +:+ ": " +:+ statusText))
  end.

(** What up to [n] attempts at [url] come to when the first of them is
    request number [req] of the run: the content or the last error, and
    the number of requests sent. *)
Fixpoint attempts_outcome (rem : nat -> jsval -> Response) (url : jsval)
    (n : nat) (req : nat) (lastError : JsError) : Res content * nat :=
  match n with
  | O => (Throw lastError, O)
  | S n' =>
      match attempt_result (rem req url) with
      | Ok c => (Ok c, 1%nat)
      | Throw e =>
          let '(r, k) := attempts_outcome rem url n' (S req) e in
          (r, S k)
      end
  end.

(** The retry budget and base delay [downloadFont] works with. *)
Definition retries_of (opts : Options) : Z := default 3 (maxRetries opts).
Definition delay_of (opts : Options) : Z := default 1000 (retryDelay opts).

Definition fetch_outcome (rem : nat -> jsval -> Response) (opts : Options)
    (url : jsval) (req : nat) : Res content * nat :=
  attempts_outcome rem url (Z.to_nat (retries_of opts + 1)) req EUndefined.

(** Two worlds with the same surroundings: environment variables, refused
    operations, origin and engine. *)
Definition same_setting (w w' : World) : Prop :=
  env w' = env w /\ io_fault w' = io_fault w /\ remote w' = remote w
  /\ engine w' = engine w.

(** An origin that fails its first two requests and then serves the file. *)
Definition flaky_origin (n : nat) (url : jsval) : Response :=
  if (n <? 2)%nat then RespNetError "read ECONNRESET"
  else RespHttp 200 "OK" (Some (CRaw "wOFF")).

(** An origin that answers every request with "404 Not Found". *)
Definition origin_404 (n : nat) (url : jsval) : Response :=
  RespHttp 404 "Not Found" None.

Definition plain_engine : Engine := mkEngine (fun _ => None) (fun _ => None).

(** An empty working directory, no refused operation, nothing done yet. *)
Definition empty_world (rem : nat -> jsval -> Response) : World :=
  mkWorld ∅ ∅ ∅ (fun _ => false) rem plain_engine [] [] 1705314600000 [].

Definition stateFile : fpath := path_join astroDir "font-cache-state.json".

(** [getFontCacheStatePath] gets its directory: it exists, or the
    operating system lets it be created. *)
Definition state_dir_available (w : World) : bool :=
  is_dir w astroDir || is_file w astroDir || negb (io_fault w (OpMkdir astroDir)).

(** The world [getFontCacheStatePath] leaves behind. *)
Definition with_state_dir (w : World) : World :=
  if is_dir w astroDir || is_file w astroDir then w
  else set_dirs ({[astroDir]} ∪ dirs w) w.

(** A working directory in which nothing may be created. *)
Definition readonly_world : World :=
  mkWorld ∅ ∅ ∅ (fun op => match op with OpMkdir _ | OpWrite _ => true | _ => false end)
          origin_404 plain_engine [] [] 1705314600000 [].

(** A state file written by an older version of the plugin. *)
Definition old_state : jsval :=
  JObj [("lastSync", JStr "2023-05-01T08:00:00.000Z");
        ("configHash", JStr "0123abcd");
        ("fonts", JArr [JObj [("name", JStr "Regular"); ("woff", JStr "/fonts/r.woff");
                              ("woff2", JNull)]]);
        ("version", JStr "0.9.0")].

Definition old_state_world : World :=
  mkWorld ∅ {[astroDir]} {[stateFile := CJson old_state]} (fun _ => false)
          origin_404 plain_engine [] [] 1705314600000 [].

(** A segment that names an entry: not empty, not "." and not "..". *)
Definition plain_seg (seg : string) : bool :=
  negb (String.eqb seg EmptyString) && negb (String.eqb seg ".")
  && negb (String.eqb seg "..").

Fixpoint has_slash (s : string) : bool :=
  match s with
  | EmptyString => false
  | String c s' => Ascii.eqb c slash || has_slash s'
  end.

(** The directory [p] is there, or creating it succeeds. *)
Definition dir_ready (w : World) (p : fpath) : bool :=
  is_dir w p
  || (negb (is_file w p)
      && match fst (mkdirSync_recursive p w) with
         | Ok _ => true
         | Throw _ => false
         end).

(** Nothing but the file system differs between [w] and [w']. *)
Definition quiet (w w' : World) : Prop :=
  same_setting w w' /\ net_log w' = net_log w /\ sleeps w' = sleeps w
  /\ console w' = console w /\ clock w' = clock w.

(** [w'] is [w] with some directories created on the way to [p]. *)
Definition dirs_added (p : fpath) (w w' : World) : Prop :=
  files w' = files w /\ quiet w w'
  /\ (forall q, q ∈ dirs w -> q ∈ dirs w')
  /\ (forall q, q ∈ dirs w' -> q ∈ dirs w \/ (q <> [] /\ q `prefix_of` p)).

(** The value can be shown in a message without an error. *)
Definition displayable (w : World) (v : jsval) : bool :=
  match v with
  | JArr _ | JObj _ => bool_decide (is_Some (coerce_string (engine w) v))
  | _ => true
  end.

(** The file recorded under [woff] or [woff2] of a cached font is there. *)
Definition recorded_present (w : World) (recorded : jsval) : bool :=
  negb (truthy recorded)
  || match recorded with
     | JStr s =>
         is_dir w (path_join fontsDir (basename_str s))
         || is_file w (path_join fontsDir (basename_str s))
     | _ => false
     end.

Definition entry_present (w : World) (font : jsval) : bool :=
  match js_get font "woff", js_get font "woff2" with
  | Ok a, Ok b => recorded_present w a && recorded_present w b
  | _, _ => false
  end.

(** A cached state of two fonts saved on 2024-01-10, the files it records,
    and a configuration with the fingerprint it carries. *)
Definition cached_config : jsval :=
  JArr [JObj [("name", JStr "Regular"); ("url1", JStr "https://cms.example.com/r.woff");
              ("url2", JStr "https://cms.example.com/r.woff2")];
        JObj [("name", JStr "Black"); ("url1", JNull);
              ("url2", JStr "https://cms.example.com/b.woff2")]].

Definition cached_fonts : list jsval :=
  [JObj [("name", JStr "Regular"); ("woff", JStr "/fonts/r.woff");
         ("woff2", JStr "/fonts/r.woff2")];
   JObj [("name", JStr "Black"); ("woff", JNull); ("woff2", JStr "/fonts/b.woff2")]].

Definition cached_state : jsval :=
  JObj [("lastSync", JStr "2024-01-10T09:00:00.000Z");
        ("configHash",
         JStr (match generateFontConfigHash cached_config with
               | Ok h => h
               | Throw _ => EmptyString
               end));
        ("fonts", JArr cached_fonts);
        ("version", JStr "1.0.0")].

Definition cached_world : World :=
  mkWorld ∅ {[astroDir; ["public"]; fontsDir]}
          {[stateFile := CJson cached_state;
            path_join fontsDir "r.woff" := CRaw "wOFF";
            path_join fontsDir "r.woff2" := CRaw "wOF2";
            path_join fontsDir "b.woff2" := CRaw "wOF2"]}
          (fun _ => false) flaky_origin plain_engine [] [] 1705314600000 [].

(** A computation that leaves the environment variables alone, sends no
    request, and throws nothing but error objects (never [undefined]). *)
Definition calm {A} (m : M A) : Prop :=
  forall w,
    env (snd (m w)) = env w
    /\ net_log (snd (m w)) = net_log w
    /\ fst (m w) <> Throw EUndefined.

(** What the hooks need of Netlify's build cache. *)
Definition utils_calm (utils : Utils) : Prop :=
  (forall p, calm (cache_restore utils p)) /\ (forall p, calm (cache_save utils p)).

(** A build cache with nothing in it. *)
Definition empty_cache : Utils :=
  mkUtils (fun _ => ret false) (fun _ => ret true).

(** [writeFileSync] accepts the path: the operation is not refused, the
    path is no directory and its parent is one. *)
Definition write_ok (w : World) (p : fpath) : bool :=
  negb (io_fault w (OpWrite p)) && negb (is_dir w p) && is_dir w (parent p).

(** The font objects the loop can work on: the three fields can be read
    and the name can be shown in a message. *)
Definition font_ok (w : World) (font : jsval) : bool :=
  match js_get font "name", js_get font "url1", js_get font "url2" with
  | Ok name, Ok _, Ok _ => displayable w name
  | _, _, _ => false
  end.

(** *** What the download loop is expected to produce

    The following definitions say, from the answers of the origin [rem]
    and from which files can be written ([wok]), which fonts get an entry.
    [req] is the number of requests sent before. *)

(** One format: the public path of the file when the URL is given, the
    download succeeds within the retry budget and the file can be written;
    and the number of requests spent. *)
Definition expected_format (rem : nat -> jsval -> Response) (wok : fpath -> bool)
    (opts : Options) (url : jsval) (req : nat) : option string * nat :=
  if negb (truthy url) then (None, O)
  else
    (match fst (fetch_outcome rem opts url req), url with
     | Ok _, JStr s =>
         if wok (path_join fontsDir (basename_str s))
         then Some ("/fonts/" +:+ basename_str s)
         else None
     | _, _ => None
     end,
     snd (fetch_outcome rem opts url req)).

(** One font: an entry when at least one format was downloaded, no entry
    otherwise. *)
Definition expected_font (rem : nat -> jsval -> Response) (wok : fpath -> bool)
    (opts : Options) (font : jsval) (req : nat) : option jsval * nat :=
  match js_get font "name", js_get font "url1", js_get font "url2" with
  | Ok name, Ok url1, Ok url2 =>
      let woff := expected_format rem wok opts url1 req in
      let woff2 := expected_format rem wok opts url2 (req + snd woff) in
      (if bool_decide (is_Some (fst woff)) || bool_decide (is_Some (fst woff2))
       then Some (JObj [("name", name); ("woff", path_value (fst woff));
                        ("woff2", path_value (fst woff2))])
       else None,
       (snd woff + snd woff2)%nat)
  | _, _, _ => (None, O)
  end.

(** All fonts in turn: one outcome per font. *)
Fixpoint expected_outcomes (rem : nat -> jsval -> Response) (wok : fpath -> bool)
    (opts : Options) (fonts : list jsval) (req : nat) : list (option jsval) :=
  match fonts with
  | [] => []
  | font :: rest =>
      fst (expected_font rem wok opts font req)
      :: expected_outcomes rem wok opts rest (req + snd (expected_font rem wok opts font req))
  end.

(** The entries of the fonts that were not skipped. *)
Definition entries_of (outcomes : list (option jsval)) : list jsval :=
  omap id outcomes.

(** The world once [p] has been created where it was missing. *)
Definition with_dir (p : fpath) (w : World) : World :=
  if is_dir w p then w else snd (mkdirSync_recursive p w).

(** The world with the fonts directory and the state directory in place,
    as [downloadFontsWithCache] has it after its first steps. *)
Definition prepare (w : World) : World := with_state_dir (with_dir fontsDir w).

(** Listing the fonts directory and removing the old fonts goes through. *)
Definition cleaning_succeeds (w : World) : bool :=
  match fst ((let* names := readdirSync fontsDir in clean_fonts names) w) with
  | Ok _ => true
  | Throw _ => false
  end.

(** The state [loadFontCacheState] comes back with. *)
Definition cached_state_of (w : World) : jsval :=
  if io_fault w (OpRead stateFile) then freshState
  else match files w !! stateFile with
       | Some (CJson v) => v
       | _ => freshState
       end.

(** The run goes on to download: the configuration changed (or nothing is
    cached), or it did not and the cache-hit branch gives up. *)
Definition cache_miss (fonts : jsval) (w : World) : bool :=
  match hasFontConfigChanged fonts (cached_state_of w) with
  | Ok true => true
  | Ok false =>
      match fst (use_cache (cached_state_of w) (prepare w)) with
      | Ok None => true
      | _ => false
      end
  | Throw _ => false
  end.

(** Same file system, surroundings, requests and delays; the console and
    the clock may differ. *)
Definition fs_same (w w' : World) : Prop :=
  dirs w' = dirs w /\ files w' = files w /\ same_setting w w'
  /\ net_log w' = net_log w /\ sleeps w' = sleeps w.

(** A configuration of three fonts and an origin that serves the first, has
    lost the files of the second, and answers for the third only late. *)
Definition font_regular : jsval :=
  JObj [("name", JStr "Regular"); ("url1", JStr "https://cms.example.com/media/regular.woff");
        ("url2", JStr "https://cms.example.com/media/regular.woff2")].

Definition font_lost : jsval :=
  JObj [("name", JStr "Lost"); ("url1", JStr "https://cms.example.com/media/lost.woff");
        ("url2", JNull)].

Definition font_black : jsval :=
  JObj [("name", JStr "Black"); ("url2", JStr "https://cms.example.com/media/black.woff2")].

Definition demo_fonts : list jsval := [font_regular; font_lost; font_black].

Definition demo_origin (n : nat) (url : jsval) : Response :=
  match url with
  | JStr "https://cms.example.com/media/lost.woff" => RespHttp 404 "Not Found" None
  | JStr "https://cms.example.com/media/black.woff2" =>
      if (n <? 7)%nat then RespHang else RespHttp 200 "OK" (Some (CRaw "wOF2"))
  | _ => RespHttp 200 "OK" (Some (CRaw "wOFF"))
  end.

Definition demo_world : World := empty_world demo_origin.

Definition entry_regular : jsval :=
  JObj [("name", JStr "Regular"); ("woff", JStr "/fonts/regular.woff");
        ("woff2", JStr "/fonts/regular.woff2")].

Definition entry_black : jsval :=
  JObj [("name", JStr "Black"); ("woff", JNull); ("woff2", JStr "/fonts/black.woff2")].

(** The stack kept by [norm_step]: entry names on top of a run of "..". *)
Definition norm_stack (stack : list string) : Prop :=
  exists rest k,
    stack = rest ++ repeat ".." k
    /\ Forall (fun seg => plain_seg seg = true) rest.

(** What happens in the loop stays within these bounds: directories and
    surroundings are untouched, the log of requests and the console only
    grow. *)
Definition loop_step (w w' : World) : Prop :=
  dirs w' = dirs w /\ same_setting w w'
  /\ (exists sent, net_log w' = net_log w ++ sent)
  /\ (exists printed, console w' = console w ++ printed).

(** A font list as it reads once it has been through the state file. *)
Definition stored_list (l : list jsval) : list jsval :=
  match json_norm (JArr l) with
  | JArr l' => l'
  | _ => []
  end.

(** A configuration of one font, the one whose file the origin has lost. *)
Definition lost_fonts : jsval := JArr [font_lost].

(** ** Validation utilities: [validateOptions]

    The options are a plain object, given by its own properties in
    enumeration order; a schema lists its entries in the order of
    [Object.entries].  The keys of a schema are taken not to be among the
    names every object inherits ([toString] and the like), the bounds of a
    schema to be integers, and a custom validator to be a function without
    effects other than what it throws. *)

(** A number of JavaScript: not a number, an infinity, or a finite number
    (every finite double is a fraction). *)
Inductive jsnumber : Type :=
| NaN
| Infinity (negative : bool)
| Finite (q : QArith_base.Q).

Definition number_of_Z (z : Z) : jsnumber := Finite (QArith_base.inject_Z z).

(** [x < y] on numbers; false as soon as one side is [NaN]. *)
Definition number_lt (x y : jsnumber) : bool :=
  match x, y with
  | NaN, _ | _, NaN => false
  | Infinity nx, Infinity ny => nx && negb ny
  | Infinity nx, Finite _ => nx
  | Finite _, Infinity ny => negb ny
  | Finite p, Finite q => negb (QArith_base.Qle_bool q p)
  end.

(** The value of an option: any number, or a value of another type (a
    number under [OValue] is the integer it says). *)
Inductive optval : Type :=
| ONumber (x : jsnumber)
| OValue (v : jsval).

Definition number_of (value : optval) : option jsnumber :=
  match value with
  | ONumber x => Some x
  | OValue (JNum z) => Some (number_of_Z z)
  | OValue _ => None
  end.

(** [typeof v] *)
Definition js_typeof (v : jsval) : string :=
  match v with
  | JUndef => "undefined"
  | JNull | JArr _ | JObj _ => "object"
  | JBool _ => "boolean"
  | JNum _ => "number"
  | JStr _ => "string"
  end.

Definition opt_typeof (value : optval) : string :=
  match value with
  | ONumber _ => "number"
  | OValue v => js_typeof v
  end.

(** [value === undefined || value === null] *)
Definition nullish (value : optval) : bool :=
  match value with
  | OValue JUndef | OValue JNull => true
  | _ => false
  end.

(** [options[key]] *)
Fixpoint option_value (options : list (string * optval)) (key : string) : optval :=
  match options with
  | [] => OValue JUndef
  | (k, value) :: rest => if String.eqb k key then value else option_value rest key
  end.

(** One validator of a schema: whether [required] is truthy, [type] when
    it is a string, [min] and [max] when they are numbers ([None] for
    undefined), and [validate] when it is a function. *)
Record Validator : Type := mkValidator {
  v_required : bool;
  v_type : option string;
  v_min : option Z;
  v_max : option Z;
  v_validate : option (optval -> Res unit)
}.

Definition newline : string := String (ascii_of_nat 10) EmptyString.

(** The body of the loop for one entry of the schema: the errors it
    pushes. *)
Definition check_option (options : list (string * optval)) (key : string)
    (validator : Validator) : Res (list string) :=
  let value := option_value options key in
  (* Check required fields *)
  if v_required validator && nullish value then
    Ok ["Option '" +:+ key +:+ "' is required"]
  (* Skip validation if value is not provided and not required *)
  else if nullish value then Ok []
  else
    let type := match v_type validator with Some t => t | None => EmptyString end in
    (* Type validation *)
    if negb (String.eqb type EmptyString) && negb (String.eqb (opt_typeof value) type) then
      Ok ["Option '" +:+ key +:+ "' must be of type " +:+ type +:+ ", got "
          +:+ opt_typeof value]
    else
      (* Min/max for numbers *)
      let bounds :=
        match number_of value with
        | Some x =>
            if String.eqb type "number" then
              (match v_min validator with
               | Some m => if number_lt x (number_of_Z m)
                           then ["Option '" +:+ key +:+ "' must be >= " +:+ dec m]
                           else []
               | None => []
               end)
              ++ (match v_max validator with
                  | Some m => if number_lt (number_of_Z m) x
                              then ["Option '" +:+ key +:+ "' must be <= " +:+ dec m]
                              else []
                  | None => []
                  end)
            else []
        | None => []
        end in
      (* Custom validator function *)
      match v_validate validator with
      | Some validate =>
          match validate value with
          | Ok _ => Ok bounds
          | Throw error =>
              res_bind (err_message error) (fun message =>
              Ok (bounds ++ ["Option '" +:+ key +:+ "': " +:+ message]))
          end
      | None => Ok bounds
      end.

(** The loop over the entries of the schema. *)
Fixpoint collect_errors (options : list (string * optval))
    (schema : list (string * Validator)) (errors : list string) : Res (list string) :=
  match schema with
  | [] => Ok errors
  | (key, validator) :: rest =>
      res_bind (check_option options key validator) (fun pushed =>
      collect_errors options rest (errors ++ pushed))
  end.

(** Validate plugin options against expected types and constraints *)
Definition validateOptions (options : list (string * optval))
    (schema : list (string * Validator)) : Res (list (string * optval)) :=
  res_bind (collect_errors options schema []) (fun errors =>
  if (0 <? length errors)%nat then
    Throw (EError ("Plugin option validation failed:" +:+ newline +:+ "  - "
                   +:+ join_with (newline +:+ "  - ") errors))
  else Ok options).

(** *** What a schema asks of the options *)

(** The option named by one entry of a schema passes the entry: it is
    there unless it may be missing, and if there it has the given type, is
    as a number neither below [min] nor above [max] (which [NaN] never
    is), and is accepted by the custom validator. *)
Definition option_valid (options : list (string * optval))
    (entry : string * Validator) : bool :=
  let value := option_value options (fst entry) in
  let validator := snd entry in
  if nullish value then negb (v_required validator)
  else
    match v_type validator with
    | Some t => String.eqb t EmptyString || String.eqb (opt_typeof value) t
    | None => true
    end
    && match number_of value, v_type validator with
       | Some x, Some t =>
           negb (String.eqb t "number")
           || (match v_min validator with
               | Some m => negb (number_lt x (number_of_Z m))
               | None => true
               end
               && match v_max validator with
                  | Some m => negb (number_lt (number_of_Z m) x)
                  | None => true
                  end)
       | _, _ => true
       end
    && match v_validate validator with
       | Some validate =>
           match validate value with
           | Ok _ => true
           | Throw _ => false
           end
       | None => true
       end.

(** Two option objects that a schema cannot tell apart: under every key of
    the schema they hold the same value, or both nothing (undefined or
    null). *)
Definition same_known (schema : list (string * Validator))
    (o o' : list (string * optval)) : Prop :=
  forall key validator,
    (key, validator) ∈ schema ->
    option_value o key = option_value o' key
    \/ (nullish (option_value o key) = true /\ nullish (option_value o' key) = true).

(** The outcome of a validation without the object it returns. *)
Definition verdict {A} (r : Res A) : Res unit := res_bind r (fun _ => Ok tt).

(** What the error message holds for one entry of a schema: no line when
    the option passes the entry, and otherwise up to three lines that open
    with the name of the option. *)
Definition report_for (options : list (string * optval))
    (entry : string * Validator) (lines : list string) : Prop :=
  (lines = [] <-> option_valid options entry = true)
  /\ Forall (fun line => String.prefix ("Option '" +:+ fst entry +:+ "'") line = true) lines
  /\ (length lines <= 3)%nat.

(** A schema in the style of the plugins, and options for it. *)
Definition retry_schema : list (string * Validator) :=
  [("timeout", mkValidator false (Some "number") (Some 1000) (Some 120000) None);
   ("maxRetries", mkValidator true (Some "number") (Some 0) (Some 10) None);
   ("label", mkValidator false (Some "string") None None
               (Some (fun value => match value with
                                   | OValue (JStr EmptyString) =>
                                       Throw (EError "must not be empty")
                                   | _ => Ok tt
                                   end)))].

Definition good_options : list (string * optval) :=
  [("maxRetries", OValue (JNum 3)); ("timeout", OValue JNull);
   ("verbose", OValue (JBool true))].

(** Options whose numbers are no numbers. *)
Definition nan_options : list (string * optval) :=
  [("maxRetries", ONumber NaN); ("timeout", ONumber NaN)].

Definition bad_options : list (string * optval) :=
  [("timeout", OValue (JNum 5)); ("maxRetries", ONumber (Infinity false));
   ("label", OValue (JStr EmptyString))].

(** *** The state file as [loadFontCacheState] finds it *)

(** There is an entry at the place of the state file. *)
Definition state_file_there (w : World) : bool :=
  is_dir w stateFile || is_file w stateFile.

(** The state file can be read and holds a JSON document. *)
Definition state_file_usable (w : World) : bool :=
  negb (io_fault w (OpRead stateFile))
  && match files w !! stateFile with
     | Some (CJson _) => true
     | _ => false
     end.

(** A state file that is no JSON document. *)
Definition corrupt_state_world : World :=
  mkWorld ∅ {[astroDir]} {[stateFile := CRaw "{ lastSync: "]} (fun _ => false)
          origin_404 plain_engine [] [] 1705314600000 [].

(** A working directory in which the state file cannot be written. *)
Definition locked_state_world : World :=
  mkWorld ∅ {[astroDir]} {[stateFile := CJson old_state]}
          (fun op => match op with OpWrite _ => true | _ => false end)
          origin_404 plain_engine [] [] 1705314600000 [].

(** There is a text for the value: [JSON.stringify] gives a string for
    everything but undefined. *)
Definition has_document (v : jsval) : bool :=
  match v with
  | JUndef => false
  | _ => true
  end.

(** A state as the download branch saves it, with a font that has no name. *)
Definition saved_state : jsval :=
  JObj [("lastSync", JStr "2024-01-15T10:30:00.000Z");
        ("configHash", JStr "0123abcd");
        ("fonts", JArr [JObj [("name", JUndef); ("woff", JStr "/fonts/r.woff");
                              ("woff2", JNull)]]);
        ("version", JStr "1.0.0")].

(** *** The shape of a fingerprint *)

(** A digit of lower-case hexadecimal notation. *)
Definition is_lower_hex (c : ascii) : bool :=
  let n := Z.of_nat (nat_of_ascii c) in
  ((48 <=? n) && (n <=? 57)) || ((97 <=? n) && (n <=? 102)).

(** A font object, as opposed to null and undefined. *)
Definition has_fields (f : jsval) : bool :=
  match f with
  | JUndef | JNull => false
  | _ => true
  end.

(** *** Origins and options for the fetcher *)

(** An origin that never answers. *)
Definition silent_origin (n : nat) (url : jsval) : Response := RespHang.

(** Options with a negative retry budget. *)
Definition no_attempt_options : Options := mkOptions None (Some (-1)) None.

(** The time spent waiting for timers set one after the other with the
    given delays. *)
Definition waiting_time (delays : list Z) : Z :=
  fold_right (fun delay total => timer_delay delay + total) 0 delays.

(** Options that ask for one attempt under a timeout beyond what a timer
    can hold. *)
Definition long_timeout_options : Options := mkOptions (Some 3000000000) (Some 0) None.

(** *** Clean relative paths *)

(** The name of a directory entry: not empty, not "." or "..", no slash. *)
Definition entry_name (seg : string) : bool :=
  plain_seg seg && negb (has_slash seg).

(** *** What a run never undoes *)

(** [w'] comes after [w]: same surroundings, no directory removed, and the
    requests, the delays and the console of [w] are still there, with more
    at their end; the clock has not gone back. *)
Definition grows (w w' : World) : Prop :=
  same_setting w w'
  /\ dirs w ⊆ dirs w'
  /\ net_log w `prefix_of` net_log w'
  /\ sleeps w `prefix_of` sleeps w'
  /\ console w `prefix_of` console w'
  /\ clock w <= clock w'.

(** A computation that only moves forward and never throws [undefined]. *)
Definition steady {A} (m : M A) : Prop :=
  forall w, grows w (snd (m w)) /\ fst (m w) <> Throw EUndefined.

(** What the hooks need of Netlify's build cache to go on after it. *)
Definition utils_steady (utils : Utils) : Prop :=
  (forall p, steady (cache_restore utils p)) /\ (forall p, steady (cache_save utils p)).

(** *** Builds for the entry points *)

(** A build on Netlify with an origin that has lost everything. *)
Definition netlify_world : World :=
  mkWorld {["NETLIFY" := "true"; "KIRBY_URL" := "https://cms.example.com"]}
          ∅ ∅ (fun _ => false) origin_404 plain_engine [] [] 1705314600000 [].

(** The same build on a developer's machine. *)
Definition local_world : World :=
  mkWorld {["KIRBY_URL" := "https://cms.example.com"]}
          ∅ ∅ (fun _ => false) origin_404 plain_engine [] [] 1705314600000 [].

(** A development server. *)
Definition dev_world : World :=
  mkWorld {["NODE_ENV" := "development"; "KIRBY_URL" := "https://cms.example.com"]}
          ∅ ∅ (fun _ => false) origin_404 plain_engine [] [] 1705314600000 [].

(** An origin whose global data names no font. *)
Definition fontless_origin (n : nat) (url : jsval) : Response :=
  RespHttp 200 "OK" (Some (CJson (JObj [("title", JStr "Evergreen"); ("font", JArr [])]))).

Definition fontless_world : World :=
  mkWorld {["KIRBY_URL" := "https://cms.example.com"]}
          ∅ ∅ (fun _ => false) fontless_origin plain_engine [] [] 1705314600000 [].

(** *** Cached entries whose files can be looked for *)

(** A recorded path that the check of the cached fonts can handle: nothing
    recorded, or a string. *)
Definition recorded_checkable (recorded : jsval) : bool :=
  negb (truthy recorded)
  || match recorded with
     | JStr _ => true
     | _ => false
     end.

Definition entry_checkable (font : jsval) : bool :=
  match js_get font "woff", js_get font "woff2" with
  | Ok a, Ok b => recorded_checkable a && recorded_checkable b
  | _, _ => false
  end.

(** The cache of [cached_world] after the file of the second font has been
    removed. *)
Definition damaged_cache_world : World :=
  set_files (delete (path_join fontsDir "b.woff2") (files cached_world)) cached_world.

(** *** Old files in the fonts directory *)

(** A path directly inside the fonts directory, other than [fonts.json]. *)
Definition stale_font_file (p : fpath) : bool :=
  match child_name fontsDir p with
  | Some n => negb (String.eqb n "fonts.json")
  | None => false
  end.

(** A fonts directory with two fonts of an earlier configuration, the
    index, and a file elsewhere. *)
Definition littered_world : World :=
  mkWorld ∅ {[ ["public"]; fontsDir ]}
          {[path_join fontsDir "old.woff" := CRaw "wOFF";
            path_join fontsDir "older.woff2" := CRaw "wOF2";
            fontsJson := CJson (JObj [("fonts", JArr [])]);
            ["public"; "favicon.ico"] := CRaw "icon"]}
          (fun _ => false) origin_404 plain_engine [] [] 1705314600000 [].

(** *** The plugin's own part of the working directory *)

(** The fonts directory is in place below [public], and what lies directly
    inside it has a name the file system allows. *)
Definition rooted (w : World) : Prop :=
  is_dir w fontsDir = true
  /\ is_dir w ["public"] = true
  /\ forall n, fontsDir ++ [n] ∈ dom (files w) ∪ dirs w -> entry_name n = true.

(** From [w] to [w'] no file has changed but the state file and what lies
    in the fonts directory, and no directory has appeared but the state
    directory. *)
Definition confined (w w' : World) : Prop :=
  (forall p, p <> stateFile -> ~ fontsDir `prefix_of` p -> files w' !! p = files w !! p)
  /\ (forall d, d ∈ dirs w' -> d ∈ dirs w \/ d = astroDir).

(** A computation that stays within the plugin's own part. *)
Definition tidy {A} (m : M A) : Prop :=
  forall w, rooted w -> rooted (snd (m w)) /\ confined w (snd (m w)).

(** A project with a page and an icon next to the fonts. *)
Definition project_world : World :=
  mkWorld ∅ {[ ["public"]; fontsDir; ["src"] ]}
          {[path_join fontsDir "old.woff" := CRaw "wOFF";
            ["public"; "favicon.ico"] := CRaw "icon";
            ["src"; "index.astro"] := CRaw "<html>"]}
          (fun _ => false) demo_origin plain_engine [] [] 1705314600000 [].

(** *** Two URLs, one file name *)

(** An origin that serves a different file under each of two paths that
    end in the same name. *)
Definition twin_origin (n : nat) (url : jsval) : Response :=
  match url with
  | JStr "https://cms.example.com/media/a/font.woff" =>
      RespHttp 200 "OK" (Some (CRaw "first"))
  | _ => RespHttp 200 "OK" (Some (CRaw "second"))
  end.

Definition twin_world : World :=
  mkWorld ∅ {[ ["public"]; fontsDir ]} ∅ (fun _ => false) twin_origin plain_engine
          [] [] 1705314600000 [].

(** The cache of [cached_world] in a checkout where [fonts.json] cannot be
    written. *)
Definition readonly_index_world : World :=
  mkWorld ∅ (dirs cached_world) (files cached_world)
          (fun op => match op with
                     | OpWrite p => bool_decide (p = fontsJson)
                     | _ => false
                     end)
          flaky_origin plain_engine [] [] 1705314600000 [].

(** * Properties *)

(** ** SHA-256 on the test vectors of the standard *)

Example sha256_hex_abc :
  sha256_hex "abc" = "ba7816bf8f01cfea414140de5dae2223b00361a396177a9cb410ff61f20015ad".
Proof. vm_compute. reflexivity. Qed.

Example sha256_hex_two_blocks :
  sha256_hex "abcdbcdecdefdefgefghfghighijhijkijkljklmklmnlmnomnopnopq"
  = "248d6a61d20638b8e5c026930c3e6039a33ce45964ff2167f6ecedd419db06c1".
Proof. vm_compute. reflexivity. Qed.

(** ** The monad *)

Lemma bind_ok {A B} (m : M A) (k : A -> M B) w a w' :
  m w = (Ok a, w') -> bind m k w = k a w'.
Proof. intros H. unfold bind. now rewrite H. Qed.

Lemma bind_throw {A B} (m : M A) (k : A -> M B) w e w' :
  m w = (Throw e, w') -> bind m k w = (Throw e, w').
Proof. intros H. unfold bind. now rewrite H. Qed.

Lemma try_catch_ok {A} (m : M A) h w a w' :
  m w = (Ok a, w') -> try_catch m h w = (Ok a, w').
Proof. intros H. unfold try_catch. now rewrite H. Qed.

Lemma try_catch_throw {A} (m : M A) h w e w' :
  m w = (Throw e, w') -> try_catch m h w = h e w'.
Proof. intros H. unfold try_catch. now rewrite H. Qed.

(** One step of a computation whose first action evaluates on the spot. *)
Ltac mstep := erewrite bind_ok by reflexivity; cbv beta.

(** ** Fingerprint *)

Lemma project_font_same f g :
  same_logical_fields f g -> project_font f = project_font g.
Proof.
  intros (Hn & H1 & H2). unfold project_font. now rewrite Hn, H1, H2.
Qed.

Lemma res_mapM_project_same fonts1 fonts2 :
  Forall2 same_logical_fields fonts1 fonts2 ->
  res_mapM project_font fonts1 = res_mapM project_font fonts2.
Proof.
  induction 1 as [|f g l1 l2 Hfg _ IH]; simpl; [reflexivity|].
  now rewrite (project_font_same f g Hfg), IH.
Qed.

(** C4. The fingerprint is a function of the logical fields only: two font
    lists whose elements agree pairwise on [name], [url1] and [url2] have
    the same fingerprint, whatever the order of the fields in each object
    and whatever other fields the objects carry. *)
Theorem fingerprint_determinism (fonts1 fonts2 : list jsval) :
  Forall2 same_logical_fields fonts1 fonts2 ->
  generateFontConfigHash (JArr fonts1) = generateFontConfigHash (JArr fonts2).
Proof.
  intros H. unfold generateFontConfigHash. simpl.
  now rewrite (res_mapM_project_same _ _ H).
Qed.

Lemma fingerprint_determinism_witness :
  generateFontConfigHash
    (JArr [JObj [("name", JStr "Regular"); ("url1", JStr "https://cms.example.com/r.woff");
                 ("url2", JStr "https://cms.example.com/r.woff2")];
           JObj [("name", JStr "Black"); ("url1", JNull)]])
  = generateFontConfigHash
      (JArr [JObj [("url2", JStr "https://cms.example.com/r.woff2"); ("weight", JNum 400);
                   ("url1", JStr "https://cms.example.com/r.woff"); ("name", JStr "Regular")];
             JObj [("url1", JNull); ("id", JStr "f2"); ("name", JStr "Black")]]).
Proof.
  apply fingerprint_determinism.
  repeat constructor.
Defined.

(** ** Retry with exponential backoff *)

Lemma retry_loop_S {A} (fn : M A) maxR base a n e0 :
  retry_loop fn maxR base a (S n) e0
  = try_catch fn (fun error =>
      let* _ := when (a <? maxR) (sleep (base * 2 ^ a)) in
      retry_loop fn maxR base (a + 1) n error).
Proof. reflexivity. Qed.






(** ** The fetcher *)

Lemma download_attempt_spec url t w :
  exists w',
    download_attempt url t w = (attempt_result (remote w (length (net_log w)) url), w')
    /\ net_log w' = net_log w ++ [url]
    /\ same_setting w w'
    /\ dirs w' = dirs w /\ files w' = files w
    /\ console w' = console w /\ sleeps w' = sleeps w.
Proof.
  unfold download_attempt, try_catch, bind, fetch, same_setting.
  destruct (remote w (length (net_log w)) url) as [m| |st tx [c|]]; simpl;
    try (eexists; split; [reflexivity|]; simpl; tauto);
    destruct (response_ok st); simpl;
    eexists; (split; [reflexivity|]); simpl; tauto.
Qed.

Lemma attempts_outcome_pos rem url n req e0 :
  (0 < n)%nat -> (0 < snd (attempts_outcome rem url n req e0))%nat.
Proof.
  destruct n as [|n]; [lia|]. intros _. simpl.
  destruct (attempt_result (rem req url)); simpl; [lia|].
  destruct (attempts_outcome rem url n (S req) e). simpl. lia.
Qed.

(** The retry loop around [download_attempt], against the origin: result,
    requests sent and delays waited. *)
Lemma retry_download_spec url t maxR base n :
  forall a w e0,
    a + Z.of_nat n = maxR + 1 ->
    exists w',
      retry_loop (download_attempt url t) maxR base a n e0 w
      = (fst (attempts_outcome (remote w) url n (length (net_log w)) e0), w')
      /\ net_log w'
         = net_log w ++ repeat url (snd (attempts_outcome (remote w) url n (length (net_log w)) e0))
      /\ sleeps w'
         = sleeps w
           ++ List.map (fun j => base * 2 ^ (a + Z.of_nat j))
                (seq 0 (snd (attempts_outcome (remote w) url n (length (net_log w)) e0) - 1))
      /\ same_setting w w'
      /\ dirs w' = dirs w /\ files w' = files w /\ console w' = console w.
Proof.
  induction n as [|n IH]; intros a w e0 Ha.
  - exists w. simpl. rewrite !app_nil_r. unfold same_setting. tauto.
  - rewrite retry_loop_S.
    destruct (download_attempt_spec url t w)
      as (w1 & Hrun & Hlog & (He & Hf & Hr & Hg) & Hd & Hfi & Hc & Hs).
    cbn [attempts_outcome].
    destruct (attempt_result (remote w (length (net_log w)) url)) as [c|e] eqn:Hres.
    + exists w1. rewrite (try_catch_ok _ _ _ _ _ Hrun). simpl.
      rewrite app_nil_r. unfold same_setting. tauto.
    + rewrite (try_catch_throw _ _ _ _ _ Hrun).
      assert (Hlen : length (net_log w1) = S (length (net_log w)))
        by (rewrite Hlog, length_app; simpl; lia).
      destruct n as [|n].
      * assert (Hlt : (a <? maxR) = false) by (apply Z.ltb_ge; lia).
        rewrite Hlt. exists w1. simpl. rewrite app_nil_r.
        unfold same_setting. tauto.
      * assert (Hlt : (a <? maxR) = true) by (apply Z.ltb_lt; lia).
        rewrite Hlt. cbn [when].
        rewrite (bind_ok _ _ _ tt (snd (sleep (base * 2 ^ a) w1))) by reflexivity.
        set (w2 := snd (sleep (base * 2 ^ a) w1)).
        destruct (IH (a + 1) w2 e ltac:(lia))
          as (w' & Hrun' & Hlog' & Hs' & (He' & Hf' & Hr' & Hg') & Hd' & Hfi' & Hc').
        assert (Hrem : remote w2 = remote w) by (subst w2; simpl; congruence).
        assert (Hlen2 : length (net_log w2) = S (length (net_log w)))
          by (subst w2; simpl; exact Hlen).
        rewrite Hrem, Hlen2 in Hrun', Hlog', Hs'.
        pose proof (attempts_outcome_pos (remote w) url (S n) (S (length (net_log w))) e
                      ltac:(lia)) as Hpos.
        destruct (attempts_outcome (remote w) url (S n) (S (length (net_log w))) e)
          as [r k] eqn:Hout.
        simpl in Hrun', Hlog', Hs', Hpos |- *.
        exists w'. split; [exact Hrun'|]. split; [|split; [|split]].
        -- rewrite Hlog'. subst w2. simpl. rewrite Hlog, <- app_assoc. reflexivity.
        -- rewrite Hs'. subst w2. simpl. rewrite Hs, <- app_assoc. f_equal.
           destruct k as [|k]; [lia|]. simpl. rewrite Nat.sub_0_r.
           f_equal; [f_equal; f_equal; lia|].
           rewrite <- (seq_shift k 0), List.map_map.
           apply List.map_ext. intros j. f_equal. f_equal. lia.
        -- unfold same_setting. subst w2. simpl in *. repeat split; congruence.
        -- subst w2. simpl in *. repeat split; congruence.
Qed.

(** [downloadFont] against the origin. *)
Lemma downloadFont_spec url opts w :
  0 <= retries_of opts ->
  exists w',
    downloadFont url opts w
    = (fst (fetch_outcome (remote w) opts url (length (net_log w))), w')
    /\ net_log w'
       = net_log w ++ repeat url (snd (fetch_outcome (remote w) opts url (length (net_log w))))
    /\ sleeps w'
       = sleeps w
         ++ List.map (fun j => delay_of opts * 2 ^ Z.of_nat j)
              (seq 0 (snd (fetch_outcome (remote w) opts url (length (net_log w))) - 1))
    /\ same_setting w w'
    /\ dirs w' = dirs w /\ files w' = files w /\ console w' = console w.
Proof.
  intros Hmax. unfold downloadFont, retryWithBackoff, fetch_outcome.
  destruct (retry_download_spec url (default 30000 (timeout opts))
              (retries_of opts) (delay_of opts)
              (Z.to_nat (retries_of opts + 1)) 0 w EUndefined ltac:(lia))
    as (w' & H).
  exists w'. exact H.
Qed.

Lemma attempts_outcome_all_fail rem url e n :
  forall req e0,
    (forall j, (j < n)%nat -> attempt_result (rem (req + j)%nat url) = Throw e) ->
    attempts_outcome rem url n req e0 = (Throw (match n with O => e0 | _ => e end), n).
Proof.
  induction n as [|n IH]; intros req e0 Hall; [reflexivity|].
  simpl. pose proof (Hall 0%nat ltac:(lia)) as H0.
  rewrite Nat.add_0_r in H0. rewrite H0.
  rewrite (IH (S req) e).
  - destruct n; reflexivity.
  - intros j Hj. specialize (Hall (S j) ltac:(lia)).
    now rewrite Nat.add_succ_r in Hall.
Qed.

Lemma backoff_delays_seq base k :
  List.map (fun j => base * 2 ^ Z.of_nat j) (seq 0 k) = backoff_delays base k.
Proof.
  unfold backoff_delays. rewrite <- (seq_shift k 0), List.map_map.
  apply List.map_ext. intros j. f_equal. f_equal. lia.
Qed.

(** C3 as stated fails: a persistent "404 Not Found" is requested four
    times under the default options, not once, with the three backoff
    delays in between. *)
Lemma not_found_single_attempt_counterexample :
  let w' := snd (downloadFont (JStr "https://cms.example.com/missing.woff") noOptions
                   (empty_world origin_404)) in
  fst (downloadFont (JStr "https://cms.example.com/missing.woff") noOptions
         (empty_world origin_404))
  = Throw (EError "HTTP 404: Not Found")
  /\ length (net_log w') = 4%nat
  /\ length (net_log w') <> 1%nat
  /\ sleeps w' = [1000; 2000; 4000].
Proof.
  vm_compute. repeat split; congruence.
Qed.

(** C3, amended.  [downloadFont] has no class of non-retriable failures:
    a response outside the 2xx range, a client error such as 404 included,
    is retried like every other failure.  If the origin answers each of the
    [maxRetries + 1] attempts with the same non-2xx status, all of them are
    made, with the backoff delays in between, before the error reaches the
    caller. *)
Theorem client_errors_are_retried (url : jsval) (opts : Options) (w : World)
    (status : Z) (statusText : string) :
  0 <= retries_of opts ->
  response_ok status = false ->
  (forall j, (j <= Z.to_nat (retries_of opts))%nat ->
     exists body,
       remote w (length (net_log w) + j)%nat url = RespHttp status statusText body) ->
  exists w',
    downloadFont url opts w
    = (Throw (EError ("HTTP " +:+ dec status +:+ ": " +:+ statusText)), w')
    /\ net_log w'
       = net_log w ++ repeat url (Z.to_nat (retries_of opts) + 1)
    /\ sleeps w'
       = sleeps w ++ backoff_delays (delay_of opts)
                       (Z.to_nat (retries_of opts)).
Proof.
  intros Hmax Hnok Hall.
  destruct (downloadFont_spec url opts w Hmax) as (w' & Hrun & Hlog & Hs & _).
  assert (Hout : fetch_outcome (remote w) opts url (length (net_log w))
                 = (Throw (EError ("HTTP " +:+ dec status +:+ ": " +:+ statusText)),
                    (Z.to_nat (retries_of opts) + 1)%nat)).
  { unfold fetch_outcome.
    replace (Z.to_nat (retries_of opts + 1))
      with (S (Z.to_nat (retries_of opts))) by lia.
    rewrite (attempts_outcome_all_fail _ _
               (EError ("HTTP " +:+ dec status +:+ ": " +:+ statusText))).
    - f_equal. lia.
    - intros j Hj. destruct (Hall j ltac:(lia)) as [body Hb].
      rewrite Hb. simpl. now rewrite Hnok. }
  rewrite Hout in Hrun, Hlog, Hs. simpl in Hrun, Hlog, Hs.
  exists w'. split; [exact Hrun|]. split; [exact Hlog|].
  rewrite Hs. f_equal.
  replace (Z.to_nat (retries_of opts) + 1 - 1)%nat
    with (Z.to_nat (retries_of opts)) by lia.
  apply backoff_delays_seq.
Qed.

Lemma client_errors_are_retried_witness :
  exists w',
    downloadFont (JStr "https://cms.example.com/missing.woff") noOptions
      (empty_world origin_404)
    = (Throw (EError "HTTP 404: Not Found"), w')
    /\ net_log w' = repeat (JStr "https://cms.example.com/missing.woff") 4
    /\ sleeps w' = [1000; 2000; 4000].
Proof.
  apply (client_errors_are_retried (JStr "https://cms.example.com/missing.woff") noOptions
           (empty_world origin_404) 404 "Not Found").
  - unfold retries_of. simpl. lia.
  - reflexivity.
  - intros j _. exists None. reflexivity.
Defined.

(** ** Cache state store *)

Lemma astroDir_eq : astroDir = [".astro"].
Proof. reflexivity. Qed.

Lemma stateFile_eq : stateFile = [".astro"; "font-cache-state.json"].
Proof. reflexivity. Qed.

Lemma fontsDir_eq : fontsDir = ["public"; "fonts"].
Proof. reflexivity. Qed.

Lemma fontsJson_eq : fontsJson = ["public"; "fonts"; "fonts.json"].
Proof. reflexivity. Qed.

Lemma getFontCacheStatePath_ok w :
  state_dir_available w = true ->
  getFontCacheStatePath w = (Ok stateFile, with_state_dir w).
Proof.
  unfold state_dir_available, getFontCacheStatePath, with_state_dir, existsSync.
  intros Hav. unfold bind at 1.
  destruct (is_dir w astroDir || is_file w astroDir) eqn:Hex; simpl.
  - reflexivity.
  - apply orb_false_iff in Hex as [Hd Hf].
    simpl in Hav. apply negb_true_iff in Hav.
    unfold bind, mkdirSync_recursive. rewrite astroDir_eq in *.
    simpl. rewrite Hd, Hf, Hav. reflexivity.
Qed.

Lemma getFontCacheStatePath_fails w :
  state_dir_available w = false ->
  getFontCacheStatePath w = (Throw (EFs "EACCES" astroDir), w).
Proof.
  unfold state_dir_available, getFontCacheStatePath, existsSync.
  intros Hav. apply orb_false_iff in Hav as [Hex Hfault].
  apply negb_false_iff in Hfault.
  unfold bind at 1. rewrite Hex. simpl.
  apply orb_false_iff in Hex as [Hd Hf].
  unfold bind, mkdirSync_recursive. rewrite astroDir_eq in *.
  simpl. rewrite Hd, Hf, Hfault. reflexivity.
Qed.

Lemma with_state_dir_frame w :
  files (with_state_dir w) = files w
  /\ same_setting w (with_state_dir w)
  /\ net_log (with_state_dir w) = net_log w
  /\ sleeps (with_state_dir w) = sleeps w
  /\ console (with_state_dir w) = console w
  /\ clock (with_state_dir w) = clock w.
Proof.
  unfold with_state_dir, same_setting.
  destruct (is_dir w astroDir || is_file w astroDir); simpl; tauto.
Qed.

(** When its directory is there, loading never raises: the result is the
    parsed state file, or the fresh state when the file is missing,
    unreadable or not JSON. *)
Lemma loadFontCacheState_total w :
  state_dir_available w = true ->
  exists v w',
    loadFontCacheState w = (Ok v, w')
    /\ files w' = files w
    /\ (v = freshState
        \/ (files w !! stateFile = Some (CJson v)
            /\ io_fault w (OpRead stateFile) = false)).
Proof.
  intros Hav. unfold loadFontCacheState.
  rewrite (bind_ok _ _ _ _ _ (getFontCacheStatePath_ok w Hav)).
  destruct (with_state_dir_frame w) as (Hfiles & (_ & Hfault & _) & _).
  set (w1 := with_state_dir w) in *.
  unfold bind at 1, existsSync.
  destruct (is_dir w1 stateFile || is_file w1 stateFile) eqn:Hex; simpl.
  2:{ exists freshState, w1. auto. }
  unfold try_catch, bind at 1, readFileSync.
  rewrite Hfault, Hfiles.
  destruct (io_fault w (OpRead stateFile)) eqn:Hrd.
  { simpl. eexists _, _. split; [reflexivity|]. simpl. auto. }
  destruct (files w !! stateFile) as [[v|raw]|] eqn:Hlk.
  - simpl. exists v, w1. auto.
  - simpl. eexists _, _. split; [reflexivity|]. simpl. auto.
  - simpl. eexists _, _. split; [reflexivity|]. simpl. auto.
Qed.

(** When its directory is there, saving never raises, whatever the state
    and whether or not the write goes through. *)
Lemma saveFontCacheState_total state w :
  state_dir_available w = true ->
  exists w', saveFontCacheState state w = (Ok tt, w').
Proof.
  intros Hav. unfold saveFontCacheState.
  rewrite (bind_ok _ _ _ _ _ (getFontCacheStatePath_ok w Hav)).
  unfold try_catch, bind, lift, writeFileSync, log.
  destruct (JSON_document state) as [c|e]; [|eexists; reflexivity].
  destruct (io_fault (with_state_dir w) (OpWrite stateFile)); [eexists; reflexivity|].
  destruct (is_dir (with_state_dir w) stateFile); [eexists; reflexivity|].
  destruct (negb (is_dir (with_state_dir w) (parent stateFile))); eexists; reflexivity.
Qed.

(** C5.  The state store is not total: [getFontCacheStatePath] creates the
    state directory outside the handlers of [loadFontCacheState] and
    [saveFontCacheState], so where the directory is missing and cannot be
    created both raise the error of [mkdirSync] instead of falling back to
    the fresh state or logging the failure. *)
Theorem state_store_raises_without_state_dir :
  loadFontCacheState readonly_world = (Throw (EFs "EACCES" [".astro"]), readonly_world)
  /\ saveFontCacheState freshState readonly_world
     = (Throw (EFs "EACCES" [".astro"]), readonly_world).
Proof.
  split; reflexivity.
Qed.

(** C6 as stated fails: a state file of version 0.9.0 is returned with its
    entries, not treated as empty. *)
Lemma old_version_not_gated_counterexample :
  fst (loadFontCacheState old_state_world) = Ok old_state
  /\ js_get old_state "version" = Ok (JStr "0.9.0")
  /\ old_state <> freshState.
Proof.
  repeat split; try reflexivity. discriminate.
Qed.

(** C6, amended.  The state carries a [version] field (the fresh state and
    every saved state have "1.0.0"), but [loadFontCacheState] does not look
    at it: a state file that can be read and parsed is returned as parsed,
    whatever its version. *)
Theorem load_ignores_version (w : World) (state : jsval) :
  state_dir_available w = true ->
  io_fault w (OpRead stateFile) = false ->
  files w !! stateFile = Some (CJson state) ->
  exists w', loadFontCacheState w = (Ok state, w')
             /\ js_get freshState "version" = Ok (JStr "1.0.0").
Proof.
  intros Hav Hrd Hlk. unfold loadFontCacheState.
  rewrite (bind_ok _ _ _ _ _ (getFontCacheStatePath_ok w Hav)).
  destruct (with_state_dir_frame w) as (Hfiles & (_ & Hfault & _) & _).
  unfold bind at 1, existsSync.
  assert (Hf : is_file (with_state_dir w) stateFile = true).
  { unfold is_file. rewrite Hfiles, Hlk. apply bool_decide_eq_true. eauto. }
  rewrite Hf, orb_true_r. simpl.
  unfold try_catch, bind, readFileSync. rewrite Hfault, Hrd, Hfiles, Hlk.
  simpl. eauto.
Qed.

Lemma load_ignores_version_witness :
  exists w', loadFontCacheState old_state_world = (Ok old_state, w')
             /\ js_get freshState "version" = Ok (JStr "1.0.0").
Proof.
  apply load_ignores_version; reflexivity.
Defined.

(** ** Path normalisation and [sanitizePath] *)

Lemma split_slash_cons s : exists seg rest, split_slash s = seg :: rest.
Proof.
  induction s as [|c s (seg & rest & IH)]; simpl; [eauto|].
  destruct (Ascii.eqb c slash); [eauto|]. rewrite IH. eauto.
Qed.

Lemma split_slash_app a b :
  split_slash (a +:+ String slash b) = split_slash a ++ split_slash b.
Proof.
  induction a as [|c a IH]; simpl.
  - reflexivity.
  - destruct (Ascii.eqb c slash); [now rewrite IH|].
    rewrite IH. destruct (split_slash_cons a) as (seg & rest & ->). reflexivity.
Qed.

Lemma split_slash_plain s : has_slash s = false -> split_slash s = [s].
Proof.
  induction s as [|c s IH]; simpl; [reflexivity|].
  intros H. apply orb_false_iff in H as [Hc Hs].
  rewrite Hc, (IH Hs). reflexivity.
Qed.

Lemma split_slash_no_slash s : Forall (fun seg => has_slash seg = false) (split_slash s).
Proof.
  induction s as [|c s IH]; simpl.
  - repeat constructor.
  - destruct (Ascii.eqb c slash) eqn:Hc.
    + constructor; [reflexivity|exact IH].
    + destruct (split_slash s) as [|seg rest]; [repeat constructor; simpl; now rewrite Hc|].
      inversion IH; subst. constructor; [simpl; now rewrite Hc|assumption].
Qed.

Lemma split_slash_join l :
  l <> [] ->
  Forall (fun seg => has_slash seg = false) l ->
  split_slash (join_with "/" l) = l.
Proof.
  induction l as [|x l IH]; [congruence|]. intros _ Hall.
  inversion Hall as [|? ? Hx Hl]; subst.
  destruct l as [|y l].
  - simpl. now apply split_slash_plain.
  - change (join_with "/" (x :: y :: l)) with (x +:+ String slash (join_with "/" (y :: l))).
    rewrite split_slash_app, (split_slash_plain x Hx), IH by (congruence || assumption).
    reflexivity.
Qed.

Lemma norm_step_stack allow stack seg :
  norm_stack stack -> norm_stack (norm_step allow stack seg).
Proof.
  intros (rest & k & -> & Hrest). unfold norm_step.
  destruct (String.eqb seg EmptyString) eqn:He; simpl; [exists rest, k; auto|].
  destruct (String.eqb seg ".") eqn:Hd; simpl; [exists rest, k; auto|].
  destruct (String.eqb seg "..") eqn:Hdd.
  - apply String.eqb_eq in Hdd. subst seg.
    destruct rest as [|top rest].
    + simpl. destruct k as [|k]; simpl.
      * destruct allow; [exists [], 1%nat|exists [], 0%nat]; simpl; auto.
      * destruct allow; [exists [], (S (S k))|exists [], (S k)]; simpl; auto.
    + inversion Hrest as [|? ? Htop Hr]; subst. simpl.
      assert (Hne : String.eqb top ".." = false).
      { unfold plain_seg in Htop. apply andb_true_iff in Htop as [_ H].
        now apply negb_true_iff in H. }
      rewrite Hne. exists rest, k. auto.
  - exists (seg :: rest), k. split; [reflexivity|].
    constructor; [|assumption]. unfold plain_seg. now rewrite He, Hd, Hdd.
Qed.

Lemma fold_norm_step_stack allow segs :
  forall stack, norm_stack stack -> norm_stack (fold_left (norm_step allow) segs stack).
Proof.
  induction segs as [|seg segs IH]; intros stack H; simpl; [assumption|].
  apply IH. now apply norm_step_stack.
Qed.

Lemma norm_step_no_slash allow stack seg :
  has_slash seg = false ->
  Forall (fun s => has_slash s = false) stack ->
  Forall (fun s => has_slash s = false) (norm_step allow stack seg).
Proof.
  intros Hseg Hst. unfold norm_step.
  destruct (String.eqb seg EmptyString || String.eqb seg "."); [assumption|].
  destruct (String.eqb seg "..").
  - destruct stack as [|top rest].
    + destruct allow; repeat constructor; assumption.
    + inversion Hst; subst.
      destruct (String.eqb top ".."); [destruct allow|]; auto.
  - constructor; assumption.
Qed.

Lemma fold_norm_step_no_slash allow segs :
  forall stack,
    Forall (fun s => has_slash s = false) segs ->
    Forall (fun s => has_slash s = false) stack ->
    Forall (fun s => has_slash s = false) (fold_left (norm_step allow) segs stack).
Proof.
  induction segs as [|seg segs IH]; intros stack Hs Hst; simpl; [assumption|].
  inversion Hs; subst. apply IH; [assumption|]. now apply norm_step_no_slash.
Qed.

(** The segments [norm_segs] keeps: a run of ".." followed by entry names,
    none of them with a slash. *)
Lemma norm_segs_shape allow s :
  exists k names,
    norm_segs allow (split_slash s) = repeat ".." k ++ names
    /\ Forall (fun seg => plain_seg seg = true) names
    /\ Forall (fun seg => has_slash seg = false) (repeat ".." k ++ names).
Proof.
  unfold norm_segs.
  destruct (fold_norm_step_stack allow (split_slash s) [])
    as (rest & k & Heq & Hrest).
  { exists [], 0%nat. simpl. auto. }
  pose proof (fold_norm_step_no_slash allow (split_slash s) []
                (split_slash_no_slash s) ltac:(constructor)) as Hns.
  exists k, (rev rest). rewrite Heq in *.
  rewrite rev_app_distr, rev_repeat.
  split; [reflexivity|]. split.
  - apply Forall_rev. exact Hrest.
  - rewrite <- rev_repeat, <- rev_app_distr. apply Forall_rev. exact Hns.
Qed.

Lemma plain_seg_not_dotdot names :
  Forall (fun seg => plain_seg seg = true) names -> ~ In ".." names.
Proof.
  intros Hall Hin. rewrite Forall_forall in Hall.
  apply list_elem_of_In in Hin. specialize (Hall _ Hin). discriminate Hall.
Qed.

Lemma join_with_nil_iff l :
  Forall (fun seg => plain_seg seg = true) l ->
  join_with "/" l = EmptyString -> l = [].
Proof.
  destruct l as [|x l]; [reflexivity|]. intros Hall Hj.
  inversion Hall as [|? ? Hx _]; subst.
  destruct x as [|c x]; [discriminate Hx|].
  destruct l; simpl in Hj; discriminate Hj.
Qed.

Lemma append_empty_l (x : string) : EmptyString +:+ x = x.
Proof. reflexivity. Qed.

Lemma append_cons c (x y : string) : String c x +:+ y = String c (x +:+ y).
Proof. reflexivity. Qed.

Lemma prefix_empty (x : string) : String.prefix EmptyString x = true.
Proof. destruct x; reflexivity. Qed.

Lemma append_empty_r (x : string) : x +:+ EmptyString = x.
Proof.
  induction x as [|c x IH]; [reflexivity|].
  change (String c (x +:+ EmptyString) = String c x). now rewrite IH.
Qed.

(** A relative normalised path that passes the traversal checks of
    [sanitizePath] has no ".." segment left. *)
Lemma normalize_no_dotdot s :
  isAbsolute (normalize s) = false ->
  String.prefix "../" (normalize s) = false ->
  normalize s <> ".." ->
  ~ In ".." (split_slash (normalize s)).
Proof.
  unfold normalize, isAbsolute.
  destruct (String.eqb s EmptyString); [simpl; intuition congruence|].
  destruct (starts_with_slash s) eqn:Habs.
  { destruct (String.eqb _ EmptyString); simpl; discriminate. }
  simpl negb.
  destruct (norm_segs_shape true s) as (k & names & Heq & Hnames & Hns).
  rewrite Heq.
  destruct k as [|k].
  - simpl repeat. simpl app. simpl in Hns.
    destruct (String.eqb (join_with "/" names) EmptyString) eqn:Hempty.
    + destruct (ends_with_slash s); simpl; intuition congruence.
    + intros _ _ _.
      assert (Hne : names <> []).
      { intros ->. simpl in Hempty. discriminate. }
      rewrite append_empty_l.
      destruct (ends_with_slash s).
      * change (join_with "/" names +:+ "/")
          with (join_with "/" names +:+ String slash EmptyString).
        rewrite split_slash_app, (split_slash_join names Hne Hns). simpl.
        rewrite in_app_iff. intros [H|[H|[]]]; [|discriminate H].
        exact (plain_seg_not_dotdot names Hnames H).
      * rewrite append_empty_r, (split_slash_join names Hne Hns).
        exact (plain_seg_not_dotdot names Hnames).
  - intros _ Hpre Hneq. exfalso.
    simpl repeat in *. simpl app in *.
    destruct (repeat ".." k ++ names) as [|y l] eqn:Hl.
    + destruct (ends_with_slash s);
        [vm_compute in Hpre; discriminate Hpre|apply Hneq; reflexivity].
    + change (join_with "/" (".." :: y :: l))
        with (String "." (String "." (String slash (join_with "/" (y :: l))))) in Hpre.
      rewrite append_empty_l, !append_cons in Hpre.
      simpl in Hpre. rewrite prefix_empty in Hpre. discriminate Hpre.
Qed.

(** C10.  [sanitizePath] either throws or returns the POSIX-normalised
    input, and a returned path is relative, is not "..", does not start
    with "../", contains neither "/../" nor "..\", and so has no ".."
    segment through which it could leave the working directory. *)
Theorem sanitizePath_no_traversal (s : string) (fieldName : option string) :
  (exists e, sanitizePath (JStr s) fieldName = Throw e)
  \/ (sanitizePath (JStr s) fieldName = Ok (normalize s)
      /\ isAbsolute (normalize s) = false
      /\ normalize s <> ".."
      /\ String.prefix "../" (normalize s) = false
      /\ includes "/../" (normalize s) = false
      /\ includes "..\" (normalize s) = false
      /\ ~ In ".." (split_slash (normalize s))).
Proof.
  unfold sanitizePath.
  destruct (negb (truthy (JStr s))); [left; eauto|].
  destruct (String.prefix "../" (normalize s)) eqn:Hpre; [left; eauto|].
  destruct (includes "/../" (normalize s)) eqn:Hinc; [left; eauto|].
  destruct (includes "..\" (normalize s)) eqn:Hbs; [left; eauto|].
  destruct (String.eqb (normalize s) "..") eqn:Heq; [left; eauto|].
  simpl orb. cbv iota.
  destruct (isAbsolute (normalize s)) eqn:Habs; [left; eauto|].
  right. apply String.eqb_neq in Heq.
  repeat split; auto.
  now apply normalize_no_dotdot.
Qed.

(** ** File system: creating directories *)

Lemma quiet_refl w : quiet w w.
Proof. unfold quiet, same_setting. tauto. Qed.

Lemma quiet_trans w1 w2 w3 : quiet w1 w2 -> quiet w2 w3 -> quiet w1 w3.
Proof.
  unfold quiet, same_setting.
  intros ((?&?&?&?)&?&?&?&?) ((?&?&?&?)&?&?&?&?).
  repeat split; congruence.
Qed.

Lemma mkdir_from_spec rest :
  forall base w r w',
    mkdir_from base rest w = (r, w') ->
    files w' = files w /\ quiet w w'
    /\ (forall q, q ∈ dirs w -> q ∈ dirs w')
    /\ (forall q, q ∈ dirs w' ->
          q ∈ dirs w \/ exists pre, pre <> [] /\ pre `prefix_of` rest /\ q = base ++ pre)
    /\ (r = Ok tt -> rest <> [] -> is_dir w' (base ++ rest) = true).
Proof.
  induction rest as [|s rest IH]; intros base w r w' Hrun.
  - simpl in Hrun. inversion Hrun; subst.
    split; [reflexivity|]. split; [apply quiet_refl|].
    repeat split; auto; congruence.
  - simpl in Hrun.
    destruct (is_dir w (base ++ [s])) eqn:Hd.
    + destruct (IH _ _ _ _ Hrun) as (Hf & Hq & Hsub & Hnew & Hok).
      split; [exact Hf|]. split; [exact Hq|]. split; [exact Hsub|]. split.
      * intros q Hq'. destruct (Hnew q Hq') as [?|(pre & Hne & Hpre & ->)]; [auto|].
        right. exists (s :: pre). split; [discriminate|]. split.
        -- now apply prefix_cons.
        -- now rewrite <- app_assoc.
      * intros -> _. destruct rest as [|s' rest].
        -- simpl in Hrun. inversion Hrun; subst. exact Hd.
        -- rewrite (cons_middle s base), app_assoc. apply Hok; [reflexivity|discriminate].
    + destruct (is_file w (base ++ [s])).
      { inversion Hrun; subst. split; [reflexivity|]. split; [apply quiet_refl|].
        repeat split; auto. discriminate. }
      destruct (io_fault w (OpMkdir (base ++ [s]))).
      { inversion Hrun; subst. split; [reflexivity|]. split; [apply quiet_refl|].
        repeat split; auto. discriminate. }
      destruct (IH _ _ _ _ Hrun) as (Hf & Hq & Hsub & Hnew & Hok).
      split; [exact Hf|]. split; [exact Hq|]. split; [|split].
      * intros q Hq'. apply Hsub. simpl. apply elem_of_union. now right.
      * intros q Hq'. destruct (Hnew q Hq') as [Hin|(pre & Hne & Hpre & ->)].
        -- simpl in Hin. apply elem_of_union in Hin as [Hin|Hin]; [|auto].
           apply elem_of_singleton in Hin. subst q.
           right. exists [s]. split; [discriminate|]. split; [|reflexivity].
           apply prefix_cons, prefix_nil.
        -- right. exists (s :: pre). split; [discriminate|]. split.
           ++ now apply prefix_cons.
           ++ now rewrite <- app_assoc.
      * intros -> _. destruct rest as [|s' rest].
        -- simpl in Hrun. inversion Hrun; subst.
           unfold is_dir. simpl. apply orb_true_iff. right.
           apply bool_decide_eq_true, elem_of_union. left.
           now apply elem_of_singleton.
        -- rewrite (cons_middle s base), app_assoc. apply Hok; [reflexivity|discriminate].
Qed.

(** [if (!fs.existsSync(p)) fs.mkdirSync(p, { recursive: true })] with a
    directory that is ready. *)
Lemma ensure_dir_ready {B} (p : fpath) (k : M B) w :
  p <> [] ->
  dir_ready w p = true ->
  (let* present := existsSync p in
   let* _ := when (negb present) (mkdirSync_recursive p) in
   k) w = k (with_dir p w)
  /\ dirs_added p w (with_dir p w)
  /\ is_dir (with_dir p w) p = true.
Proof.
  intros Hne Hready. unfold dir_ready in Hready. unfold with_dir.
  unfold bind at 1, existsSync.
  destruct (is_dir w p) eqn:Hd.
  - simpl. split; [reflexivity|]. split; [|exact Hd].
    unfold dirs_added. split; [reflexivity|]. split; [apply quiet_refl|]. auto.
  - simpl in Hready. apply andb_true_iff in Hready as [Hnf Hmk].
    apply negb_true_iff in Hnf. rewrite Hnf. simpl.
    destruct (mkdirSync_recursive p w) as [r w1] eqn:Hrun.
    simpl in Hmk. destruct r as [[]|e]; [|discriminate].
    rewrite (bind_ok _ _ _ _ _ Hrun).
    split; [reflexivity|]. simpl.
    unfold mkdirSync_recursive in Hrun.
    destruct (mkdir_from_spec _ _ _ _ _ Hrun) as (Hf & Hq & Hsub & Hnew & Hok).
    split; [|apply (Hok eq_refl Hne)].
    unfold dirs_added. split; [exact Hf|]. split; [exact Hq|]. split; [exact Hsub|].
    intros q Hq'. destruct (Hnew q Hq') as [?|(pre & Hpne & Hpre & ->)]; auto.
Qed.

Lemma dirs_added_is_file p w w1 q :
  dirs_added p w w1 -> is_file w1 q = is_file w q.
Proof. intros (Hf & _). unfold is_file. now rewrite Hf. Qed.

Lemma dirs_added_is_dir_mono p w w1 q :
  dirs_added p w w1 -> is_dir w q = true -> is_dir w1 q = true.
Proof.
  intros (_ & _ & Hsub & _). unfold is_dir.
  rewrite !orb_true_iff, !bool_decide_eq_true. intros [?|?]; auto.
Qed.

Lemma dirs_added_is_dir_other p w w1 q :
  dirs_added p w w1 -> ~ q `prefix_of` p -> is_dir w1 q = is_dir w q.
Proof.
  intros (_ & _ & Hsub & Hnew) Hnp. unfold is_dir.
  destruct (bool_decide (q = [])); [reflexivity|]. simpl.
  apply bool_decide_ext. split; [|apply Hsub].
  intros Hq. destruct (Hnew q Hq) as [?|[_ ?]]; [assumption|contradiction].
Qed.

Lemma dirs_added_fault p w w1 op :
  dirs_added p w w1 -> io_fault w1 op = io_fault w op.
Proof. intros (_ & ((_ & Hf & _) & _) & _). now rewrite Hf. Qed.

Lemma dir_ready_state_dir w :
  dir_ready w astroDir = true -> state_dir_available w = true.
Proof.
  unfold dir_ready, state_dir_available.
  destruct (is_dir w astroDir) eqn:Hd; [reflexivity|]. simpl.
  destruct (is_file w astroDir) eqn:Hf; [reflexivity|]. simpl.
  unfold mkdirSync_recursive. rewrite astroDir_eq in *. simpl.
  rewrite Hd, Hf. destruct (io_fault w (OpMkdir [".astro"])); [discriminate|reflexivity].
Qed.

(** ** The cache-hit branch *)

Lemma hex_digit_string (x : Z) : exists c rest, hex_word x = String c rest.
Proof. unfold hex_word. simpl. eauto. Qed.

Lemma sha256_hex_nonempty (s : string) : sha256_hex s <> EmptyString.
Proof.
  unfold sha256_hex. cbv zeta.
  set (st := sha_blocks _ _ _). unfold list_of_regs. simpl List.map.
  destruct (hex_digit_string (nth 0 st 0)) as (c & rest & ->).
  simpl. discriminate.
Qed.

Lemma generateFontConfigHash_nonempty fonts h :
  generateFontConfigHash fonts = Ok h -> truthy (JStr h) = true.
Proof.
  unfold generateFontConfigHash, res_bind.
  destruct (js_array fonts "fonts.map"); [|discriminate].
  destruct (res_mapM project_font a); [|discriminate].
  intros [= <-]. unfold truthy.
  apply negb_true_iff, String.eqb_neq, sha256_hex_nonempty.
Qed.

Lemma hasFontConfigChanged_same fonts st h :
  generateFontConfigHash fonts = Ok h ->
  js_get st "configHash" = Ok (JStr h) ->
  hasFontConfigChanged fonts st = Ok false.
Proof.
  intros Hh Hc. unfold hasFontConfigChanged, res_bind. rewrite Hh, Hc.
  rewrite (generateFontConfigHash_nonempty _ _ Hh). simpl.
  now rewrite String.eqb_refl.
Qed.

Lemma recorded_file_exists_present w recorded :
  recorded_present w recorded = true ->
  recorded_file_exists recorded w = (Ok true, w).
Proof.
  unfold recorded_present, recorded_file_exists.
  destruct (truthy recorded) eqn:Ht; simpl; [|reflexivity].
  destruct recorded; try discriminate.
  intros H. unfold bind, lift, basename, existsSync. now rewrite H.
Qed.

Lemma cached_font_exists_present w font :
  entry_present w font = true -> cached_font_exists font w = (Ok true, w).
Proof.
  unfold entry_present, cached_font_exists.
  destruct (js_get font "woff") as [a|]; [|discriminate].
  destruct (js_get font "woff2") as [b|]; [|discriminate].
  intros H. apply andb_true_iff in H as [Ha Hb].
  unfold bind at 1, lift. unfold bind at 1.
  rewrite (recorded_file_exists_present _ _ Ha).
  unfold bind at 1. unfold bind at 1.
  rewrite (recorded_file_exists_present _ _ Hb). reflexivity.
Qed.

Lemma every_present w l :
  forallb (entry_present w) l = true ->
  every cached_font_exists l w = (Ok true, w).
Proof.
  induction l as [|font l IH]; simpl; [reflexivity|].
  intros H. apply andb_true_iff in H as [Hf Hl].
  unfold bind. rewrite (cached_font_exists_present _ _ Hf). now apply IH.
Qed.

Lemma js_to_string_displayable w v :
  displayable w v = true -> exists s, js_to_string v w = (Ok s, w).
Proof.
  unfold displayable, js_to_string.
  destruct v as [| |[]| | | |]; eauto;
    intros H; apply bool_decide_eq_true in H as [s ->]; eauto.
Qed.

(** The cache-hit branch in a world where the fonts directory exists. *)
Lemma use_cache_hit st l v w :
  js_get st "fonts" = Ok (JArr l) ->
  l <> [] ->
  js_get st "lastSync" = Ok v ->
  displayable w v = true ->
  forallb (entry_present w) l = true ->
  is_dir w fontsDir = true ->
  io_fault w (OpWrite fontsJson) = false ->
  is_dir w fontsJson = false ->
  exists w',
    use_cache st w = (Ok (Some (JArr l)), w')
    /\ files w' = <[fontsJson := CJson (json_norm (JObj [("fonts", JArr l)]))]> (files w)
    /\ net_log w' = net_log w /\ sleeps w' = sleeps w.
Proof.
  intros Hfonts Hne Hls Hdisp Hpres Hdir Hfault Hnd.
  assert (Hpos : (0 <? Z.of_nat (length l)) = true).
  { apply Z.ltb_lt. destruct l; [congruence|simpl; lia]. }
  unfold use_cache. rewrite Hfonts, Hls.
  mstep. mstep. rewrite !String.eqb_refl.
  rewrite (bind_ok _ _ _ true w) by (unfold js_gt_zero; now rewrite Hpos).
  change (negb true) with false. cbv iota.
  mstep. mstep.
  set (w1 := set_console _ w).
  mstep.
  destruct (js_to_string_displayable w1 v Hdisp) as [shown Hshown].
  rewrite (bind_ok _ _ _ _ _ Hshown).
  mstep. set (w2 := set_console _ w1).
  mstep.
  rewrite (bind_ok _ _ _ _ _ (every_present w2 l Hpres)).
  mstep.
  unfold bind, writeFileSync.
  change (io_fault w2) with (io_fault w). rewrite Hfault.
  change (is_dir w2 fontsJson) with (is_dir w fontsJson). rewrite Hnd.
  change (is_dir w2 (parent fontsJson)) with (is_dir w fontsDir). rewrite Hdir.
  simpl. eexists. split; [reflexivity|]. simpl. auto.
Qed.

Lemma with_state_dir_added w : dirs_added astroDir w (with_state_dir w).
Proof.
  unfold dirs_added, with_state_dir.
  destruct (is_dir w astroDir || is_file w astroDir).
  - split; [reflexivity|]. split; [apply quiet_refl|]. auto.
  - simpl. split; [reflexivity|].
    split; [unfold quiet, same_setting; simpl; tauto|]. split.
    + intros q Hq. apply elem_of_union. now right.
    + intros q Hq. apply elem_of_union in Hq as [Hq|Hq]; [|auto].
      apply elem_of_singleton in Hq. subst q. right. split; [discriminate|reflexivity].
Qed.

Lemma loadFontCacheState_parsed w st :
  state_dir_available w = true ->
  io_fault w (OpRead stateFile) = false ->
  files w !! stateFile = Some (CJson st) ->
  loadFontCacheState w = (Ok st, with_state_dir w).
Proof.
  intros Hav Hrd Hlk. unfold loadFontCacheState.
  rewrite (bind_ok _ _ _ _ _ (getFontCacheStatePath_ok w Hav)).
  destruct (with_state_dir_frame w) as (Hfiles & (_ & Hfault & _) & _).
  unfold bind at 1, existsSync.
  assert (Hf : is_file (with_state_dir w) stateFile = true).
  { unfold is_file. rewrite Hfiles, Hlk. apply bool_decide_eq_true. eauto. }
  rewrite Hf, orb_true_r. simpl.
  unfold try_catch, bind, readFileSync. rewrite Hfault, Hrd, Hfiles, Hlk.
  reflexivity.
Qed.

Lemma state_dir_available_mono p w w1 :
  dirs_added p w w1 -> state_dir_available w = true -> state_dir_available w1 = true.
Proof.
  intros Hadd. unfold state_dir_available.
  rewrite (dirs_added_is_file _ _ _ astroDir Hadd), (dirs_added_fault _ _ _ _ Hadd).
  rewrite !orb_true_iff. intros [[Hd|Hf]|Hn]; auto.
  left. left. exact (dirs_added_is_dir_mono _ _ _ _ Hadd Hd).
Qed.

Lemma recorded_present_mono p w w1 v :
  dirs_added p w w1 -> recorded_present w v = true -> recorded_present w1 v = true.
Proof.
  intros Hadd. unfold recorded_present.
  destruct (negb (truthy v)); [reflexivity|]. simpl.
  destruct v; try discriminate.
  rewrite (dirs_added_is_file _ _ _ _ Hadd).
  destruct (is_dir w _) eqn:Hd.
  - now rewrite (dirs_added_is_dir_mono _ _ _ _ Hadd Hd).
  - simpl. intros ->. apply orb_true_r.
Qed.

Lemma entry_present_mono p w w1 l :
  dirs_added p w w1 ->
  forallb (entry_present w) l = true -> forallb (entry_present w1) l = true.
Proof.
  intros Hadd. rewrite !forallb_forall. intros H font Hin.
  specialize (H font Hin). unfold entry_present in *.
  destruct (js_get font "woff") as [a|]; [|discriminate].
  destruct (js_get font "woff2") as [b|]; [|discriminate].
  apply andb_true_iff in H as [Ha Hb].
  now rewrite (recorded_present_mono _ _ _ _ Hadd Ha), (recorded_present_mono _ _ _ _ Hadd Hb).
Qed.

Lemma displayable_quiet w w1 v :
  quiet w w1 -> displayable w1 v = displayable w v.
Proof. intros ((_ & _ & _ & Hg) & _). unfold displayable. now rewrite Hg. Qed.

Lemma not_prefix_longer (q p : fpath) : (length p < length q)%nat -> ~ q `prefix_of` p.
Proof. intros Hlen Hpre. apply prefix_length in Hpre. lia. Qed.

(** A run that ends in the cache-hit branch. *)
Lemma cache_hit_run (fonts : jsval) (options : Options) (w : World)
    (st : jsval) (h : string) (l : list jsval) (lastSync : jsval) :
  dir_ready w fontsDir = true ->
  dir_ready w astroDir = true ->
  io_fault w (OpRead stateFile) = false ->
  io_fault w (OpWrite fontsJson) = false ->
  is_dir w fontsJson = false ->
  files w !! stateFile = Some (CJson st) ->
  generateFontConfigHash fonts = Ok h ->
  js_get st "configHash" = Ok (JStr h) ->
  js_get st "fonts" = Ok (JArr l) ->
  l <> [] ->
  js_get st "lastSync" = Ok lastSync ->
  displayable w lastSync = true ->
  forallb (entry_present w) l = true ->
  exists w',
    downloadFontsWithCache fonts options w = (Ok (JArr l), w')
    /\ net_log w' = net_log w
    /\ sleeps w' = sleeps w
    /\ files w' = <[fontsJson := CJson (json_norm (JObj [("fonts", JArr l)]))]> (files w)
    /\ files w' !! stateFile = Some (CJson st).
Proof.
  intros Hfd Had Hrd Hwr Hnd Hlk Hh Hc Hfonts Hne Hls Hdisp Hpres.
  unfold downloadFontsWithCache.
  match goal with
  | |- context [bind (existsSync fontsDir) (fun present => bind _ (fun _ => ?k))] =>
      destruct (ensure_dir_ready fontsDir k w ltac:(discriminate) Hfd)
        as (Heq & Hadd1 & Hdir1)
  end.
  set (w1 := with_dir fontsDir w) in *.
  rewrite Heq. clear Heq.
  pose proof (with_state_dir_added w1) as Hadd2.
  set (w2 := with_state_dir w1) in *.
  assert (Hav1 : state_dir_available w1 = true).
  { apply (state_dir_available_mono _ _ _ Hadd1), dir_ready_state_dir, Had. }
  assert (Hlk1 : files w1 !! stateFile = Some (CJson st)).
  { destruct Hadd1 as (-> & _). exact Hlk. }
  assert (Hrd1 : io_fault w1 (OpRead stateFile) = false).
  { now rewrite (dirs_added_fault _ _ _ _ Hadd1). }
  rewrite (bind_ok _ _ _ _ _ (loadFontCacheState_parsed w1 st Hav1 Hrd1 Hlk1)).
  fold w2.
  rewrite (hasFontConfigChanged_same _ _ _ Hh Hc). mstep.
  change (negb false) with true. cbv iota.
  destruct (use_cache_hit st l lastSync w2 Hfonts Hne Hls) as (w' & Hrun & Hfiles & Hnet & Hsl).
  - rewrite (displayable_quiet w1 w2), (displayable_quiet w w1); [exact Hdisp| |].
    + destruct Hadd1 as (_ & Hq & _). exact Hq.
    + destruct Hadd2 as (_ & Hq & _). exact Hq.
  - apply (entry_present_mono _ _ _ _ Hadd2), (entry_present_mono _ _ _ _ Hadd1), Hpres.
  - apply (dirs_added_is_dir_mono _ _ _ _ Hadd2), Hdir1.
  - now rewrite (dirs_added_fault _ _ _ _ Hadd2), (dirs_added_fault _ _ _ _ Hadd1).
  - rewrite (dirs_added_is_dir_other _ _ _ fontsJson Hadd2),
      (dirs_added_is_dir_other _ _ _ fontsJson Hadd1); [exact Hnd| |].
    + apply not_prefix_longer. rewrite fontsJson_eq, fontsDir_eq. simpl. lia.
    + apply not_prefix_longer. rewrite fontsJson_eq, astroDir_eq. simpl. lia.
  - rewrite (bind_ok _ _ _ _ _ Hrun). exists w'.
    destruct Hadd1 as (Hf1 & (_ & Hn1 & Hs1 & _) & _).
    destruct Hadd2 as (Hf2 & (_ & Hn2 & Hs2 & _) & _).
    split; [reflexivity|].
    split; [congruence|]. split; [congruence|].
    assert (Hfw : files w' = <[fontsJson:=CJson (json_norm (JObj [("fonts", JArr l)]))]> (files w))
      by (rewrite Hfiles; congruence).
    split; [exact Hfw|].
    rewrite Hfw, lookup_insert_ne; [exact Hlk|].
    rewrite fontsJson_eq, stateFile_eq. discriminate.
Qed.

(** C1, amended.  When the fingerprint of the configuration equals the
    cached [configHash], the cached font list is not empty and every file
    it records is on disk, [downloadFontsWithCache] sends no request and
    waits for nothing, returns the cached list unchanged, and rewrites
    [fonts.json] from it.  The cache state file is not written: no
    timestamp in it is refreshed. *)
Theorem cache_hit_no_download (fonts : jsval) (options : Options) (w : World)
    (st : jsval) (h : string) (l : list jsval) (lastSync : jsval) :
  dir_ready w fontsDir = true ->
  dir_ready w astroDir = true ->
  io_fault w (OpRead stateFile) = false ->
  io_fault w (OpWrite fontsJson) = false ->
  is_dir w fontsJson = false ->
  files w !! stateFile = Some (CJson st) ->
  generateFontConfigHash fonts = Ok h ->
  js_get st "configHash" = Ok (JStr h) ->
  js_get st "fonts" = Ok (JArr l) ->
  l <> [] ->
  js_get st "lastSync" = Ok lastSync ->
  displayable w lastSync = true ->
  forallb (entry_present w) l = true ->
  exists w',
    downloadFontsWithCache fonts options w = (Ok (JArr l), w')
    /\ net_log w' = net_log w
    /\ sleeps w' = sleeps w
    /\ files w' = <[fontsJson := CJson (json_norm (JObj [("fonts", JArr l)]))]> (files w)
    /\ files w' !! stateFile = Some (CJson st).
Proof.
  apply cache_hit_run.
Qed.

Lemma cache_hit_no_download_witness :
  exists w',
    downloadFontsWithCache cached_config noOptions cached_world
    = (Ok (JArr cached_fonts), w')
    /\ net_log w' = net_log cached_world
    /\ sleeps w' = sleeps cached_world
    /\ files w'
       = <[fontsJson := CJson (json_norm (JObj [("fonts", JArr cached_fonts)]))]>
           (files cached_world)
    /\ files w' !! stateFile = Some (CJson cached_state).
Proof.
  apply (cache_hit_no_download cached_config noOptions cached_world cached_state
           (match generateFontConfigHash cached_config with
            | Ok h => h
            | Throw _ => EmptyString
            end)
           cached_fonts (JStr "2024-01-10T09:00:00.000Z"));
    try (vm_compute; reflexivity).
  discriminate.
Defined.

(** C1 as stated fails: on a cache hit the only file written is
    [fonts.json]; the cache state keeps the time stamp of the run that
    saved it, although the clock has moved on. *)
Lemma cache_hit_refresh_counterexample :
  let run := downloadFontsWithCache cached_config noOptions cached_world in
  fst run = Ok (JArr cached_fonts)
  /\ net_log (snd run) = []
  /\ files (snd run) !! stateFile = Some (CJson cached_state)
  /\ js_get cached_state "lastSync" = Ok (JStr "2024-01-10T09:00:00.000Z")
  /\ toISOString (clock (snd run)) = "2024-01-15T10:30:00.000Z"
  /\ files cached_world !! fontsJson = None
  /\ files (snd run) !! fontsJson
     = Some (CJson (JObj [("fonts", JArr cached_fonts)])).
Proof.
  vm_compute. repeat split; reflexivity.
Qed.

(** ** Entry points without an origin *)

Lemma calm_ret {A} (a : A) : calm (ret a).
Proof. intros w. simpl. repeat split; discriminate. Qed.

Lemma calm_log e : calm (log e).
Proof. intros w. simpl. repeat split; discriminate. Qed.

Lemma calm_lift {A} (r : Res A) : r <> Throw EUndefined -> calm (lift r).
Proof. intros H w. unfold lift. simpl. repeat split; assumption. Qed.

Lemma calm_bind {A B} (m : M A) (k : A -> M B) :
  calm m -> (forall a, calm (k a)) -> calm (bind m k).
Proof.
  intros Hm Hk w. unfold bind. destruct (Hm w) as (He & Hn & Hr).
  destruct (m w) as [[a|e] w1]; simpl in *.
  - destruct (Hk a w1) as (He' & Hn' & Hr'). repeat split; congruence.
  - repeat split; try assumption. intros [= Heq]. apply Hr. now rewrite Heq.
Qed.

Lemma calm_try_catch {A} (m : M A) (h : JsError -> M A) :
  calm m -> (forall e, e <> EUndefined -> calm (h e)) -> calm (try_catch m h).
Proof.
  intros Hm Hh w. unfold try_catch. destruct (Hm w) as (He & Hn & Hr).
  destruct (m w) as [[a|e] w1]; simpl in *.
  - repeat split; assumption.
  - assert (Hne : e <> EUndefined) by congruence.
    destruct (Hh e Hne w1) as (He' & Hn' & Hr'). repeat split; congruence.
Qed.

Lemma calm_when b (m : M unit) : calm m -> calm (when b m).
Proof. destruct b; simpl; [auto|intros _; apply calm_ret]. Qed.

Lemma calm_if {A} (b : bool) (m1 m2 : M A) : calm m1 -> calm m2 -> calm (if b then m1 else m2).
Proof. destruct b; auto. Qed.

Lemma calm_existsSync p : calm (existsSync p).
Proof. intros w. simpl. repeat split; discriminate. Qed.

Lemma calm_readFileSync p : calm (readFileSync p).
Proof.
  intros w. unfold readFileSync.
  destruct (io_fault w (OpRead p)); [simpl; repeat split; discriminate|].
  destruct (files w !! p); simpl; repeat split; discriminate.
Qed.

Lemma calm_mkdir_from rest : forall base, calm (mkdir_from base rest).
Proof.
  induction rest as [|s rest IH]; intros base w; simpl.
  - repeat split; discriminate.
  - destruct (is_dir w (base ++ [s])); [apply IH|].
    destruct (is_file w (base ++ [s])); [simpl; repeat split; discriminate|].
    destruct (io_fault w (OpMkdir (base ++ [s]))); [simpl; repeat split; discriminate|].
    apply (IH (base ++ [s]) (set_dirs ({[base ++ [s]]} ∪ dirs w) w)).
Qed.

Lemma calm_js_gt_zero v : calm (js_gt_zero v).
Proof.
  intros w. unfold js_gt_zero.
  destruct v; simpl; repeat split; try discriminate;
    try (destruct (coerce_positive (engine w) _); discriminate).
Qed.

Lemma js_get_error v k : js_get v k <> Throw EUndefined.
Proof. destruct v; discriminate. Qed.

Lemma err_message_defined e : e <> EUndefined -> err_message e <> Throw EUndefined.
Proof. destruct e; try discriminate; congruence. Qed.

Lemma JSON_parse_error c : JSON_parse c <> Throw EUndefined.
Proof. destruct c; discriminate. Qed.

Lemma restored_font_count_error st : restored_font_count st <> Throw EUndefined.
Proof.
  unfold restored_font_count, res_bind.
  destruct (js_get st "fonts") as [f|e] eqn:Hf; [|rewrite <- Hf; apply js_get_error].
  destruct f; try discriminate;
    match goal with
    | |- context [js_get ?x ?k] =>
        destruct (js_get x k) eqn:Hl; [discriminate|rewrite <- Hl; apply js_get_error]
    end.
Qed.

Lemma calm_getFontCacheStatePath : calm getFontCacheStatePath.
Proof.
  unfold getFontCacheStatePath.
  apply calm_bind; [apply calm_existsSync|]. intros present.
  apply calm_bind; [|intros; apply calm_ret].
  apply calm_when, calm_mkdir_from.
Qed.

Lemma calm_loadFontCacheState : calm loadFontCacheState.
Proof.
  unfold loadFontCacheState.
  apply calm_bind; [apply calm_getFontCacheStatePath|]. intros stateFile.
  apply calm_bind; [apply calm_existsSync|]. intros present.
  apply calm_if; [apply calm_ret|].
  apply calm_try_catch.
  - apply calm_bind; [apply calm_readFileSync|]. intros text.
    apply calm_lift, JSON_parse_error.
  - intros e He. apply calm_bind; [apply calm_lift, err_message_defined, He|].
    intros message. apply calm_bind; [apply calm_log|]. intros; apply calm_ret.
Qed.

(** A guarded block whose handler only logs the message ends normally. *)
Lemma guarded_block_ok (body : M unit) (entry : string -> LogEntry) w :
  calm body ->
  exists w',
    try_catch body
      (fun error => let* message := lift (err_message error) in log (entry message)) w
    = (Ok tt, w')
    /\ env w' = env w /\ net_log w' = net_log w.
Proof.
  intros Hcalm. unfold try_catch. destruct (Hcalm w) as (He & Hn & Hr).
  destruct (body w) as [[[]|e] w1]; simpl in *.
  - exists w1. auto.
  - destruct e; try congruence; eexists; (split; [reflexivity|]); simpl; auto.
Qed.

(** Where the state directory of the Netlify hook exists or can be
    created and the build cache it is handed sends no request itself, both
    entry points do without [KIRBY_URL] (unset or empty) what they are
    meant to: they log that the font download is skipped and return
    normally, and neither sends a request. *)
Theorem missing_origin_skips (utils : Utils) (userOptions : Options) (w : World) :
  env_set (env w !! "KIRBY_URL") = false ->
  state_dir_available w = true ->
  utils_calm utils ->
  (exists w',
      onPreBuild utils w = (Ok tt, w')
      /\ net_log w' = net_log w
      /\ last (console w') = Some LogKirbyUrlNotSet)
  /\ (exists w',
      astro_config_setup userOptions w = (Ok tt, w')
      /\ net_log w' = net_log w
      /\ (last (console w') = Some LogKirbyUrlNotSet
          \/ last (console w') = Some LogDevelopmentSkip
          \/ last (console w') = Some LogNetlifySkip)).
Proof.
  intros Hkirby Hav [Hrestore Hsave]. split.
  - unfold onPreBuild. mstep.
    set (w0 := set_console _ w).
    assert (Hav0 : state_dir_available w0 = true) by exact Hav.
    rewrite (bind_ok _ _ _ _ _ (getFontCacheStatePath_ok w0 Hav0)).
    match goal with
    | |- context [bind (try_catch ?body ?h)] =>
        destruct (guarded_block_ok body LogRestoreFailed (with_state_dir w0))
          as (w2 & Hblock & Henv & Hnet)
    end.
    { apply calm_bind; [apply Hrestore|]. intros _.
      apply calm_bind; [apply Hrestore|]. intros _.
      apply calm_bind; [apply calm_existsSync|]. intros present.
      apply calm_if; [|apply calm_log].
      apply calm_bind; [apply calm_loadFontCacheState|]. intros state.
      apply calm_bind; [apply calm_lift, restored_font_count_error|]. intros fontCount.
      apply calm_bind; [apply calm_js_gt_zero|]. intros positive.
      apply calm_when, calm_log. }
    rewrite (bind_ok _ _ _ _ _ Hblock).
    destruct (with_state_dir_frame w0) as (_ & (Henv0 & _) & Hnet0 & _).
    assert (Hk2 : env_set (env w2 !! "KIRBY_URL") = false).
    { rewrite Henv, Henv0. exact Hkirby. }
    unfold try_catch, bind, getenv. rewrite Hk2. simpl.
    eexists. split; [reflexivity|]. simpl. split.
    + rewrite Hnet, Hnet0. reflexivity.
    + apply last_snoc.
  - unfold astro_config_setup, bind, getenv.
    destruct (bool_decide (env w !! "NODE_ENV" = Some "development")).
    { eexists. split; [reflexivity|]. simpl. split; [reflexivity|].
      right. left. apply last_snoc. }
    destruct (env_set (env w !! "NETLIFY")).
    { eexists. split; [reflexivity|]. simpl. split; [reflexivity|].
      right. right. apply last_snoc. }
    unfold try_catch, log. simpl. rewrite Hkirby. simpl.
    eexists. split; [reflexivity|]. simpl. split; [reflexivity|].
    left. apply last_snoc.
Qed.

Lemma missing_origin_skips_witness :
  (exists w',
      onPreBuild empty_cache (empty_world flaky_origin) = (Ok tt, w')
      /\ net_log w' = net_log (empty_world flaky_origin)
      /\ last (console w') = Some LogKirbyUrlNotSet)
  /\ (exists w',
      astro_config_setup noOptions (empty_world flaky_origin) = (Ok tt, w')
      /\ net_log w' = net_log (empty_world flaky_origin)
      /\ (last (console w') = Some LogKirbyUrlNotSet
          \/ last (console w') = Some LogDevelopmentSkip
          \/ last (console w') = Some LogNetlifySkip)).
Proof.
  apply missing_origin_skips.
  - reflexivity.
  - reflexivity.
  - split; intros p; apply calm_ret.
Defined.

Lemma onPreBuild_without_state_dir utils w :
  state_dir_available w = false ->
  onPreBuild utils w
  = (Throw (EFs "EACCES" astroDir), set_console (console w ++ [LogRestoring]) w).
Proof.
  intros Hav. unfold onPreBuild. mstep.
  set (w0 := set_console _ w).
  assert (Hav0 : state_dir_available w0 = false) by exact Hav.
  rewrite (bind_throw _ _ _ _ _ (getFontCacheStatePath_fails w0 Hav0)). reflexivity.
Qed.

(** C8.  The Netlify hook does not get as far as looking for [KIRBY_URL]
    when its state directory is missing and cannot be created:
    [getFontCacheStatePath] is called outside both handlers of
    [onPreBuild], and the error of [mkdirSync] ends the hook, whatever
    build cache it was handed.  The Astro hook skips the fonts in the same
    working directory. *)
Theorem missing_origin_raises_without_state_dir (utils : Utils) :
  env readonly_world !! "KIRBY_URL" = None
  /\ onPreBuild utils readonly_world
     = (Throw (EFs "EACCES" [".astro"]), set_console [LogRestoring] readonly_world)
  /\ fst (astro_config_setup noOptions readonly_world) = Ok tt
  /\ console (snd (astro_config_setup noOptions readonly_world))
     = [LogLocalBuild; LogKirbyUrlNotSet]
  /\ net_log (snd (astro_config_setup noOptions readonly_world)) = [].
Proof.
  split; [reflexivity|]. split; [now rewrite onPreBuild_without_state_dir|].
  repeat split; vm_compute; reflexivity.
Qed.

(** ** The download loop *)

Lemma writeFileSync_spec p c w :
  writeFileSync p c w
  = if write_ok w p then (Ok tt, set_files (<[p := c]> (files w)) w)
    else (Throw (EFs (if io_fault w (OpWrite p) then "EACCES"
                      else if is_dir w p then "EISDIR" else "ENOENT") p), w).
Proof.
  unfold writeFileSync, write_ok.
  destruct (io_fault w (OpWrite p)); [reflexivity|].
  destruct (is_dir w p); [reflexivity|].
  destruct (is_dir w (parent p)); reflexivity.
Qed.

Lemma attempt_result_error r : attempt_result r <> Throw EUndefined.
Proof.
  destruct r as [m| |st tx [c|]]; simpl; try discriminate;
    destruct (response_ok st); discriminate.
Qed.

Lemma attempts_outcome_error rem url n :
  forall req e0,
    e0 <> EUndefined \/ (0 < n)%nat ->
    fst (attempts_outcome rem url n req e0) <> Throw EUndefined.
Proof.
  induction n as [|n IH]; intros req e0 H; simpl.
  - destruct H as [H|H]; [congruence|lia].
  - destruct (attempt_result (rem req url)) as [c|e] eqn:Hres; [discriminate|].
    specialize (IH (S req) e).
    destruct (attempts_outcome rem url n (S req) e) as [r k]. simpl in *.
    apply IH. left. intros ->. exact (attempt_result_error _ Hres).
Qed.

Lemma fetch_outcome_error rem opts url req :
  0 <= retries_of opts ->
  fst (fetch_outcome rem opts url req) <> Throw EUndefined.
Proof.
  intros H. unfold fetch_outcome. apply attempts_outcome_error. right. lia.
Qed.

Lemma fetch_outcome_pos rem opts url req :
  0 <= retries_of opts -> (0 < snd (fetch_outcome rem opts url req))%nat.
Proof. intros H. unfold fetch_outcome. apply attempts_outcome_pos. lia. Qed.

Lemma js_to_string_same_engine w w' v :
  engine w' = engine w ->
  displayable w v = true ->
  exists s, js_to_string v w = (Ok s, w) /\ js_to_string v w' = (Ok s, w').
Proof.
  intros Heng. unfold displayable, js_to_string. rewrite Heng.
  destruct v as [| |[]| | | |]; eauto;
    intros H; apply bool_decide_eq_true in H as [s ->]; eauto.
Qed.

Lemma js_to_string_engine_eq v s w w' :
  engine w' = engine w ->
  js_to_string v w = (Ok s, w) -> js_to_string v w' = (Ok s, w').
Proof.
  intros Hg H. unfold js_to_string in *. rewrite Hg.
  injection H as H. now rewrite H.
Qed.

Lemma loop_step_refl w : loop_step w w.
Proof.
  unfold loop_step, same_setting. repeat split; try reflexivity;
    exists []; now rewrite app_nil_r.
Qed.

Lemma loop_step_trans w1 w2 w3 : loop_step w1 w2 -> loop_step w2 w3 -> loop_step w1 w3.
Proof.
  unfold loop_step, same_setting.
  intros (Hd & (?&?&?&?) & [s1 Hs1] & [p1 Hp1]) (Hd' & (?&?&?&?) & [s2 Hs2] & [p2 Hp2]).
  repeat split; try congruence.
  - exists (s1 ++ s2). rewrite Hs2, Hs1. now rewrite app_assoc.
  - exists (p1 ++ p2). rewrite Hp2, Hp1. now rewrite app_assoc.
Qed.

Lemma loop_step_write_ok w w' p : loop_step w w' -> write_ok w' p = write_ok w p.
Proof.
  intros (Hd & (_ & Hf & _) & _). unfold write_ok, is_dir. now rewrite Hd, Hf.
Qed.

Lemma loop_step_displayable w w' v : loop_step w w' -> displayable w' v = displayable w v.
Proof. intros (_ & (_ & _ & _ & Hg) & _). unfold displayable. now rewrite Hg. Qed.

Lemma download_format_spec f name url opts w :
  displayable w name = true ->
  0 <= retries_of opts ->
  exists w',
    download_format f name url opts w
    = (Ok (fst (expected_format (remote w) (write_ok w) opts url (length (net_log w)))), w')
    /\ net_log w'
       = net_log w
         ++ repeat url (snd (expected_format (remote w) (write_ok w) opts url
                               (length (net_log w))))
    /\ loop_step w w'.
Proof.
  intros Hdisp Hretries. unfold download_format, expected_format.
  destruct (negb (truthy url)) eqn:Htruthy.
  { exists w. simpl. rewrite app_nil_r. split; [reflexivity|].
    split; [reflexivity|apply loop_step_refl]. }
  destruct (js_to_string_same_engine w w name eq_refl Hdisp) as (shown & Hshown & _).
  set (w1 := set_console (console w ++ [logDownloadingFmt f shown]) w).
  destruct (downloadFont_spec url opts w1 Hretries)
    as (w2 & Hrun & Hlog & _ & (He & Hf & Hr & Hg) & Hd & Hfi & Hc).
  change (remote w1) with (remote w) in *.
  change (net_log w1) with (net_log w) in *.
  assert (Hstep2 : loop_step w w2).
  { unfold loop_step, same_setting. repeat split; try assumption.
    - eexists. exact Hlog.
    - exists [logDownloadingFmt f shown]. exact Hc. }
  assert (Hdisp2 : displayable w2 name = true)
    by (now rewrite (loop_step_displayable _ _ _ Hstep2)).
  destruct (js_to_string_same_engine w2 w2 name eq_refl Hdisp2) as (shown2 & Hshown2 & _).
  (* the handler: it logs the failure and yields no path *)
  assert (Hhandler : forall e w3,
             e <> EUndefined -> loop_step w w3 -> net_log w3 = net_log w2 ->
             exists w',
               (let* name0 := js_to_string name in
                let* message := lift (err_message e) in
                let* _ := log (logFailedFmt f name0 message) in
                ret None) w3 = (Ok (@None string), w')
               /\ net_log w' = net_log w2 /\ loop_step w w').
  { intros e w3 He3 Hstep3 Hnet3.
    assert (Hdisp3 : displayable w3 name = true)
      by (now rewrite (loop_step_displayable _ _ _ Hstep3)).
    destruct (js_to_string_same_engine w3 w3 name eq_refl Hdisp3) as (s3 & Hs3 & _).
    rewrite (bind_ok _ _ _ _ _ Hs3).
    destruct (err_message e) as [m|e'] eqn:Hm;
      [|exfalso; destruct e; try discriminate; congruence].
    mstep. mstep. eexists. split; [reflexivity|]. simpl. split; [exact Hnet3|].
    apply (loop_step_trans _ _ _ Hstep3).
    unfold loop_step, same_setting. simpl. repeat split; try reflexivity.
    - exists []. now rewrite app_nil_r.
    - eexists. reflexivity. }
  unfold try_catch.
  rewrite (bind_ok _ _ _ _ _ Hshown). mstep. fold w1.
  destruct (fst (fetch_outcome (remote w) opts url (length (net_log w)))) as [c|e] eqn:Hres.
  - rewrite (bind_ok _ _ _ _ _ Hrun).
    destruct url as [| |b|z|s|l|o];
      try (erewrite bind_throw by reflexivity; cbv beta iota;
           destruct (Hhandler (ETypeError "The path argument must be of type string") w2
                       ltac:(discriminate) Hstep2 eq_refl) as (w' & Hh & Hn & Hs);
           rewrite Hh; exists w'; split; [reflexivity|]; split; [rewrite Hn; exact Hlog|exact Hs]).
    simpl basename. mstep.
    unfold bind at 1. rewrite writeFileSync_spec.
    rewrite (loop_step_write_ok _ _ _ Hstep2).
    destruct (write_ok w (path_join fontsDir (basename_str s))) eqn:Hw.
    + mstep. eexists. split; [reflexivity|]. simpl. split; [exact Hlog|].
      apply (loop_step_trans _ _ _ Hstep2).
      unfold loop_step, same_setting. simpl. repeat split; try reflexivity.
      * exists []. now rewrite app_nil_r.
      * eexists. reflexivity.
    + match goal with
      | |- context [err_message ?e] =>
          destruct (Hhandler e w2 ltac:(discriminate) Hstep2 eq_refl)
            as (w' & Hh & Hn & Hs)
      end.
      rewrite Hh. exists w'. split; [reflexivity|]. split; [rewrite Hn; exact Hlog|exact Hs].
  - rewrite (bind_throw _ _ _ _ _ Hrun).
    assert (Hne : e <> EUndefined).
    { intros ->. exact (fetch_outcome_error _ _ _ _ Hretries Hres). }
    destruct (Hhandler e w2 Hne Hstep2 eq_refl) as (w' & Hh & Hn & Hs).
    rewrite Hh. exists w'. split; [reflexivity|]. split; [rewrite Hn; exact Hlog|exact Hs].
Qed.

Lemma loop_step_write_ok_fun w w' : loop_step w w' -> write_ok w' = write_ok w.
Proof.
  intros (Hd & (_ & Hf & _) & _). unfold write_ok, is_dir. now rewrite Hd, Hf.
Qed.

Lemma loop_step_remote w w' : loop_step w w' -> remote w' = remote w.
Proof. now intros (_ & (_ & _ & Hr & _) & _). Qed.

Lemma loop_step_font_ok w w' font : loop_step w w' -> font_ok w' font = font_ok w font.
Proof.
  intros Hstep. unfold font_ok.
  destruct (js_get font "name"); [|reflexivity].
  destruct (js_get font "url1"); [|reflexivity].
  destruct (js_get font "url2"); [|reflexivity].
  apply (loop_step_displayable _ _ _ Hstep).
Qed.

Lemma loop_step_net_log w w' u : loop_step w w' -> u ∈ net_log w -> u ∈ net_log w'.
Proof.
  intros (_ & _ & [sent ->] & _) Hin. apply elem_of_app. now left.
Qed.

Lemma loop_step_console w w' e : loop_step w w' -> e ∈ console w -> e ∈ console w'.
Proof.
  intros (_ & _ & _ & [printed ->]) Hin. apply elem_of_app. now left.
Qed.

Lemma expected_format_requested rem wok opts url req :
  0 <= retries_of opts -> truthy url = true ->
  (0 < snd (expected_format rem wok opts url req))%nat.
Proof.
  intros Hr Ht. unfold expected_format. rewrite Ht. simpl.
  now apply fetch_outcome_pos.
Qed.

Lemma elem_of_repeat_pos {A} (x : A) n : (0 < n)%nat -> x ∈ repeat x n.
Proof. destruct n; [lia|]. intros _. simpl. apply elem_of_cons. now left. Qed.

(** One font of the loop, against what is expected of it. *)
Lemma process_font_spec opts fonts i font w :
  font_ok w font = true ->
  0 <= retries_of opts ->
  exists w',
    process_font opts fonts i font w
    = (Ok (fst (expected_font (remote w) (write_ok w) opts font (length (net_log w)))), w')
    /\ length (net_log w')
       = (length (net_log w)
          + snd (expected_font (remote w) (write_ok w) opts font (length (net_log w))))%nat
    /\ loop_step w w'
    /\ (fst (expected_font (remote w) (write_ok w) opts font (length (net_log w))) = None ->
        exists name shown,
          js_get font "name" = Ok name
          /\ js_to_string name w = (Ok shown, w)
          /\ LogSkipping shown ∈ console w')
    /\ (forall u, js_get font "url1" = Ok u \/ js_get font "url2" = Ok u ->
                  truthy u = true -> u ∈ net_log w').
Proof.
  intros Hok Hretries. unfold font_ok in Hok. unfold process_font, expected_font.
  destruct (js_get font "name") as [name|] eqn:Hname; [|discriminate].
  destruct (js_get font "url1") as [url1|] eqn:Hurl1; [|discriminate].
  destruct (js_get font "url2") as [url2|] eqn:Hurl2; [|discriminate].
  mstep. mstep.
  destruct (download_format_spec Woff name url1 opts w Hok Hretries)
    as (w1 & Hrun1 & Hlog1 & Hstep1).
  rewrite (bind_ok _ _ _ _ _ Hrun1). mstep.
  assert (Hok1 : displayable w1 name = true)
    by (now rewrite (loop_step_displayable _ _ _ Hstep1)).
  destruct (download_format_spec Woff2 name url2 opts w1 Hok1 Hretries)
    as (w2 & Hrun2 & Hlog2 & Hstep2).
  rewrite (loop_step_remote _ _ Hstep1), (loop_step_write_ok_fun _ _ Hstep1)
    in Hrun2, Hlog2.
  assert (Hlen1 : length (net_log w1)
                  = (length (net_log w)
                     + snd (expected_format (remote w) (write_ok w) opts url1
                              (length (net_log w))))%nat).
  { rewrite Hlog1, length_app, repeat_length. reflexivity. }
  rewrite Hlen1 in Hrun2, Hlog2.
  rewrite (bind_ok _ _ _ _ _ Hrun2).
  set (woff := expected_format (remote w) (write_ok w) opts url1 (length (net_log w))) in *.
  set (woff2 := expected_format (remote w) (write_ok w) opts url2
                  (length (net_log w) + snd woff)) in *.
  assert (Hstep12 : loop_step w w2) by exact (loop_step_trans _ _ _ Hstep1 Hstep2).
  assert (Hlen2 : length (net_log w2) = (length (net_log w) + (snd woff + snd woff2))%nat).
  { rewrite Hlog2, length_app, repeat_length, Hlen1. lia. }
  assert (Hurls : forall u, Ok url1 = Ok u \/ Ok url2 = Ok u -> truthy u = true ->
                            u ∈ net_log w2).
  { intros u [[= <-]|[= <-]] Ht.
    - apply (loop_step_net_log _ _ _ Hstep2). rewrite Hlog1.
      apply elem_of_app. right.
      apply elem_of_repeat_pos, expected_format_requested; assumption.
    - rewrite Hlog2. apply elem_of_app. right.
      apply elem_of_repeat_pos, expected_format_requested; assumption. }
  (* the delay after the font leaves all of this as it is *)
  assert (Hdelay : forall (b : bool) w3,
             exists w', when b (sleep 100) w3 = (Ok tt, w')
                        /\ net_log w' = net_log w3 /\ loop_step w3 w'
                        /\ console w' = console w3).
  { intros b w3. destruct b; simpl.
    - eexists. split; [reflexivity|]. simpl. split; [reflexivity|]. split; [|reflexivity].
      unfold loop_step, same_setting. simpl. repeat split; try reflexivity;
        exists []; now rewrite app_nil_r.
    - exists w3. split; [reflexivity|]. split; [reflexivity|].
      split; [apply loop_step_refl|reflexivity]. }
  destruct (bool_decide (is_Some (fst woff)) || bool_decide (is_Some (fst woff2))) eqn:Hany.
  - mstep.
    destruct (Hdelay (js_indexOf fonts i font <? Z.of_nat (length fonts) - 1) w2)
      as (w' & Hsl & Hn & Hs & _).
    rewrite (bind_ok _ _ _ _ _ Hsl). exists w'.
    split; [reflexivity|]. simpl. split; [now rewrite Hn|].
    split; [exact (loop_step_trans _ _ _ Hstep12 Hs)|].
    split; [discriminate|].
    intros u Hu Ht. rewrite Hn. now apply Hurls.
  - destruct (js_to_string_same_engine w w2 name) as (shown & Hshown & Hshown2).
    { now destruct Hstep12 as (_ & (_ & _ & _ & Hg) & _). }
    { exact Hok. }
    set (w3 := set_console (console w2 ++ [LogSkipping shown]) w2).
    assert (Hentry : (let* name0 := js_to_string name in
                      let* _ := log (LogSkipping name0) in ret (@None jsval)) w2
                     = (Ok None, w3)).
    { rewrite (bind_ok _ _ _ _ _ Hshown2). reflexivity. }
    rewrite (bind_ok _ _ _ _ _ Hentry).
    destruct (Hdelay (js_indexOf fonts i font <? Z.of_nat (length fonts) - 1) w3)
      as (w' & Hsl & Hn & Hs & Hcon).
    rewrite (bind_ok _ _ _ _ _ Hsl). exists w'.
    assert (Hstep3 : loop_step w2 w3).
    { unfold loop_step, same_setting. simpl. repeat split; try reflexivity.
      - exists []. now rewrite app_nil_r.
      - eexists. reflexivity. }
    split; [reflexivity|]. simpl. split; [rewrite Hn; exact Hlen2|].
    split; [exact (loop_step_trans _ _ _ Hstep12 (loop_step_trans _ _ _ Hstep3 Hs))|].
    split.
    + intros _. exists name, shown. split; [reflexivity|]. split; [exact Hshown|].
      rewrite Hcon. simpl. apply elem_of_app. right. apply list_elem_of_singleton.
      reflexivity.
    + intros u Hu Ht. rewrite Hn. now apply Hurls.
Qed.

(** The whole loop: one outcome per font, whatever the fonts before it
    came to. *)
Lemma download_loop_spec opts fonts rest :
  forall i fontData successCount skipCount w,
    forallb (font_ok w) rest = true ->
    0 <= retries_of opts ->
    exists w' successCount' skipCount',
      download_loop opts fonts rest i fontData successCount skipCount w
      = (Ok (fontData
             ++ entries_of (expected_outcomes (remote w) (write_ok w) opts rest
                              (length (net_log w))),
             successCount', skipCount'), w')
      /\ loop_step w w'
      /\ (forall j X,
            rest !! j = Some X ->
            expected_outcomes (remote w) (write_ok w) opts rest (length (net_log w)) !! j
            = Some None ->
            exists name shown,
              js_get X "name" = Ok name
              /\ js_to_string name w = (Ok shown, w)
              /\ LogSkipping shown ∈ console w')
      /\ (forall X u,
            X ∈ rest ->
            js_get X "url1" = Ok u \/ js_get X "url2" = Ok u ->
            truthy u = true -> u ∈ net_log w').
Proof.
  induction rest as [|font rest IH]; intros i fontData sc skc w Hall Hretries.
  - exists w, sc, skc. simpl. rewrite app_nil_r.
    split; [reflexivity|]. split; [apply loop_step_refl|].
    split; [intros j X H; discriminate H|].
    intros X u HX. inversion HX.
  - simpl in Hall. apply andb_true_iff in Hall as [Hfont Hrest].
    destruct (process_font_spec opts fonts i font w Hfont Hretries)
      as (w1 & Hrun & Hlen & Hstep & Hskip & Hurls).
    cbn [download_loop expected_outcomes].
    rewrite (bind_ok _ _ _ _ _ Hrun).
    set (out := expected_font (remote w) (write_ok w) opts font (length (net_log w))) in *.
    assert (Hrest1 : forallb (font_ok w1) rest = true).
    { rewrite forallb_forall in *. intros x Hx.
      rewrite (loop_step_font_ok _ _ _ Hstep). now apply Hrest. }
    assert (Hshown1 : forall name shown,
               js_to_string name w1 = (Ok shown, w1) -> js_to_string name w = (Ok shown, w)).
    { intros name shown. apply js_to_string_engine_eq.
      now destruct Hstep as (_ & (_ & _ & _ & ->) & _). }
    destruct (fst out) as [e|] eqn:Hout.
    + destruct (IH (S i) (fontData ++ [e]) (sc + 1) skc w1 Hrest1 Hretries)
        as (w' & sc' & skc' & Hloop & Hstep' & Hskip' & Hurls').
      rewrite (loop_step_remote _ _ Hstep), (loop_step_write_ok_fun _ _ Hstep), Hlen
        in Hloop, Hskip'.
      exists w', sc', skc'. split.
      { rewrite Hloop. unfold entries_of. simpl. now rewrite <- app_assoc. }
      split; [exact (loop_step_trans _ _ _ Hstep Hstep')|]. split.
      * intros [|j] X HX Hj; simpl in HX, Hj; [discriminate Hj|].
        destruct (Hskip' j X HX Hj) as (name & shown & Hn & Hs & Hin).
        exists name, shown. auto.
      * intros X u HX Hu Ht. apply elem_of_cons in HX as [->|HX].
        -- apply (loop_step_net_log _ _ _ Hstep'). now apply Hurls.
        -- now apply (Hurls' X u).
    + destruct (IH (S i) fontData sc (skc + 1) w1 Hrest1 Hretries)
        as (w' & sc' & skc' & Hloop & Hstep' & Hskip' & Hurls').
      rewrite (loop_step_remote _ _ Hstep), (loop_step_write_ok_fun _ _ Hstep), Hlen
        in Hloop, Hskip'.
      exists w', sc', skc'. split.
      { rewrite Hloop. reflexivity. }
      split; [exact (loop_step_trans _ _ _ Hstep Hstep')|]. split.
      * intros [|j] X HX Hj; simpl in HX, Hj.
        -- injection HX as <-.
           destruct (Hskip eq_refl) as (name & shown & Hn & Hs & Hin).
           exists name, shown. split; [exact Hn|]. split; [exact Hs|].
           now apply (loop_step_console _ _ _ Hstep').
        -- destruct (Hskip' j X HX Hj) as (name & shown & Hn & Hs & Hin).
           exists name, shown. auto.
      * intros X u HX Hu Ht. apply elem_of_cons in HX as [->|HX].
        -- apply (loop_step_net_log _ _ _ Hstep'). now apply Hurls.
        -- now apply (Hurls' X u).
Qed.

(** ** The download branch *)

Lemma fs_same_refl w : fs_same w w.
Proof. unfold fs_same, same_setting. tauto. Qed.

Lemma fs_same_trans w1 w2 w3 : fs_same w1 w2 -> fs_same w2 w3 -> fs_same w1 w3.
Proof.
  unfold fs_same, same_setting.
  intros (?&?&(?&?&?&?)&?&?) (?&?&(?&?&?&?)&?&?). repeat split; congruence.
Qed.

Lemma loadFontCacheState_result w :
  state_dir_available w = true ->
  exists w',
    loadFontCacheState w = (Ok (cached_state_of w), w')
    /\ fs_same (with_state_dir w) w'.
Proof.
  intros Hav. unfold loadFontCacheState, cached_state_of.
  rewrite (bind_ok _ _ _ _ _ (getFontCacheStatePath_ok w Hav)).
  destruct (with_state_dir_frame w) as (Hfiles & (_ & Hfault & _) & _).
  set (w1 := with_state_dir w) in *.
  unfold bind at 1, existsSync.
  destruct (is_file w1 stateFile) eqn:Hfile.
  - rewrite orb_true_r. simpl.
    unfold try_catch, bind at 1, readFileSync. rewrite Hfault, Hfiles.
    destruct (io_fault w (OpRead stateFile)).
    { simpl. eexists. split; [reflexivity|]. unfold fs_same, same_setting. simpl. tauto. }
    destruct (files w !! stateFile) as [[v|raw]|] eqn:Hlk; simpl.
    + exists w1. split; [reflexivity|apply fs_same_refl].
    + eexists. split; [reflexivity|]. unfold fs_same, same_setting. simpl. tauto.
    + eexists. split; [reflexivity|]. unfold fs_same, same_setting. simpl. tauto.
  - unfold is_file in Hfile. rewrite Hfiles in Hfile.
    apply bool_decide_eq_false in Hfile.
    assert (Hnone : files w !! stateFile = None).
    { destruct (files w !! stateFile) eqn:E; [exfalso; apply Hfile; eauto|reflexivity]. }
    rewrite Hnone.
    assert (Hfresh : (if io_fault w (OpRead stateFile) then freshState else freshState)
                     = freshState) by (destruct (io_fault w _); reflexivity).
    rewrite Hfresh.
    destruct (is_dir w1 stateFile) eqn:Hdir; simpl.
    + unfold try_catch, bind at 1, readFileSync. rewrite Hfault, Hfiles, Hnone.
      destruct (io_fault w (OpRead stateFile)); simpl;
        eexists; (split; [reflexivity|]); unfold fs_same, same_setting; simpl; tauto.
    + exists w1. split; [reflexivity|apply fs_same_refl].
Qed.

Lemma unlinkSync_rel p wa wb :
  dirs wb = dirs wa -> files wb = files wa -> io_fault wb = io_fault wa ->
  fst (unlinkSync p wb) = fst (unlinkSync p wa)
  /\ dirs (snd (unlinkSync p wa)) = dirs wa
  /\ io_fault (snd (unlinkSync p wa)) = io_fault wa
  /\ files (snd (unlinkSync p wb)) = files (snd (unlinkSync p wa))
  /\ dirs (snd (unlinkSync p wb)) = dirs wb
  /\ same_setting wb (snd (unlinkSync p wb))
  /\ net_log (snd (unlinkSync p wb)) = net_log wb
  /\ sleeps (snd (unlinkSync p wb)) = sleeps wb
  /\ console (snd (unlinkSync p wb)) = console wb.
Proof.
  intros Hd Hf Hio. unfold unlinkSync, is_file, is_dir, same_setting.
  rewrite Hd, Hf, Hio.
  destruct (io_fault wa (OpUnlink p)); [simpl; tauto|].
  destruct (bool_decide (is_Some (files wa !! p))); simpl; tauto.
Qed.

(** Two worlds with the same file system agree on what cleaning does. *)
Lemma clean_fonts_rel names :
  forall wa wb,
    dirs wb = dirs wa -> files wb = files wa -> io_fault wb = io_fault wa ->
    fst (clean_fonts names wb) = fst (clean_fonts names wa)
    /\ dirs (snd (clean_fonts names wb)) = dirs wb
    /\ same_setting wb (snd (clean_fonts names wb))
    /\ net_log (snd (clean_fonts names wb)) = net_log wb
    /\ sleeps (snd (clean_fonts names wb)) = sleeps wb
    /\ console (snd (clean_fonts names wb)) = console wb.
Proof.
  induction names as [|file names IH]; intros wa wb Hd Hf Hio.
  - simpl. unfold same_setting. tauto.
  - cbn [clean_fonts]. unfold bind.
    destruct (negb (String.eqb file "fonts.json")); cbn [when].
    + destruct (unlinkSync_rel (path_join fontsDir file) wa wb Hd Hf Hio)
        as (Hr & Hda & Hioa & Hfb & Hdb & (He & Hio' & Hrm & Hg) & Hn & Hs & Hc).
      destruct (unlinkSync (path_join fontsDir file) wb) as [rb wb1].
      destruct (unlinkSync (path_join fontsDir file) wa) as [ra wa1].
      simpl in *. subst rb. destruct ra as [[]|e].
      * destruct (IH wa1 wb1) as (H1 & H2 & (H3 & H4 & H5 & H6) & H7 & H8 & H9);
          [congruence|congruence|congruence|].
        unfold same_setting. repeat split; congruence.
      * simpl. unfold same_setting. repeat split; congruence.
    + apply IH; assumption.
Qed.

Lemma cleaning_rel wa wb :
  dirs wb = dirs wa -> files wb = files wa -> io_fault wb = io_fault wa ->
  cleaning_succeeds wa = true ->
  is_dir wa fontsDir = true ->
  exists wb',
    (let* names := readdirSync fontsDir in clean_fonts names) wb = (Ok tt, wb')
    /\ dirs wb' = dirs wb /\ same_setting wb wb'
    /\ net_log wb' = net_log wb /\ sleeps wb' = sleeps wb
    /\ console wb' = console wb.
Proof.
  intros Hd Hf Hio Hclean Hdir. unfold cleaning_succeeds in Hclean.
  unfold bind, readdirSync in *. unfold is_dir in *. rewrite Hd, Hf, Hio.
  destruct (io_fault wa (OpReaddir fontsDir)); [discriminate|].
  rewrite Hdir in *. simpl negb in *. cbv iota in *.
  set (names := omap (child_name fontsDir) (elements (dom (files wa) ∪ dirs wa))) in *.
  destruct (clean_fonts_rel names wa wb Hd Hf Hio) as (Hr & H).
  destruct (clean_fonts names wb) as [rb wb'] eqn:Hb.
  destruct (clean_fonts names wa) as [ra wa'] eqn:Ha.
  simpl in *. subst rb. destruct ra as [[]|e]; [|discriminate].
  exists wb'. split; [reflexivity|]. rewrite <- Hd. exact H.
Qed.

Lemma recorded_file_exists_rel v wa wb :
  dirs wb = dirs wa -> files wb = files wa ->
  recorded_file_exists v wb = (fst (recorded_file_exists v wa), wb).
Proof.
  intros Hd Hf. unfold recorded_file_exists.
  destruct (negb (truthy v)); [reflexivity|].
  unfold bind, lift. destruct (basename v); [|reflexivity].
  unfold existsSync, is_dir, is_file. now rewrite Hd, Hf.
Qed.

Lemma cached_font_exists_rel font wa wb :
  dirs wb = dirs wa -> files wb = files wa ->
  cached_font_exists font wb = (fst (cached_font_exists font wa), wb).
Proof.
  intros Hd Hf. unfold cached_font_exists, bind, lift.
  destruct (js_get font "woff") as [woff|]; [|reflexivity].
  rewrite (recorded_file_exists_rel woff wa wb Hd Hf).
  rewrite (recorded_file_exists_rel woff wa wa eq_refl eq_refl).
  destruct (fst (recorded_file_exists woff wa)); [|reflexivity].
  destruct (js_get font "woff2") as [woff2|]; [|reflexivity].
  rewrite (recorded_file_exists_rel woff2 wa wb Hd Hf).
  rewrite (recorded_file_exists_rel woff2 wa wa eq_refl eq_refl).
  destruct (fst (recorded_file_exists woff2 wa)); reflexivity.
Qed.

Lemma every_cached_rel l wa wb :
  dirs wb = dirs wa -> files wb = files wa ->
  every cached_font_exists l wb = (fst (every cached_font_exists l wa), wb).
Proof.
  intros Hd Hf. induction l as [|font l IH]; [reflexivity|].
  cbn [every]. unfold bind.
  rewrite (cached_font_exists_rel font wa wb Hd Hf).
  rewrite (cached_font_exists_rel font wa wa eq_refl eq_refl).
  destruct (fst (cached_font_exists font wa)) as [[|]|]; [exact IH|reflexivity|reflexivity].
Qed.

(** Where the cache-hit branch gives up, it does so whatever the console
    holds, and it leaves the file system as it was. *)
Lemma use_cache_miss_rel st wa wb :
  dirs wb = dirs wa -> files wb = files wa -> engine wb = engine wa ->
  fst (use_cache st wa) = Ok None ->
  exists wb', use_cache st wb = (Ok None, wb') /\ fs_same wb wb'.
Proof.
  intros Hd Hf Hg. unfold use_cache, bind, lift, js_gt_zero, js_to_string, log.
  destruct (js_get st "fonts") as [cf|]; [|discriminate].
  destruct (js_get cf "length") as [len|]; [|discriminate].
  destruct (js_get st "lastSync") as [lastSync|];
    cbn [engine set_console]; rewrite !Hg.
  - destruct (match len with
              | JNum z => Ok (0 <? z)
              | JBool b => Ok b
              | JStr _ | JArr _ | JObj _ =>
                  match coerce_positive (engine wa) len with
                  | Some b => Ok b
                  | None => Throw not_primitive
                  end
              | _ => Ok false
              end) as [[|]|]; cbn [negb fst snd]; [| |discriminate].
    2:{ intros _. exists wb. split; [reflexivity|apply fs_same_refl]. }
    cbn [engine set_console]; rewrite ?Hg.
    destruct (match len with
              | JUndef => Ok "undefined"
              | JNull => Ok "null"
              | JBool true => Ok "true"
              | JBool false => Ok "false"
              | JNum z => Ok (NilZero.string_of_int (Z.to_int z))
              | JStr s => Ok s
              | JArr _ | JObj _ =>
                  match coerce_string (engine wa) len with
                  | Some s => Ok s
                  | None => Throw not_primitive
                  end
              end) as [count|]; [|discriminate].
    cbn [engine set_console]; rewrite ?Hg.
    destruct (match lastSync with
              | JUndef => Ok "undefined"
              | JNull => Ok "null"
              | JBool true => Ok "true"
              | JBool false => Ok "false"
              | JNum z => Ok (NilZero.string_of_int (Z.to_int z))
              | JStr s => Ok s
              | JArr _ | JObj _ =>
                  match coerce_string (engine wa) lastSync with
                  | Some s => Ok s
                  | None => Throw not_primitive
                  end
              end) as [shown|]; [|discriminate].
    cbn [engine set_console]; rewrite ?Hg.
    destruct (js_array cf "cacheState.fonts.every") as [l|]; [|discriminate].
    intros Hmiss.
    erewrite (every_cached_rel l wa) in Hmiss by reflexivity.
    erewrite (every_cached_rel l wa) by (simpl; assumption).
    destruct (fst (every cached_font_exists l wa)) as [[|]|]; [| |discriminate].
    + exfalso. revert Hmiss. unfold JSON_document, writeFileSync. cbn [json_norm].
      repeat match goal with
             | |- context [if ?c then _ else _] => destruct c
             end; discriminate.
    + eexists. split; [reflexivity|].
      unfold fs_same, same_setting. simpl. tauto.
  - destruct (match len with
              | JNum z => Ok (0 <? z)
              | JBool b => Ok b
              | JStr _ | JArr _ | JObj _ =>
                  match coerce_positive (engine wa) len with
                  | Some b => Ok b
                  | None => Throw not_primitive
                  end
              | _ => Ok false
              end) as [[|]|]; cbn [negb fst snd]; [| |discriminate].
    2:{ intros _. exists wb. split; [reflexivity|apply fs_same_refl]. }
    cbn [engine set_console]; rewrite ?Hg.
    destruct (match len with
              | JUndef => Ok "undefined"
              | JNull => Ok "null"
              | JBool true => Ok "true"
              | JBool false => Ok "false"
              | JNum z => Ok (NilZero.string_of_int (Z.to_int z))
              | JStr s => Ok s
              | JArr _ | JObj _ =>
                  match coerce_string (engine wa) len with
                  | Some s => Ok s
                  | None => Throw not_primitive
                  end
              end) as [count|]; discriminate.
Qed.

Lemma cleaning_rel_k wa wb :
  dirs wb = dirs wa -> files wb = files wa -> io_fault wb = io_fault wa ->
  cleaning_succeeds wa = true ->
  is_dir wa fontsDir = true ->
  exists wb',
    (forall B (k : M B),
        (let* names := readdirSync fontsDir in
         let* _ := clean_fonts names in
         k) wb = k wb')
    /\ dirs wb' = dirs wb /\ same_setting wb wb'
    /\ net_log wb' = net_log wb /\ sleeps wb' = sleeps wb
    /\ console wb' = console wb.
Proof.
  intros Hd Hf Hio Hclean Hdir.
  destruct (cleaning_rel wa wb Hd Hf Hio Hclean Hdir) as (wb' & Hrun & Hframe).
  exists wb'. split; [|exact Hframe].
  intros B k. unfold bind in *.
  destruct (readdirSync fontsDir wb) as [[names|e] w1]; [|discriminate].
  destruct (clean_fonts names w1) as [[[]|e] w2]; [|discriminate].
  now inversion Hrun.
Qed.

Lemma saveFontCacheState_written o w :
  is_dir w astroDir = true ->
  write_ok w stateFile = true ->
  saveFontCacheState (JObj o) w
  = (Ok tt, set_files (<[stateFile := CJson (json_norm (JObj o))]> (files w)) w).
Proof.
  intros Hdir Hw. unfold saveFontCacheState.
  assert (Hav : state_dir_available w = true).
  { unfold state_dir_available. now rewrite Hdir. }
  rewrite (bind_ok _ _ _ _ _ (getFontCacheStatePath_ok w Hav)).
  unfold with_state_dir. rewrite Hdir. simpl orb. cbv iota.
  unfold try_catch, bind, lift, JSON_document.
  rewrite writeFileSync_spec, Hw. reflexivity.
Qed.

Lemma font_ok_engine w w' font : engine w' = engine w -> font_ok w' font = font_ok w font.
Proof.
  intros Hg. unfold font_ok, displayable. now rewrite Hg.
Qed.

Lemma write_ok_fs w w' : dirs w' = dirs w -> io_fault w' = io_fault w -> write_ok w' = write_ok w.
Proof. intros Hd Hf. unfold write_ok, is_dir. now rewrite Hd, Hf. Qed.

Lemma expected_outcomes_length rem wok opts fonts :
  forall req, length (expected_outcomes rem wok opts fonts req) = length fonts.
Proof. induction fonts as [|f fonts IH]; intros req; simpl; [reflexivity|now rewrite IH]. Qed.

Lemma expected_outcomes_lookup rem wok opts fonts :
  forall req i X,
    fonts !! i = Some X ->
    exists req',
      expected_outcomes rem wok opts fonts req !! i
      = Some (fst (expected_font rem wok opts X req')).
Proof.
  induction fonts as [|f fonts IH]; intros req i X Hi; [discriminate Hi|].
  destruct i as [|i]; simpl in *.
  - injection Hi as <-. eauto.
  - eapply IH. exact Hi.
Qed.

Lemma attempts_outcome_never rem url n :
  forall req e0,
    (forall k, exists e, attempt_result (rem k url) = Throw e) ->
    exists e, fst (attempts_outcome rem url n req e0) = Throw e.
Proof.
  induction n as [|n IH]; intros req e0 Hall; simpl; [eauto|].
  destruct (Hall req) as [e He]. rewrite He.
  destruct (IH (S req) e Hall) as [e' He'].
  destruct (attempts_outcome rem url n (S req) e). simpl in *. eauto.
Qed.

Lemma expected_format_never rem wok opts url req :
  (truthy url = true -> forall k, exists e, attempt_result (rem k url) = Throw e) ->
  fst (expected_format rem wok opts url req) = None.
Proof.
  intros Hall. unfold expected_format.
  destruct (truthy url); [|reflexivity]. simpl.
  destruct (attempts_outcome_never rem url (Z.to_nat (retries_of opts + 1)) req EUndefined
              (Hall eq_refl)) as [e He].
  unfold fetch_outcome. now rewrite He.
Qed.

(** A font whose URLs the origin never serves gets no entry, wherever it
    stands in the list. *)
Lemma expected_font_never rem wok opts X req :
  (forall u, js_get X "url1" = Ok u \/ js_get X "url2" = Ok u ->
             truthy u = true -> forall k, exists e, attempt_result (rem k u) = Throw e) ->
  fst (expected_font rem wok opts X req) = None.
Proof.
  intros Hall. unfold expected_font.
  destruct (js_get X "name"); [|reflexivity].
  destruct (js_get X "url1") as [url1|]; [|reflexivity].
  destruct (js_get X "url2") as [url2|]; [|reflexivity].
  cbn [fst]. rewrite !expected_format_never; [reflexivity| |]; intros Ht; apply Hall; auto.
Qed.

(** The download branch, run in a world [w3] that has the file system of
    the prepared world [P]. *)
Lemma download_all_spec fonts opts changed P w3 h :
  fs_same P w3 ->
  is_dir P fontsDir = true ->
  is_dir P astroDir = true ->
  cleaning_succeeds P = true ->
  write_ok P fontsJson = true ->
  write_ok P stateFile = true ->
  forallb (font_ok P) fonts = true ->
  0 <= retries_of opts ->
  generateFontConfigHash (JArr fonts) = Ok h ->
  exists w' lastSync,
    download_all (JArr fonts) opts changed w3
    = (Ok (JArr (entries_of (expected_outcomes (remote P) (write_ok P) opts fonts
                               (length (net_log P))))), w')
    /\ files w' !! fontsJson
       = Some (CJson (json_norm
                        (JObj [("fonts",
                                JArr (entries_of
                                        (expected_outcomes (remote P) (write_ok P) opts fonts
                                           (length (net_log P)))))])))
    /\ files w' !! stateFile
       = Some (CJson (json_norm
                        (JObj [("lastSync", JStr lastSync); ("configHash", JStr h);
                               ("fonts",
                                JArr (entries_of
                                        (expected_outcomes (remote P) (write_ok P) opts fonts
                                           (length (net_log P)))));
                               ("version", JStr "1.0.0")])))
    /\ (forall j X,
          fonts !! j = Some X ->
          expected_outcomes (remote P) (write_ok P) opts fonts (length (net_log P)) !! j
          = Some None ->
          exists name shown,
            js_get X "name" = Ok name
            /\ js_to_string name P = (Ok shown, P)
            /\ LogSkipping shown ∈ console w')
    /\ (forall X u,
          X ∈ fonts ->
          js_get X "url1" = Ok u \/ js_get X "url2" = Ok u ->
          truthy u = true -> u ∈ net_log w').
Proof.
  intros (Hd3 & Hf3 & (He3 & Hio3 & Hr3 & Hg3) & Hn3 & Hs3)
         Hfd Had Hclean Hwj Hws Hfonts Hretries Hh.
  unfold download_all. mstep.
  set (w3a := set_console _ w3).
  destruct (cleaning_rel_k P w3a) as (w4 & Hrun4 & Hd4 & (He4 & Hio4 & Hr4 & Hg4) & Hn4 & Hs4 & Hc4);
    try assumption.
  rewrite Hrun4. clear Hrun4. mstep. set (w5 := set_console _ w4).
  simpl js_array. mstep.
  assert (Hd5 : dirs w5 = dirs P) by (simpl; rewrite Hd4; exact Hd3).
  assert (Hio5 : io_fault w5 = io_fault P) by (simpl; rewrite Hio4; exact Hio3).
  assert (Hr5 : remote w5 = remote P) by (simpl; rewrite Hr4; exact Hr3).
  assert (Hg5 : engine w5 = engine P) by (simpl; rewrite Hg4; exact Hg3).
  assert (Hn5 : net_log w5 = net_log P) by (simpl; rewrite Hn4; exact Hn3).
  assert (Hfonts5 : forallb (font_ok w5) fonts = true).
  { rewrite forallb_forall in *. intros x Hx.
    rewrite (font_ok_engine P w5 x Hg5). now apply Hfonts. }
  destruct (download_loop_spec opts fonts fonts 0%nat [] 0 0 w5 Hfonts5 Hretries)
    as (w6 & sc & skc & Hloop & Hstep & Hskip & Hurls).
  rewrite Hr5, (write_ok_fs P w5 Hd5 Hio5), Hn5 in Hloop, Hskip.
  set (outs := expected_outcomes (remote P) (write_ok P) opts fonts (length (net_log P))) in *.
  rewrite (bind_ok _ _ _ _ _ Hloop). cbn [app]. cbv beta iota.
  mstep.
  unfold bind at 1. rewrite writeFileSync_spec.
  rewrite (loop_step_write_ok _ _ _ Hstep), (write_ok_fs P w5 Hd5 Hio5), Hwj.
  set (w7 := set_files _ w6).
  mstep. rewrite Hh. mstep.
  assert (Hd7 : dirs w7 = dirs P).
  { simpl. destruct Hstep as (-> & _). exact Hd5. }
  assert (Hio7 : io_fault w7 = io_fault P).
  { simpl. destruct Hstep as (_ & (_ & -> & _) & _). exact Hio5. }
  rewrite (bind_ok _ _ _ _ _ (saveFontCacheState_written _ w7
             ltac:(unfold is_dir in *; rewrite Hd7; exact Had)
             ltac:(rewrite (write_ok_fs P w7 Hd7 Hio7); exact Hws))).
  set (w8 := set_files _ w7).
  mstep.
  assert (Hend : exists w',
             (let* _ := when (0 <? skc) (log (LogSkipped skc)) in ret (JArr (entries_of outs)))
               (set_console (console w8 ++ [LogSummary sc]) w8)
             = (Ok (JArr (entries_of outs)), w')
             /\ files w' = files w8 /\ net_log w' = net_log w6
             /\ exists printed, console w' = console w6 ++ printed).
  { destruct (0 <? skc); simpl.
    - eexists. split; [reflexivity|]. simpl. repeat split. eexists.
      rewrite <- app_assoc. reflexivity.
    - eexists. split; [reflexivity|]. simpl. repeat split. eexists. reflexivity. }
  destruct Hend as (w' & Hrun & Hfiles & Hnet & [printed Hcon]).
  exists w', (toISOString (clock w7)). rewrite Hrun.
  split; [reflexivity|]. rewrite Hfiles. split; [|split; [|split]].
  - subst w8 w7. simpl. rewrite lookup_insert_ne, lookup_insert_eq; [reflexivity|].
    rewrite fontsJson_eq, stateFile_eq. discriminate.
  - subst w8. simpl. now rewrite lookup_insert_eq.
  - intros j X HX Hj. destruct (Hskip j X HX Hj) as (name & shown & Hname & Hshown & Hin).
    exists name, shown. split; [exact Hname|]. split.
    + exact (js_to_string_engine_eq _ _ _ _ (eq_sym Hg5) Hshown).
    + rewrite Hcon. apply elem_of_app. now left.
  - intros X u HX Hu Ht. rewrite Hnet. now apply (Hurls X u).
Qed.

Lemma hasFontConfigChanged_hash fonts st b :
  hasFontConfigChanged fonts st = Ok b -> exists h, generateFontConfigHash fonts = Ok h.
Proof.
  unfold hasFontConfigChanged, res_bind.
  destruct (generateFontConfigHash fonts); [eauto|discriminate].
Qed.

Lemma dirs_added_quiet p w w1 : dirs_added p w w1 -> quiet w w1.
Proof. now intros (_ & Hq & _). Qed.

(** The prepared world: both directories are there and nothing else
    changed. *)
Lemma prepare_facts w :
  dir_ready w fontsDir = true ->
  dir_ready w astroDir = true ->
  is_dir (prepare w) fontsDir = true
  /\ is_dir (prepare w) astroDir = true
  /\ files (prepare w) = files w
  /\ quiet w (prepare w)
  /\ state_dir_available (with_dir fontsDir w) = true.
Proof.
  intros Hfd Had.
  destruct (ensure_dir_ready fontsDir (ret tt) w ltac:(discriminate) Hfd)
    as (_ & Hadd1 & Hdir1).
  pose proof (with_state_dir_added (with_dir fontsDir w)) as Hadd2.
  unfold prepare. set (w1 := with_dir fontsDir w) in *.
  assert (Hav1 : state_dir_available w1 = true).
  { apply (state_dir_available_mono _ _ _ Hadd1), dir_ready_state_dir, Had. }
  split; [exact (dirs_added_is_dir_mono _ _ _ _ Hadd2 Hdir1)|].
  split; [|split; [|split; [|exact Hav1]]].
  - unfold with_state_dir.
    destruct (is_dir w1 astroDir) eqn:Hd1; [exact Hd1|].
    assert (Hdw : is_dir w astroDir = false).
    { rewrite <- (dirs_added_is_dir_other _ _ _ astroDir Hadd1); [exact Hd1|].
      rewrite astroDir_eq, fontsDir_eq. intros [k Hk]. discriminate Hk. }
    unfold dir_ready in Had. rewrite Hdw in Had. simpl in Had.
    apply andb_true_iff in Had as [Hnf _]. apply negb_true_iff in Hnf.
    rewrite (dirs_added_is_file _ _ _ astroDir Hadd1), Hnf. simpl.
    unfold is_dir. simpl.
    apply bool_decide_eq_true, elem_of_union. left. now apply elem_of_singleton.
  - destruct Hadd1 as (Hf1 & _). destruct Hadd2 as (Hf2 & _). congruence.
  - exact (quiet_trans _ _ _ (dirs_added_quiet _ _ _ Hadd1) (dirs_added_quiet _ _ _ Hadd2)).
Qed.

(** A run that takes the download branch, against what is expected of
    it. *)
Lemma download_run_spec (fonts : list jsval) (options : Options) (w : World) :
  dir_ready w fontsDir = true ->
  dir_ready w astroDir = true ->
  cache_miss (JArr fonts) w = true ->
  cleaning_succeeds (prepare w) = true ->
  write_ok (prepare w) fontsJson = true ->
  write_ok (prepare w) stateFile = true ->
  forallb (font_ok w) fonts = true ->
  0 <= retries_of (merge_options defaultOptions options) ->
  exists w' lastSync h,
    downloadFontsWithCache (JArr fonts) options w
    = (Ok (JArr (entries_of
                   (expected_outcomes (remote w) (write_ok (prepare w))
                      (merge_options defaultOptions options) fonts (length (net_log w))))),
       w')
    /\ (forall j X,
          fonts !! j = Some X ->
          expected_outcomes (remote w) (write_ok (prepare w))
            (merge_options defaultOptions options) fonts (length (net_log w)) !! j
          = Some None ->
          exists name shown,
            js_get X "name" = Ok name
            /\ js_to_string name w = (Ok shown, w)
            /\ LogSkipping shown ∈ console w')
    /\ (forall Y u,
          Y ∈ fonts ->
          js_get Y "url1" = Ok u \/ js_get Y "url2" = Ok u ->
          truthy u = true -> u ∈ net_log w')
    /\ files w' !! fontsJson
       = Some (CJson (json_norm
                        (JObj [("fonts",
                                JArr (entries_of
                                        (expected_outcomes (remote w) (write_ok (prepare w))
                                           (merge_options defaultOptions options) fonts
                                           (length (net_log w)))))])))
    /\ generateFontConfigHash (JArr fonts) = Ok h
    /\ files w' !! stateFile
       = Some (CJson (json_norm
                        (JObj [("lastSync", JStr lastSync); ("configHash", JStr h);
                               ("fonts",
                                JArr (entries_of
                                        (expected_outcomes (remote w) (write_ok (prepare w))
                                           (merge_options defaultOptions options) fonts
                                           (length (net_log w)))));
                               ("version", JStr "1.0.0")]))).
Proof.
  intros Hfd Had Hmiss Hclean Hwj Hws Hfonts Hretries.
  set (opts := merge_options defaultOptions options) in *.
  destruct (prepare_facts w Hfd Had)
    as (HPf & HPa & HPfiles & ((HPe & HPio & HPr & HPg) & HPn & HPs & HPc & HPk) & Hav1).
  set (P := prepare w) in *.
  unfold downloadFontsWithCache. fold opts.
  match goal with
  | |- context [bind (existsSync fontsDir) (fun present => bind _ (fun _ => ?k))] =>
      destruct (ensure_dir_ready fontsDir k w ltac:(discriminate) Hfd)
        as (Heq & Hadd1 & Hdir1)
  end.
  rewrite Heq. clear Heq. set (w1 := with_dir fontsDir w) in *.
  destruct (loadFontCacheState_result w1 Hav1) as (w2 & Hload & Hsame2).
  fold P in Hsame2.
  assert (Hst : cached_state_of w1 = cached_state_of w).
  { unfold cached_state_of. destruct Hadd1 as (-> & ((_ & -> & _) & _) & _). reflexivity. }
  rewrite Hst in Hload. rewrite (bind_ok _ _ _ _ _ Hload).
  unfold cache_miss in Hmiss.
  destruct (hasFontConfigChanged (JArr fonts) (cached_state_of w)) as [changed|] eqn:Hchanged;
    [|discriminate].
  destruct (hasFontConfigChanged_hash _ _ _ Hchanged) as [h Hh].
  mstep.
  assert (Hfonts' : forallb (font_ok P) fonts = true).
  { rewrite forallb_forall in *. intros x Hx.
    rewrite (font_ok_engine w P x HPg). now apply Hfonts. }
  assert (Hbranch : exists w3,
             (let* cached := (if negb changed then use_cache (cached_state_of w) else ret None) in
              match cached with
              | Some cachedFonts => ret cachedFonts
              | None => download_all (JArr fonts) opts changed
              end) w2
             = download_all (JArr fonts) opts changed w3
             /\ fs_same P w3).
  { destruct changed; cbn [negb].
    - exists w2. split; [reflexivity|exact Hsame2].
    - fold P in Hmiss.
      destruct (fst (use_cache (cached_state_of w) P)) as [[c|]|] eqn:Huse;
        try discriminate.
      destruct Hsame2 as (Hd2 & Hf2 & (He2 & Hio2 & Hr2 & Hg2) & Hn2 & Hs2).
      destruct (use_cache_miss_rel (cached_state_of w) P w2 Hd2 Hf2 Hg2 Huse)
        as (w3 & Hrun3 & Hsame3).
      exists w3. rewrite (bind_ok _ _ _ _ _ Hrun3).
      split; [reflexivity|].
      apply (fs_same_trans P w2 w3); [|exact Hsame3].
      unfold fs_same, same_setting. tauto. }
  destruct Hbranch as (w3 & -> & Hsame3).
  destruct (download_all_spec fonts opts changed P w3 h Hsame3 HPf HPa Hclean Hwj Hws
              Hfonts' Hretries Hh)
    as (w' & lastSync & Hrun & Hjson & Hstate & Hskip & Hurls).
  rewrite HPr, HPn in Hrun, Hjson, Hstate, Hskip.
  exists w', lastSync, h.
  split; [exact Hrun|]. split.
  - intros j X HX Hj.
    destruct (Hskip j X HX Hj) as (name & shown & Hname & Hshown & Hin).
    exists name, shown. split; [exact Hname|]. split; [|exact Hin].
    exact (js_to_string_engine_eq _ _ _ _ (eq_sym HPg) Hshown).
  - split; [exact Hurls|]. split; [exact Hjson|]. split; [exact Hh|exact Hstate].
Qed.

(** C7.  In a run that downloads, a font [X] whose URLs the origin never
    serves within the retry budget is logged and skipped, and the run goes
    on: every font is processed (each given URL is requested), the run
    returns normally, and the list it returns, the [fonts.json] it writes
    and the cache state it saves hold exactly the entries of the fonts with
    at least one format downloaded and written, in order, and none for
    [X]. *)
Theorem partial_failure_isolation (fonts : list jsval) (options : Options) (w : World)
    (i : nat) (X : jsval) :
  dir_ready w fontsDir = true ->
  dir_ready w astroDir = true ->
  cache_miss (JArr fonts) w = true ->
  cleaning_succeeds (prepare w) = true ->
  write_ok (prepare w) fontsJson = true ->
  write_ok (prepare w) stateFile = true ->
  forallb (font_ok w) fonts = true ->
  0 <= retries_of (merge_options defaultOptions options) ->
  fonts !! i = Some X ->
  (forall u, js_get X "url1" = Ok u \/ js_get X "url2" = Ok u ->
             truthy u = true ->
             forall k, exists e, attempt_result (remote w k u) = Throw e) ->
  exists w' lastSync h,
    downloadFontsWithCache (JArr fonts) options w
    = (Ok (JArr (entries_of
                   (expected_outcomes (remote w) (write_ok (prepare w))
                      (merge_options defaultOptions options) fonts (length (net_log w))))),
       w')
    /\ expected_outcomes (remote w) (write_ok (prepare w))
         (merge_options defaultOptions options) fonts (length (net_log w)) !! i
       = Some None
    /\ length (expected_outcomes (remote w) (write_ok (prepare w))
                 (merge_options defaultOptions options) fonts (length (net_log w)))
       = length fonts
    /\ (exists name shown,
           js_get X "name" = Ok name
           /\ js_to_string name w = (Ok shown, w)
           /\ LogSkipping shown ∈ console w')
    /\ (forall Y u,
          Y ∈ fonts ->
          js_get Y "url1" = Ok u \/ js_get Y "url2" = Ok u ->
          truthy u = true -> u ∈ net_log w')
    /\ files w' !! fontsJson
       = Some (CJson (json_norm
                        (JObj [("fonts",
                                JArr (entries_of
                                        (expected_outcomes (remote w) (write_ok (prepare w))
                                           (merge_options defaultOptions options) fonts
                                           (length (net_log w)))))])))
    /\ generateFontConfigHash (JArr fonts) = Ok h
    /\ files w' !! stateFile
       = Some (CJson (json_norm
                        (JObj [("lastSync", JStr lastSync); ("configHash", JStr h);
                               ("fonts",
                                JArr (entries_of
                                        (expected_outcomes (remote w) (write_ok (prepare w))
                                           (merge_options defaultOptions options) fonts
                                           (length (net_log w)))));
                               ("version", JStr "1.0.0")]))).
Proof.
  intros Hfd Had Hmiss Hclean Hwj Hws Hfonts Hretries HX Hnever.
  destruct (download_run_spec fonts options w Hfd Had Hmiss Hclean Hwj Hws Hfonts Hretries)
    as (w' & lastSync & h & Hrun & Hskip & Hurls & Hjson & Hh & Hstate).
  set (outs := expected_outcomes (remote w) (write_ok (prepare w))
                 (merge_options defaultOptions options) fonts (length (net_log w))) in *.
  assert (Hi : outs !! i = Some None).
  { destruct (expected_outcomes_lookup (remote w) (write_ok (prepare w))
                (merge_options defaultOptions options) fonts
                (length (net_log w)) i X HX) as [req Hreq].
    subst outs. rewrite Hreq. f_equal. now apply expected_font_never. }
  exists w', lastSync, h.
  split; [exact Hrun|]. split; [exact Hi|].
  split; [apply expected_outcomes_length|].
  split; [exact (Hskip i X HX Hi)|].
  split; [exact Hurls|]. split; [exact Hjson|]. split; [exact Hh|exact Hstate].
Qed.

Lemma partial_failure_isolation_witness :
  exists w',
    downloadFontsWithCache (JArr demo_fonts) noOptions demo_world
    = (Ok (JArr [entry_regular; entry_black]), w')
    /\ LogSkipping "Lost" ∈ console w'
    /\ files w' !! fontsJson
       = Some (CJson (JObj [("fonts", JArr [entry_regular; entry_black])]))
    /\ (exists lastSync h,
           files w' !! stateFile
           = Some (CJson (JObj [("lastSync", JStr lastSync); ("configHash", JStr h);
                                ("fonts", JArr [entry_regular; entry_black]);
                                ("version", JStr "1.0.0")]))).
Proof.
  destruct (partial_failure_isolation demo_fonts noOptions demo_world 1 font_lost)
    as (w' & lastSync & h & Hrun & _ & _ & (name & shown & Hname & Hshown & Hin)
        & _ & Hjson & _ & Hstate);
    try (vm_compute; reflexivity).
  - unfold retries_of. simpl. lia.
  - intros u [Hu|Hu] Ht k; vm_compute in Hu; injection Hu as <-;
      [eexists; reflexivity|discriminate Ht].
  - exists w'. split; [exact Hrun|].
    injection Hname as <-. injection Hshown as <-.
    split; [exact Hin|]. split; [exact Hjson|].
    exists lastSync, h. exact Hstate.
Defined.

(** ** The run after a run with failures *)

Lemma stored_list_nonempty (l : list jsval) : l <> [] -> stored_list l <> [].
Proof. destruct l; [congruence|]. intros _. unfold stored_list. simpl. discriminate. Qed.

(** C9, amended.  A run that downloads saves a cache state whose
    [configHash] is the fingerprint of the whole requested configuration
    and whose font list holds the entries of the downloaded fonts only
    (the failed ones are left out).  Provided at least one font was
    downloaded, a later call with the same configuration, in a world that
    still has this state file and every file it records, takes the
    cache-hit branch: it returns the stored list, sends no request (so none
    for the fonts that failed before) and waits for nothing. *)
Theorem failed_fonts_not_retried (fonts : list jsval) (options : Options) (w : World) :
  dir_ready w fontsDir = true ->
  dir_ready w astroDir = true ->
  cache_miss (JArr fonts) w = true ->
  cleaning_succeeds (prepare w) = true ->
  write_ok (prepare w) fontsJson = true ->
  write_ok (prepare w) stateFile = true ->
  forallb (font_ok w) fonts = true ->
  0 <= retries_of (merge_options defaultOptions options) ->
  entries_of (expected_outcomes (remote w) (write_ok (prepare w))
                (merge_options defaultOptions options) fonts (length (net_log w))) <> [] ->
  exists w1 lastSync h,
    downloadFontsWithCache (JArr fonts) options w
    = (Ok (JArr (entries_of
                   (expected_outcomes (remote w) (write_ok (prepare w))
                      (merge_options defaultOptions options) fonts (length (net_log w))))),
       w1)
    /\ generateFontConfigHash (JArr fonts) = Ok h
    /\ files w1 !! stateFile
       = Some (CJson (json_norm
                        (JObj [("lastSync", JStr lastSync); ("configHash", JStr h);
                               ("fonts",
                                JArr (entries_of
                                        (expected_outcomes (remote w) (write_ok (prepare w))
                                           (merge_options defaultOptions options) fonts
                                           (length (net_log w)))));
                               ("version", JStr "1.0.0")])))
    /\ (forall (options2 : Options) (w2 : World),
          dir_ready w2 fontsDir = true ->
          dir_ready w2 astroDir = true ->
          io_fault w2 (OpRead stateFile) = false ->
          io_fault w2 (OpWrite fontsJson) = false ->
          is_dir w2 fontsJson = false ->
          files w2 !! stateFile = files w1 !! stateFile ->
          forallb (entry_present w2)
            (stored_list
               (entries_of
                  (expected_outcomes (remote w) (write_ok (prepare w))
                     (merge_options defaultOptions options) fonts (length (net_log w)))))
          = true ->
          exists w3,
            downloadFontsWithCache (JArr fonts) options2 w2
            = (Ok (JArr (stored_list
                           (entries_of
                              (expected_outcomes (remote w) (write_ok (prepare w))
                                 (merge_options defaultOptions options) fonts
                                 (length (net_log w)))))),
               w3)
            /\ net_log w3 = net_log w2
            /\ sleeps w3 = sleeps w2).
Proof.
  intros Hfd Had Hmiss Hclean Hwj Hws Hfonts Hretries Hne.
  destruct (download_run_spec fonts options w Hfd Had Hmiss Hclean Hwj Hws Hfonts Hretries)
    as (w1 & lastSync & h & Hrun & _ & _ & _ & Hh & Hstate).
  set (entries := entries_of _) in *.
  exists w1, lastSync, h.
  split; [exact Hrun|]. split; [exact Hh|]. split; [exact Hstate|].
  intros options2 w2 Hfd2 Had2 Hrd2 Hwr2 Hnd2 Hlk2 Hpres2.
  rewrite Hstate in Hlk2.
  destruct (cache_hit_run (JArr fonts) options2 w2 _ h (stored_list entries)
              (JStr lastSync) Hfd2 Had2 Hrd2 Hwr2 Hnd2 Hlk2 Hh)
    as (w3 & Hrun2 & Hnet & Hsl & _); try reflexivity.
  - now apply stored_list_nonempty.
  - exact Hpres2.
  - exists w3. split; [exact Hrun2|]. split; [exact Hnet|exact Hsl].
Qed.

Lemma failed_fonts_not_retried_witness :
  exists w1 w3,
    downloadFontsWithCache (JArr demo_fonts) noOptions demo_world
    = (Ok (JArr [entry_regular; entry_black]), w1)
    /\ LogSkipping "Lost" ∈ console w1
    /\ downloadFontsWithCache (JArr demo_fonts) noOptions w1
       = (Ok (JArr [entry_regular; entry_black]), w3)
    /\ net_log w3 = net_log w1
    /\ sleeps w3 = sleeps w1.
Proof.
  destruct (failed_fonts_not_retried demo_fonts noOptions demo_world
              ltac:(vm_compute; reflexivity) ltac:(vm_compute; reflexivity)
              ltac:(vm_compute; reflexivity) ltac:(vm_compute; reflexivity)
              ltac:(vm_compute; reflexivity) ltac:(vm_compute; reflexivity)
              ltac:(vm_compute; reflexivity)
              ltac:(unfold retries_of; simpl; lia)
              ltac:(vm_compute; discriminate))
    as (w1 & lastSync & h & Hrun & _ & _ & Hnext).
  assert (Hw1 : w1 = snd (downloadFontsWithCache (JArr demo_fonts) noOptions demo_world))
    by (rewrite Hrun; reflexivity).
  destruct (Hnext noOptions w1) as (w3 & Hrun2 & Hnet & Hsl).
  1-7: rewrite Hw1; vm_compute; reflexivity.
  exists w1, w3. split; [exact Hrun|].
  split; [rewrite Hw1; vm_compute; apply list_elem_of_In; simpl; tauto|].
  split; [exact Hrun2|]. split; [exact Hnet|exact Hsl].
Defined.

(** C9 as stated fails when every font of the run failed: the state is
    saved with the fingerprint of the configuration and an empty font
    list, and the next call with the same configuration does not take the
    cache-hit branch (it requires a non-empty cached list) but asks the
    origin for the failed font again, four more times. *)
Lemma failed_fonts_retried_counterexample :
  let run1 := downloadFontsWithCache lost_fonts noOptions (empty_world origin_404) in
  let run2 := downloadFontsWithCache lost_fonts noOptions (snd run1) in
  fst run1 = Ok (JArr [])
  /\ net_log (snd run1) = repeat (JStr "https://cms.example.com/media/lost.woff") 4
  /\ LogSkipping "Lost" ∈ console (snd run1)
  /\ (exists lastSync h,
        generateFontConfigHash lost_fonts = Ok h
        /\ files (snd run1) !! stateFile
           = Some (CJson (JObj [("lastSync", JStr lastSync); ("configHash", JStr h);
                                ("fonts", JArr []); ("version", JStr "1.0.0")])))
  /\ fst run2 = Ok (JArr [])
  /\ net_log (snd run2) = repeat (JStr "https://cms.example.com/media/lost.woff") 8.
Proof.
  vm_compute.
  split; [reflexivity|]. split; [reflexivity|].
  split; [apply list_elem_of_In; simpl; tauto|].
  split; [do 2 eexists; split; reflexivity|].
  split; reflexivity.
Qed.

(** * Further properties of the code *)

(** ** The cache state store, case by case *)

Lemma with_state_dir_state_file w :
  is_dir (with_state_dir w) stateFile = is_dir w stateFile
  /\ is_file (with_state_dir w) stateFile = is_file w stateFile.
Proof.
  pose proof (with_state_dir_added w) as Hadd. split.
  - apply (dirs_added_is_dir_other _ _ _ stateFile Hadd).
    apply not_prefix_longer. rewrite stateFile_eq, astroDir_eq. simpl. lia.
  - apply (dirs_added_is_file _ _ _ stateFile Hadd).
Qed.

(** X1.  Where the state directory is there or can be created,
    [loadFontCacheState] never raises, sends no request and leaves all
    files as they are.  It returns the parsed state file when that file can
    be read and holds JSON, and the fresh state otherwise; it prints one
    warning when there is something at the place of the state file that
    cannot be used, and nothing when the file is simply missing. *)
Theorem loadFontCacheState_fallback (w : World) :
  state_dir_available w = true ->
  exists w',
    loadFontCacheState w = (Ok (cached_state_of w), w')
    /\ files w' = files w
    /\ net_log w' = net_log w
    /\ (state_file_usable w = true ->
        files w !! stateFile = Some (CJson (cached_state_of w)))
    /\ (state_file_usable w = false -> cached_state_of w = freshState)
    /\ (if state_file_there w && negb (state_file_usable w)
        then exists message, console w' = console w ++ [LogInvalidState message]
        else console w' = console w).
Proof.
  intros Hav. unfold loadFontCacheState.
  rewrite (bind_ok _ _ _ _ _ (getFontCacheStatePath_ok w Hav)).
  destruct (with_state_dir_frame w) as (Hfiles & (_ & Hfault & _) & Hnet & _ & Hcon & _).
  destruct (with_state_dir_state_file w) as [Hd Hf].
  set (w1 := with_state_dir w) in *.
  unfold bind at 1, existsSync. rewrite Hd, Hf.
  unfold state_file_there, state_file_usable, cached_state_of.
  destruct (is_dir w stateFile || is_file w stateFile) eqn:Hex; simpl.
  2:{ apply orb_false_iff in Hex as [_ Hnf]. unfold is_file in Hnf.
      apply bool_decide_eq_false in Hnf.
      destruct (files w !! stateFile) as [c|] eqn:Hlk; [exfalso; apply Hnf; eauto|].
      exists w1. rewrite andb_false_r.
      destruct (io_fault w (OpRead stateFile)); simpl; repeat split; auto; discriminate. }
  unfold try_catch, bind at 1, readFileSync.
  rewrite Hfault, Hfiles.
  destruct (io_fault w (OpRead stateFile)) eqn:Hrd; simpl.
  { eexists. split; [reflexivity|]. simpl.
    repeat split; auto; try discriminate. eexists. now rewrite Hcon. }
  destruct (files w !! stateFile) as [[v|raw]|] eqn:Hlk; simpl.
  - exists w1. repeat split; auto; discriminate.
  - eexists. split; [reflexivity|]. simpl.
    repeat split; auto; try discriminate. eexists. now rewrite Hcon.
  - eexists. split; [reflexivity|]. simpl.
    repeat split; auto; try discriminate. eexists. now rewrite Hcon.
Qed.

Lemma loadFontCacheState_fallback_witness :
  exists w',
    loadFontCacheState corrupt_state_world = (Ok freshState, w')
    /\ files w' = files corrupt_state_world
    /\ console w' = [LogInvalidState "Unexpected token in JSON"].
Proof.
  destruct (loadFontCacheState_fallback corrupt_state_world ltac:(vm_compute; reflexivity))
    as (w' & Hrun & Hfiles & _ & _ & _ & _).
  exists w'. split; [exact Hrun|]. split; [exact Hfiles|].
  assert (Hw : w' = snd (loadFontCacheState corrupt_state_world)) by (now rewrite Hrun).
  rewrite Hw. vm_compute. reflexivity.
Defined.

(** X2.  Where the state directory is there or can be created,
    [saveFontCacheState] never raises and sends no request.  When there is
    a document to write and the write goes through, the state file holds
    the state as [JSON.parse] reads it back and nothing is printed;
    otherwise no file changes and the error is printed. *)
Theorem saveFontCacheState_best_effort (state : jsval) (w : World) :
  state_dir_available w = true ->
  exists w',
    saveFontCacheState state w = (Ok tt, w')
    /\ net_log w' = net_log w
    /\ (if has_document state && write_ok (with_state_dir w) stateFile
        then files w' = <[stateFile := CJson (json_norm state)]> (files w)
             /\ console w' = console w
        else files w' = files w
             /\ exists e, console w' = console w ++ [LogSaveError e]).
Proof.
  intros Hav. unfold saveFontCacheState.
  rewrite (bind_ok _ _ _ _ _ (getFontCacheStatePath_ok w Hav)).
  destruct (with_state_dir_frame w) as (Hfiles & _ & Hnet & _ & Hcon & _).
  set (w1 := with_state_dir w) in *.
  unfold try_catch, bind at 1, lift.
  destruct (has_document state) eqn:Hdef.
  - assert (Hdoc : JSON_document state = Ok (CJson (json_norm state)))
      by (destruct state; try reflexivity; discriminate Hdef).
    rewrite Hdoc, writeFileSync_spec.
    destruct (write_ok w1 stateFile); simpl.
    + eexists. split; [reflexivity|]. simpl. rewrite Hfiles. auto.
    + eexists. split; [reflexivity|]. simpl. split; [auto|]. split; [auto|].
      eexists. now rewrite Hcon.
  - destruct state; try discriminate Hdef.
    simpl. eexists. split; [reflexivity|]. simpl. split; [auto|]. split; [auto|].
    eexists. now rewrite Hcon.
Qed.

Lemma saveFontCacheState_best_effort_witness :
  exists w',
    saveFontCacheState saved_state locked_state_world = (Ok tt, w')
    /\ files w' = files locked_state_world
    /\ console w'
       = [LogSaveError (EFs "EACCES" [".astro"; "font-cache-state.json"])].
Proof.
  destruct (saveFontCacheState_best_effort saved_state locked_state_world
              ltac:(vm_compute; reflexivity))
    as (w' & Hrun & _ & Hrest).
  exists w'. split; [exact Hrun|].
  assert (Hw : w' = snd (saveFontCacheState saved_state locked_state_world))
    by (now rewrite Hrun).
  split; [exact (proj1 Hrest)|].
  rewrite Hw. vm_compute. reflexivity.
Defined.

Lemma json_norm_idempotent (v : jsval) : json_norm (json_norm v) = json_norm v.
Proof.
  revert v. fix IH 1. intros [| |b|z|s|l|o]; try reflexivity.
  - simpl. f_equal. rewrite List.map_map.
    induction l as [|x l IHl]; [reflexivity|].
    simpl. f_equal; [|exact IHl].
    pose proof (IH x) as Hx. destruct x; try reflexivity; exact Hx.
  - simpl. f_equal.
    induction o as [|[k x] o IHo]; [reflexivity|].
    pose proof (IH x) as Hx.
    simpl. destruct x; simpl; try (f_equal; exact IHo); try exact IHo.
    + simpl in Hx. rewrite Hx. f_equal. exact IHo.
    + simpl in Hx. rewrite Hx. f_equal. exact IHo.
Qed.

(** X3.  Saving a state and loading it again gives the state as JSON
    carries it: undefined properties are gone and undefined array elements
    are null.  What was loaded survives a further round unchanged. *)
Theorem save_load_round_trip (state : jsval) (w : World) :
  state_dir_available w = true ->
  has_document state = true ->
  write_ok (with_state_dir w) stateFile = true ->
  io_fault w (OpRead stateFile) = false ->
  exists w1 w2,
    (let* _ := saveFontCacheState state in loadFontCacheState) w
    = (Ok (json_norm state), w1)
    /\ console w1 = console w
    /\ (let* _ := saveFontCacheState (json_norm state) in loadFontCacheState) w1
       = (Ok (json_norm state), w2)
    /\ files w2 = files w1.
Proof.
  intros Hav Hdoc Hwr Hrd.
  assert (Hround : forall v u,
             state_dir_available u = true ->
             has_document v = true ->
             write_ok (with_state_dir u) stateFile = true ->
             io_fault u (OpRead stateFile) = false ->
             exists u',
               (let* _ := saveFontCacheState v in loadFontCacheState) u
               = (Ok (json_norm v), u')
               /\ console u' = console u
               /\ files u' = <[stateFile := CJson (json_norm v)]> (files u)
               /\ io_fault u' = io_fault u
               /\ state_dir_available u' = true
               /\ write_ok (with_state_dir u') stateFile = true).
  { clear. intros v u Hav Hdoc Hwr Hrd.
    pose proof (with_state_dir_added u) as Hadd.
    destruct (with_state_dir_frame u) as (Hfiles & (_ & Hfault & _) & _ & _ & Hcon & _).
    set (u1 := with_state_dir u) in *.
    assert (Hsave : saveFontCacheState v u
                    = (Ok tt, set_files (<[stateFile := CJson (json_norm v)]> (files u1)) u1)).
    { unfold saveFontCacheState.
      rewrite (bind_ok _ _ _ _ _ (getFontCacheStatePath_ok u Hav)). fold u1.
      unfold try_catch, bind at 1, lift.
      assert (JSON_document v = Ok (CJson (json_norm v))) as ->
        by (destruct v; try reflexivity; discriminate Hdoc).
      rewrite writeFileSync_spec, Hwr. reflexivity. }
    rewrite (bind_ok _ _ _ _ _ Hsave).
    set (u2 := set_files _ u1).
    assert (Hdir : is_dir u1 astroDir = true).
    { unfold write_ok in Hwr. apply andb_true_iff in Hwr as [_ Hp]. exact Hp. }
    assert (Hav2 : state_dir_available u2 = true).
    { unfold state_dir_available. change (is_dir u2 astroDir) with (is_dir u1 astroDir).
      now rewrite Hdir. }
    assert (Hw2 : with_state_dir u2 = u2).
    { unfold with_state_dir. change (is_dir u2 astroDir) with (is_dir u1 astroDir).
      now rewrite Hdir. }
    exists u2.
    rewrite (loadFontCacheState_parsed u2 (json_norm v) Hav2), Hw2.
    - split; [reflexivity|]. split; [exact Hcon|].
      split; [simpl; now rewrite Hfiles|]. split; [exact Hfault|].
      split; [exact Hav2|]. exact Hwr.
    - change (io_fault u2) with (io_fault u1). now rewrite Hfault.
    - simpl. apply lookup_insert_eq. }
  destruct (Hround state w Hav Hdoc Hwr Hrd) as (w1 & Hrun1 & Hcon1 & Hfiles1 & Hf1 & Hav1 & Hwr1).
  destruct (Hround (json_norm state) w1 Hav1) as (w2 & Hrun2 & _ & Hfiles2 & _); auto.
  { destruct state; try reflexivity; discriminate Hdoc. }
  { now rewrite Hf1. }
  exists w1, w2. rewrite json_norm_idempotent in Hrun2, Hfiles2.
  split; [exact Hrun1|]. split; [exact Hcon1|]. split; [exact Hrun2|].
  rewrite Hfiles2, Hfiles1. apply insert_insert_eq.
Qed.

Lemma save_load_round_trip_witness :
  exists w1,
    (let* _ := saveFontCacheState saved_state in loadFontCacheState) old_state_world
    = (Ok (JObj [("lastSync", JStr "2024-01-15T10:30:00.000Z");
                 ("configHash", JStr "0123abcd");
                 ("fonts", JArr [JObj [("woff", JStr "/fonts/r.woff"); ("woff2", JNull)]]);
                 ("version", JStr "1.0.0")]), w1)
    /\ console w1 = [].
Proof.
  destruct (save_load_round_trip saved_state old_state_world) as (w1 & w2 & Hrun & Hcon & _);
    try (vm_compute; reflexivity).
  exists w1. split; [exact Hrun|exact Hcon].
Defined.

(** X4.  [hasFontConfigChanged] answers false exactly when the cached
    [configHash] is the fingerprint of the configuration, as a string; in
    particular a configuration with a fingerprint has always changed
    against the fresh state. *)
Theorem hasFontConfigChanged_false_iff (fonts cachedState : jsval) :
  (hasFontConfigChanged fonts cachedState = Ok false
   <-> exists h, generateFontConfigHash fonts = Ok h
                 /\ js_get cachedState "configHash" = Ok (JStr h))
  /\ ((exists h, generateFontConfigHash fonts = Ok h)
      -> hasFontConfigChanged fonts freshState = Ok true).
Proof.
  split; [split|].
  - unfold hasFontConfigChanged.
    destruct (generateFontConfigHash fonts) as [h|e] eqn:Hh; [|discriminate].
    simpl. destruct (js_get cachedState "configHash") as [c|e]; [|discriminate].
    simpl. intros [= Hc]. apply orb_false_iff in Hc as [_ Heq].
    apply negb_false_iff in Heq. exists h. split; [reflexivity|].
    destruct c; try discriminate Heq. simpl in Heq.
    apply String.eqb_eq in Heq. now subst.
  - intros (h & Hh & Hc). exact (hasFontConfigChanged_same _ _ _ Hh Hc).
  - intros (h & Hh). unfold hasFontConfigChanged. rewrite Hh. reflexivity.
Qed.

Lemma hasFontConfigChanged_false_iff_witness :
  hasFontConfigChanged cached_config freshState = Ok true.
Proof.
  apply (proj2 (hasFontConfigChanged_false_iff cached_config freshState)).
  eexists. vm_compute. reflexivity.
Defined.

(** ** The fingerprint: where it is defined and what it looks like *)

Lemma project_font_defined f :
  (exists p, project_font f = Ok p) <-> has_fields f = true.
Proof.
  unfold project_font. destruct f; simpl; split; try (intros; eauto; fail);
    try (intros [p Hp]; discriminate Hp); discriminate.
Qed.

Lemma project_font_type_error f e :
  project_font f = Throw e -> exists m, e = ETypeError m.
Proof.
  unfold project_font. destruct f; simpl; try discriminate; intros [= <-]; eauto.
Qed.

Lemma res_mapM_project_defined l :
  (exists ps, res_mapM project_font l = Ok ps) <-> forallb has_fields l = true.
Proof.
  induction l as [|f l IH]; simpl.
  - split; eauto.
  - rewrite andb_true_iff, <- IH, <- project_font_defined. split.
    + intros [ps Hps]. destruct (project_font f) as [p|e]; [|discriminate Hps].
      simpl in Hps. destruct (res_mapM project_font l) as [qs|e]; [|discriminate Hps].
      eauto.
    + intros [[p ->] [qs ->]]. simpl. eauto.
Qed.

Lemma res_mapM_project_type_error l e :
  res_mapM project_font l = Throw e -> exists m, e = ETypeError m.
Proof.
  induction l as [|f l IH]; simpl; [discriminate|].
  destruct (project_font f) as [p|e'] eqn:Hp; simpl.
  - destruct (res_mapM project_font l) as [qs|e'']; simpl; [discriminate|].
    intros [= <-]. now apply IH.
  - intros [= <-]. exact (project_font_type_error _ _ Hp).
Qed.

Lemma generateFontConfigHash_type_error fonts e :
  generateFontConfigHash fonts = Throw e -> exists m, e = ETypeError m.
Proof.
  unfold generateFontConfigHash.
  destruct fonts; simpl; try (intros [= <-]; eauto; fail).
  destruct (res_mapM project_font l) as [ps|e'] eqn:Hps; simpl; [discriminate|].
  intros [= <-]. exact (res_mapM_project_type_error _ _ Hps).
Qed.

(** X5.  [generateFontConfigHash] gives a fingerprint exactly for an array
    none of whose elements is null or undefined (the empty array
    included); on anything else it raises a [TypeError]. *)
Theorem generateFontConfigHash_defined (fonts : jsval) :
  ((exists h, generateFontConfigHash fonts = Ok h)
   <-> exists l, fonts = JArr l /\ forallb has_fields l = true)
  /\ (forall e, generateFontConfigHash fonts = Throw e -> exists m, e = ETypeError m).
Proof.
  split; [unfold generateFontConfigHash; split|].
  - intros [h Hh]. destruct fonts; try discriminate Hh. simpl in Hh.
    exists l. split; [reflexivity|]. apply res_mapM_project_defined.
    destruct (res_mapM project_font l) as [ps|e]; [eauto|discriminate Hh].
  - intros (l & -> & Hall). apply res_mapM_project_defined in Hall as [ps Hps].
    simpl. rewrite Hps. simpl. eauto.
  - intros e. apply generateFontConfigHash_type_error.
Qed.

Lemma generateFontConfigHash_defined_witness :
  (exists h, generateFontConfigHash (JArr []) = Ok h)
  /\ exists m, generateFontConfigHash (JArr [font_regular; JNull]) = Throw (ETypeError m).
Proof.
  split.
  - apply (proj1 (generateFontConfigHash_defined (JArr []))).
    exists []. split; reflexivity.
  - destruct (proj2 (generateFontConfigHash_defined (JArr [font_regular; JNull]))
                (ETypeError "Cannot read properties of null or undefined (reading 'name')")
                ltac:(vm_compute; reflexivity)) as [m Hm].
    exists m. rewrite <- Hm. vm_compute. reflexivity.
Defined.

Lemma hex_digit_lower d : 0 <= d < 16 -> is_lower_hex (hex_digit d) = true.
Proof.
  intros Hd.
  assert (H : d = 0 \/ d = 1 \/ d = 2 \/ d = 3 \/ d = 4 \/ d = 5 \/ d = 6 \/ d = 7
              \/ d = 8 \/ d = 9 \/ d = 10 \/ d = 11 \/ d = 12 \/ d = 13 \/ d = 14
              \/ d = 15) by lia.
  repeat (destruct H as [->|H]; [reflexivity|]). subst d. reflexivity.
Qed.

Lemma hex_nibble_lower x k : is_lower_hex (hex_digit ((x / 16 ^ k) mod 16)) = true.
Proof. apply hex_digit_lower, Z.mod_pos_bound. lia. Qed.

Lemma sha256_hex_shape (s : string) :
  String.length (sha256_hex s) = 64%nat
  /\ forallb is_lower_hex (list_ascii_of_string (sha256_hex s)) = true.
Proof.
  unfold sha256_hex.
  set (st := sha_blocks _ _ _). clearbody st.
  cbv [String.concat List.map hex_word string_of_list_ascii String.append
       list_of_regs regs_of_list ra rb rc rd re rf rg rh].
  split; [reflexivity|].
  cbv [list_ascii_of_string forallb].
  rewrite !hex_nibble_lower. reflexivity.
Qed.

(** X6.  A fingerprint is always 64 digits of lower-case hexadecimal
    notation, whatever the configuration. *)
Theorem generateFontConfigHash_digest (fonts : jsval) (h : string) :
  generateFontConfigHash fonts = Ok h ->
  String.length h = 64%nat
  /\ forallb is_lower_hex (list_ascii_of_string h) = true.
Proof.
  unfold generateFontConfigHash.
  destruct (js_array fonts "fonts.map") as [l|e]; [|discriminate]. simpl.
  destruct (res_mapM project_font l) as [ps|e]; [|discriminate]. simpl.
  intros [= <-]. apply sha256_hex_shape.
Qed.

Lemma generateFontConfigHash_digest_witness :
  String.length "4f53cda18c2baa0c0354bb5f9a3ecbe5ed12ab4d8e11ba873c2f11161202b945"
  = 64%nat
  /\ generateFontConfigHash (JArr [])
     = Ok "4f53cda18c2baa0c0354bb5f9a3ecbe5ed12ab4d8e11ba873c2f11161202b945".
Proof.
  assert (H : generateFontConfigHash (JArr [])
              = Ok "4f53cda18c2baa0c0354bb5f9a3ecbe5ed12ab4d8e11ba873c2f11161202b945")
    by (vm_compute; reflexivity).
  split; [exact (proj1 (generateFontConfigHash_digest _ _ H))|exact H].
Defined.

(** ** The fetcher: bounds, time and the negative budget *)

(** X7.  With a negative [maxRetries] the loop of [retryWithBackoff] is
    never entered: [downloadFont] sends no request and throws [undefined].
    The handlers around a font's download then fail on [error.message], so
    the download of a format raises a [TypeError] instead of reporting the
    failure and going on. *)
Theorem negative_retry_budget (f : Format) (fontName url : jsval) (opts : Options)
    (w : World) :
  retries_of opts < 0 ->
  downloadFont url opts w = (Throw EUndefined, w)
  /\ (truthy url = true ->
      displayable w fontName = true ->
      exists m w',
        download_format f fontName url opts w = (Throw (ETypeError m), w')
        /\ net_log w' = net_log w
        /\ files w' = files w).
Proof.
  intros Hneg.
  assert (Hdl : forall v, downloadFont url opts v = (Throw EUndefined, v)).
  { intros v. unfold downloadFont, retryWithBackoff. fold (retries_of opts).
    replace (Z.to_nat (retries_of opts + 1)) with O by lia. reflexivity. }
  split; [apply Hdl|].
  intros Hurl Hname. unfold download_format. rewrite Hurl. cbn [negb].
  destruct (js_to_string_displayable w fontName Hname) as [shown Hshown].
  unfold try_catch.
  rewrite (bind_ok _ _ _ _ _ Hshown).
  unfold bind at 1. unfold log at 1. cbv beta iota.
  rewrite (bind_throw _ _ _ _ _ (Hdl _)).
  set (w1 := set_console _ w).
  assert (Hshown1 : js_to_string fontName w1 = (Ok shown, w1)).
  { apply (js_to_string_engine_eq fontName shown w w1); [reflexivity|exact Hshown]. }
  rewrite (bind_ok _ _ _ _ _ Hshown1).
  eexists _, w1. split; [reflexivity|]. split; reflexivity.
Qed.

Lemma negative_retry_budget_witness :
  downloadFont (JStr "https://cms.example.com/media/regular.woff") no_attempt_options
    demo_world
  = (Throw EUndefined, demo_world)
  /\ fst (download_format Woff (JStr "Regular")
            (JStr "https://cms.example.com/media/regular.woff") no_attempt_options
            demo_world)
     = Throw (ETypeError "Cannot read properties of undefined (reading 'message')").
Proof.
  destruct (negative_retry_budget Woff (JStr "Regular")
              (JStr "https://cms.example.com/media/regular.woff") no_attempt_options
              demo_world ltac:(vm_compute; reflexivity)) as [Hdl Hfmt].
  split; [exact Hdl|].
  destruct (Hfmt ltac:(reflexivity) ltac:(reflexivity)) as (m & w' & Hrun & _).
  vm_compute. reflexivity.
Defined.

Lemma attempts_outcome_last rem url n :
  forall req e0,
    (0 < n)%nat ->
    (1 <= snd (attempts_outcome rem url n req e0) <= n)%nat
    /\ fst (attempts_outcome rem url n req e0)
       = attempt_result (rem (req + (snd (attempts_outcome rem url n req e0) - 1))%nat url)
    /\ (forall j, (j < snd (attempts_outcome rem url n req e0) - 1)%nat ->
                  exists e, attempt_result (rem (req + j)%nat url) = Throw e)
    /\ ((exists e, fst (attempts_outcome rem url n req e0) = Throw e) ->
        snd (attempts_outcome rem url n req e0) = n).
Proof.
  induction n as [|n IH]; intros req e0 Hn; [lia|].
  cbn [attempts_outcome].
  destruct (attempt_result (rem req url)) as [c|e] eqn:Hres.
  - simpl. rewrite Nat.add_0_r, Hres.
    split; [lia|]. split; [reflexivity|]. split; [intros j Hj; lia|].
    intros [e He]. discriminate He.
  - destruct n as [|n].
    + simpl. rewrite Nat.add_0_r, Hres.
      split; [lia|]. split; [reflexivity|]. split; [intros j Hj; lia|]. reflexivity.
    + destruct (IH (S req) e ltac:(lia)) as (Hk & Hlast & Hfail & Hfull).
      destruct (attempts_outcome rem url (S n) (S req) e) as [r k] eqn:Hout.
      simpl in Hk, Hlast, Hfail, Hfull |- *.
      split; [lia|]. split; [|split].
      * rewrite Hlast. do 2 f_equal. lia.
      * intros j Hj. destruct j as [|j].
        -- rewrite Nat.add_0_r. eauto.
        -- destruct (Hfail j ltac:(lia)) as [e' He'].
           exists e'. rewrite <- He'. do 2 f_equal. lia.
      * intros He. f_equal. now apply Hfull.
Qed.

(** X8.  Whatever the origin does, [downloadFont] with a budget of
    [maxRetries >= 0] sends between one and [maxRetries + 1] requests, all
    for the same URL, and waits the backoff delays between them.  Every
    request but the last failed, the outcome is that of the last request,
    and an error is only reported once the budget is used up.  No file,
    directory or console line changes. *)
Theorem downloadFont_request_bound (url : jsval) (opts : Options) (w : World) :
  0 <= retries_of opts ->
  exists w' (n : nat),
    (1 <= n <= Z.to_nat (retries_of opts) + 1)%nat
    /\ downloadFont url opts w
       = (attempt_result (remote w (length (net_log w) + (n - 1))%nat url), w')
    /\ net_log w' = net_log w ++ repeat url n
    /\ sleeps w' = sleeps w ++ backoff_delays (delay_of opts) (n - 1)
    /\ (forall j, (j < n - 1)%nat ->
          exists e, attempt_result (remote w (length (net_log w) + j)%nat url) = Throw e)
    /\ ((exists e, fst (downloadFont url opts w) = Throw e) ->
        n = (Z.to_nat (retries_of opts) + 1)%nat)
    /\ dirs w' = dirs w /\ files w' = files w /\ console w' = console w.
Proof.
  intros Hmax.
  destruct (downloadFont_spec url opts w Hmax)
    as (w' & Hrun & Hlog & Hsl & _ & Hd & Hf & Hc).
  unfold fetch_outcome in *.
  destruct (attempts_outcome_last (remote w) url (Z.to_nat (retries_of opts + 1))
              (length (net_log w)) EUndefined ltac:(lia))
    as (Hk & Hlast & Hfail & Hfull).
  set (out := attempts_outcome _ _ _ _ _) in *.
  exists w', (snd out).
  split; [lia|]. split; [rewrite Hrun, Hlast; reflexivity|].
  split; [exact Hlog|]. split; [rewrite Hsl, backoff_delays_seq; reflexivity|].
  split; [exact Hfail|]. split; [|auto].
  rewrite Hrun. simpl. intros He. rewrite (Hfull He). lia.
Qed.

Lemma downloadFont_request_bound_witness :
  exists w',
    downloadFont (JStr "https://cms.example.com/media/regular.woff") noOptions
      (empty_world flaky_origin)
    = (Ok (CRaw "wOFF"), w')
    /\ net_log w' = repeat (JStr "https://cms.example.com/media/regular.woff") 3
    /\ sleeps w' = [1000; 2000].
Proof.
  destruct (downloadFont_request_bound (JStr "https://cms.example.com/media/regular.woff")
              noOptions (empty_world flaky_origin))
    as (w' & n & Hn & Hrun & Hlog & Hsl & Hfail & _).
  { unfold retries_of. simpl. lia. }
  assert (Hw : w' = snd (downloadFont (JStr "https://cms.example.com/media/regular.woff")
                           noOptions (empty_world flaky_origin)))
    by (now rewrite Hrun).
  exists w'. rewrite Hw. vm_compute. repeat split; reflexivity.
Defined.

Lemma download_attempt_hang url t w :
  remote w (length (net_log w)) url = RespHang ->
  download_attempt url t w
  = (Throw EAbort,
     set_clock (clock w + timer_delay t) (set_net_log (net_log w ++ [url]) w)).
Proof.
  intros Hr. unfold download_attempt, try_catch, bind, fetch. rewrite Hr. reflexivity.
Qed.

Lemma retry_loop_hang url t maxR base n :
  forall a w e0,
    a + Z.of_nat n = maxR ->
    0 <= a ->
    (forall j, (j <= n)%nat -> remote w (length (net_log w) + j)%nat url = RespHang) ->
    exists w',
      retry_loop (download_attempt url t) maxR base a (S n) e0 w = (Throw EAbort, w')
      /\ clock w'
         = clock w + (Z.of_nat n + 1) * timer_delay t
           + waiting_time (List.map (fun j => base * 2 ^ (a + Z.of_nat j)) (seq 0 n))
      /\ length (net_log w') = (length (net_log w) + S n)%nat.
Proof.
  induction n as [|n IH]; intros a w e0 Ha Ha0 Hhang.
  - rewrite retry_loop_S.
    pose proof (Hhang O ltac:(lia)) as H0. rewrite Nat.add_0_r in H0.
    rewrite (try_catch_throw _ _ _ _ _ (download_attempt_hang url t w H0)).
    assert (Hlt : (a <? maxR) = false) by (apply Z.ltb_ge; lia).
    rewrite Hlt. eexists. split; [reflexivity|]. simpl.
    rewrite length_app. simpl. lia.
  - rewrite retry_loop_S.
    pose proof (Hhang O ltac:(lia)) as H0. rewrite Nat.add_0_r in H0.
    rewrite (try_catch_throw _ _ _ _ _ (download_attempt_hang url t w H0)).
    assert (Hlt : (a <? maxR) = true) by (apply Z.ltb_lt; lia).
    rewrite Hlt. cbn [when].
    set (w1 := set_clock _ _).
    rewrite (bind_ok _ _ _ tt (snd (sleep (base * 2 ^ a) w1))) by reflexivity.
    set (w2 := snd (sleep (base * 2 ^ a) w1)).
    assert (Hlen : length (net_log w2) = S (length (net_log w))).
    { subst w2 w1. simpl. rewrite length_app. simpl. lia. }
    destruct (IH (a + 1) w2 EAbort ltac:(lia) ltac:(lia)) as (w' & Hrun & Hclock & Hlog).
    { intros j Hj. rewrite Hlen. change (remote w2) with (remote w).
      replace (S (length (net_log w)) + j)%nat with (length (net_log w) + S j)%nat by lia.
      apply Hhang. lia. }
    exists w'. split; [exact Hrun|]. split; [|lia].
    rewrite Hclock. subst w2 w1.
    cbn [seq List.map waiting_time fold_right].
    rewrite <- seq_shift, List.map_map.
    rewrite (List.map_ext (fun j => base * 2 ^ (a + Z.of_nat (S j)))
                          (fun j => base * 2 ^ (a + 1 + Z.of_nat j)))
      by (intros j; do 2 f_equal; lia).
    fold (waiting_time (List.map (fun j => base * 2 ^ (a + 1 + Z.of_nat j)) (seq 0 n))).
    replace (a + Z.of_nat 0) with a by lia.
    simpl. lia.
Qed.

Lemma waiting_time_in_range delays :
  Forall (fun delay => 1 <= delay <= 2147483647) delays ->
  waiting_time delays = fold_right Z.add 0 delays.
Proof.
  induction 1 as [|delay delays Hd _ IH]; simpl; [reflexivity|].
  rewrite IH. unfold timer_delay.
  destruct (Z.leb_spec 1 delay), (Z.leb_spec delay 2147483647); simpl; lia.
Qed.

Lemma backoff_sum base n :
  forall a : nat,
    fold_right Z.add 0 (List.map (fun j => base * 2 ^ Z.of_nat j) (seq a n))
    = base * (2 ^ Z.of_nat (a + n) - 2 ^ Z.of_nat a).
Proof.
  induction n as [|n IH]; intros a; simpl.
  - rewrite Nat.add_0_r. lia.
  - rewrite IH. replace (a + S n)%nat with (S a + n)%nat by lia.
    rewrite (Nat2Z.inj_succ a), Z.pow_succ_r by lia. lia.
Qed.

Lemma backoff_delays_in_range base n :
  1 <= base ->
  base * 2 ^ (Z.of_nat n - 1) <= 2147483647 ->
  Forall (fun delay => 1 <= delay <= 2147483647) (backoff_delays base n).
Proof.
  intros Hbase Hlast. unfold backoff_delays. apply Forall_forall.
  intros delay Hin. apply list_elem_of_In, in_map_iff in Hin as (j & <- & Hj).
  apply in_seq in Hj.
  assert (Hpos : 1 <= 2 ^ (Z.of_nat j - 1)) by (apply Z.pow_le_mono_r with (b := 0); lia).
  assert (Hle : 2 ^ (Z.of_nat j - 1) <= 2 ^ (Z.of_nat n - 1))
    by (apply Z.pow_le_mono_r; lia).
  split; nia.
Qed.

(** X9.  Against an origin that never answers, [downloadFont] gives up
    with the abort error after [maxRetries + 1] requests.  By then the
    abort timer has run out [maxRetries + 1] times and each backoff delay
    has been waited for; a timer set below 1 or above 2147483647 ms fires
    after 1 ms.  With a timeout and backoff delays that timers can hold
    this is [(maxRetries + 1) * timeout + retryDelay * (2^maxRetries - 1)]
    milliseconds: 127 seconds with the default options. *)
Theorem downloadFont_dead_origin (url : jsval) (opts : Options) (w : World) :
  0 <= retries_of opts ->
  (forall j, (j <= Z.to_nat (retries_of opts))%nat ->
             remote w (length (net_log w) + j)%nat url = RespHang) ->
  exists w',
    downloadFont url opts w = (Throw EAbort, w')
    /\ length (net_log w') = (length (net_log w) + Z.to_nat (retries_of opts) + 1)%nat
    /\ clock w'
       = clock w + (retries_of opts + 1) * timer_delay (default 30000 (timeout opts))
         + waiting_time (backoff_delays (delay_of opts) (Z.to_nat (retries_of opts)))
    /\ (1 <= default 30000 (timeout opts) <= 2147483647 ->
        retries_of opts = 0
        \/ (1 <= delay_of opts
            /\ delay_of opts * 2 ^ (retries_of opts - 1) <= 2147483647) ->
        clock w'
        = clock w + (retries_of opts + 1) * default 30000 (timeout opts)
          + delay_of opts * (2 ^ retries_of opts - 1)).
Proof.
  intros Hmax Hhang. unfold downloadFont, retryWithBackoff.
  fold (retries_of opts). fold (delay_of opts).
  replace (Z.to_nat (retries_of opts + 1)) with (S (Z.to_nat (retries_of opts))) by lia.
  destruct (retry_loop_hang url (default 30000 (timeout opts)) (retries_of opts)
              (delay_of opts) (Z.to_nat (retries_of opts)) 0 w EUndefined
              ltac:(lia) ltac:(lia) Hhang) as (w' & Hrun & Hclock & Hlog).
  rewrite (List.map_ext (fun j => delay_of opts * 2 ^ (0 + Z.of_nat j))
                        (fun j => delay_of opts * 2 ^ Z.of_nat j)) in Hclock
    by (intros j; do 2 f_equal; lia).
  rewrite backoff_delays_seq, Z2Nat.id in Hclock by lia.
  exists w'. split; [exact Hrun|]. split; [lia|]. split; [exact Hclock|].
  intros Ht Hd. rewrite Hclock.
  assert (Htimer : timer_delay (default 30000 (timeout opts)) = default 30000 (timeout opts)).
  { unfold timer_delay.
    destruct (Z.leb_spec 1 (default 30000 (timeout opts))),
             (Z.leb_spec (default 30000 (timeout opts)) 2147483647); simpl; lia. }
  rewrite Htimer. f_equal.
  destruct Hd as [Hzero|[Hbase Hlast]].
  - rewrite Hzero. change (2 ^ 0 - 1) with 0. rewrite Z.mul_0_r. reflexivity.
  - rewrite waiting_time_in_range
      by (apply backoff_delays_in_range; [exact Hbase|now rewrite Z2Nat.id by lia]).
    rewrite <- backoff_delays_seq, backoff_sum, Nat.add_0_l, Z2Nat.id by lia.
    simpl (2 ^ Z.of_nat 0). reflexivity.
Qed.

Lemma downloadFont_dead_origin_witness :
  (exists w',
     downloadFont (JStr "https://cms.example.com/media/regular.woff") noOptions
       (empty_world silent_origin)
     = (Throw EAbort, w')
     /\ length (net_log w') = 4%nat
     /\ clock w' = clock (empty_world silent_origin) + 127000)
  /\ (exists w',
        downloadFont (JStr "https://cms.example.com/media/regular.woff")
          long_timeout_options (empty_world silent_origin)
        = (Throw EAbort, w')
        /\ clock w' = clock (empty_world silent_origin) + 1).
Proof.
  split.
  - destruct (downloadFont_dead_origin (JStr "https://cms.example.com/media/regular.woff")
                noOptions (empty_world silent_origin))
      as (w' & Hrun & Hlog & _ & Hclock).
    + unfold retries_of. simpl. lia.
    + intros j _. reflexivity.
    + exists w'. split; [exact Hrun|]. split; [exact Hlog|].
      rewrite Hclock; [reflexivity|simpl; lia|].
      right. unfold delay_of, retries_of. simpl. lia.
  - destruct (downloadFont_dead_origin (JStr "https://cms.example.com/media/regular.woff")
                long_timeout_options (empty_world silent_origin))
      as (w' & Hrun & _ & Hclock & _).
    + unfold retries_of. simpl. lia.
    + intros j _. reflexivity.
    + exists w'. split; [exact Hrun|]. rewrite Hclock. reflexivity.
Defined.

(** ** [sanitizePath]: what it accepts *)

Lemma entry_name_Forall names :
  forallb entry_name names = true ->
  Forall (fun seg => plain_seg seg = true) names
  /\ Forall (fun seg => has_slash seg = false) names.
Proof.
  rewrite forallb_forall. intros H. split; apply Forall_forall; intros x Hx;
    specialize (H x ltac:(now apply list_elem_of_In));
    apply andb_true_iff in H as [Hp Hs]; [exact Hp|now apply negb_true_iff in Hs].
Qed.

Lemma fold_norm_step_plain allow names :
  Forall (fun seg => plain_seg seg = true) names ->
  forall stack, fold_left (norm_step allow) names stack = rev names ++ stack.
Proof.
  induction 1 as [|x names Hx _ IH]; intros stack; [reflexivity|].
  simpl. rewrite IH, <- app_assoc. f_equal.
  unfold norm_step. unfold plain_seg in Hx.
  apply andb_true_iff in Hx as [Hx H3]. apply andb_true_iff in Hx as [H1 H2].
  apply negb_true_iff in H1, H2, H3. now rewrite H1, H2, H3.
Qed.

Lemma norm_segs_plain allow names :
  Forall (fun seg => plain_seg seg = true) names ->
  norm_segs allow names = names
  /\ norm_segs allow (names ++ [EmptyString]) = names.
Proof.
  intros H. unfold norm_segs. split.
  - rewrite (fold_norm_step_plain allow names H), app_nil_r. apply rev_involutive.
  - rewrite fold_left_app, (fold_norm_step_plain allow names H), app_nil_r.
    simpl. apply rev_involutive.
Qed.

Lemma join_with_cons x y l :
  join_with "/" (x :: y :: l) = x +:+ String slash (join_with "/" (y :: l)).
Proof. reflexivity. Qed.

Lemma starts_with_slash_join x names :
  entry_name x = true -> starts_with_slash (join_with "/" (x :: names)) = false.
Proof.
  intros Hx. apply andb_true_iff in Hx as [Hp Hs]. apply negb_true_iff in Hs.
  destruct x as [|c x]; [discriminate Hp|].
  simpl in Hs. apply orb_false_iff in Hs as [Hc _].
  destruct names as [|y l]; [exact Hc|].
  rewrite join_with_cons, append_cons. exact Hc.
Qed.

Lemma ends_with_slash_app a b :
  b <> EmptyString -> ends_with_slash (a +:+ b) = ends_with_slash b.
Proof.
  intros Hb. induction a as [|c a IH]; [reflexivity|].
  rewrite append_cons. simpl. rewrite IH.
  destruct (a +:+ b) eqn:Hab; [|reflexivity].
  destruct a; [rewrite append_empty_l in Hab; contradiction|].
  rewrite append_cons in Hab. discriminate Hab.
Qed.

Lemma ends_with_slash_has_slash x : ends_with_slash x = true -> has_slash x = true.
Proof.
  induction x as [|c x IH]; [discriminate|]. simpl.
  destruct x as [|d x].
  - intros ->. reflexivity.
  - intros H. rewrite (IH H). apply orb_true_r.
Qed.

Lemma ends_with_slash_join names :
  forallb entry_name names = true ->
  ends_with_slash (join_with "/" names) = false.
Proof.
  induction names as [|x names IH]; [reflexivity|].
  intros H. simpl in H. apply andb_true_iff in H as [Hx Hn].
  destruct names as [|y l].
  - simpl. apply andb_true_iff in Hx as [_ Hs]. apply negb_true_iff in Hs.
    destruct (ends_with_slash x) eqn:He; [|reflexivity].
    apply ends_with_slash_has_slash in He. congruence.
  - rewrite join_with_cons.
    change (String slash (join_with "/" (y :: l)))
      with ("/" +:+ join_with "/" (y :: l)).
    assert (Hne : join_with "/" (y :: l) <> EmptyString).
    { intros Heq. destruct (entry_name_Forall _ Hn) as [Hp _].
      apply (join_with_nil_iff _ Hp) in Heq. discriminate Heq. }
    rewrite ends_with_slash_app.
    + rewrite ends_with_slash_app by exact Hne. now apply IH.
    + destruct (join_with "/" (y :: l)); discriminate.
Qed.

Lemma ends_with_slash_trailing x : ends_with_slash (x +:+ "/") = true.
Proof. rewrite ends_with_slash_app by discriminate. reflexivity. Qed.

Lemma starts_with_slash_app x y :
  x <> EmptyString -> starts_with_slash (x +:+ y) = starts_with_slash x.
Proof. destruct x; [congruence|]. intros _. now rewrite append_cons. Qed.

Lemma eqb_empty_append x y : x <> EmptyString -> String.eqb (x +:+ y) EmptyString = false.
Proof. destruct x; [congruence|]. intros _. now rewrite append_cons. Qed.

(** Paths made of entry names are in normal form, with or without a
    trailing slash. *)
Lemma normalize_clean names :
  names <> [] ->
  forallb entry_name names = true ->
  normalize (join_with "/" names) = join_with "/" names
  /\ normalize (join_with "/" names +:+ "/") = join_with "/" names +:+ "/".
Proof.
  intros Hne Hall. destruct (entry_name_Forall _ Hall) as [Hp Hs].
  assert (Hj : join_with "/" names <> EmptyString).
  { intros Heq. now apply (join_with_nil_iff _ Hp) in Heq. }
  assert (Hst : starts_with_slash (join_with "/" names) = false).
  { destruct names as [|x l]; [congruence|]. simpl in Hall.
    apply andb_true_iff in Hall as [Hx _]. now apply starts_with_slash_join. }
  destruct (norm_segs_plain true names Hp) as [Hn1 Hn2].
  apply String.eqb_neq in Hj as Hjb.
  unfold normalize. split.
  - rewrite Hjb, Hst, (ends_with_slash_join _ Hall). cbn [negb].
    rewrite (split_slash_join names Hne Hs), Hn1, Hjb.
    now rewrite append_empty_l, append_empty_r.
  - rewrite (eqb_empty_append _ _ Hj), (starts_with_slash_app _ _ Hj), Hst,
      ends_with_slash_trailing. cbn [negb].
    change (join_with "/" names +:+ "/")
      with (join_with "/" names +:+ String slash EmptyString).
    rewrite split_slash_app, (split_slash_join names Hne Hs). simpl split_slash.
    rewrite Hn2, Hjb. now rewrite append_empty_l.
Qed.

(** What [normalize] returns for a relative path that passes the checks of
    [sanitizePath]. *)
Lemma normalize_accepted_shape s :
  isAbsolute (normalize s) = false ->
  String.prefix "../" (normalize s) = false ->
  normalize s <> ".." ->
  normalize s = "." \/ normalize s = "./"
  \/ exists names,
       names <> [] /\ forallb entry_name names = true
       /\ (normalize s = join_with "/" names
           \/ normalize s = join_with "/" names +:+ "/").
Proof.
  unfold normalize, isAbsolute.
  destruct (String.eqb s EmptyString); [auto|].
  destruct (starts_with_slash s) eqn:Habs.
  { destruct (String.eqb _ EmptyString); simpl; discriminate. }
  cbn [negb].
  destruct (norm_segs_shape true s) as (k & names & Heq & Hnames & Hns).
  rewrite Heq.
  destruct k as [|k].
  - simpl repeat. simpl app. simpl in Hns.
    destruct (String.eqb (join_with "/" names) EmptyString) eqn:Hempty.
    + destruct (ends_with_slash s); auto.
    + intros _ _ _. right. right. exists names.
      assert (Hne : names <> []) by (intros ->; discriminate Hempty).
      split; [exact Hne|]. split.
      * apply forallb_forall. intros x Hx. apply list_elem_of_In in Hx.
        rewrite Forall_forall in Hnames, Hns. unfold entry_name.
        now rewrite (Hnames x Hx), (Hns x Hx).
      * rewrite append_empty_l. destruct (ends_with_slash s); [right|left]; auto.
        apply append_empty_r.
  - intros _ Hpre Hneq. exfalso.
    simpl repeat in *. simpl app in *.
    destruct (repeat ".." k ++ names) as [|y l] eqn:Hl.
    + destruct (ends_with_slash s);
        [vm_compute in Hpre; discriminate Hpre|apply Hneq; reflexivity].
    + change (join_with "/" (".." :: y :: l))
        with (String "." (String "." (String slash (join_with "/" (y :: l))))) in Hpre.
      rewrite append_empty_l, !append_cons in Hpre.
      simpl in Hpre. rewrite prefix_empty in Hpre. discriminate Hpre.
Qed.

Lemma sanitizePath_accepts s fieldName p :
  sanitizePath (JStr s) fieldName = Ok p ->
  p = normalize s
  /\ isAbsolute p = false /\ String.prefix "../" p = false
  /\ includes "/../" p = false /\ includes "..\" p = false /\ p <> "..".
Proof.
  unfold sanitizePath.
  destruct (negb (truthy (JStr s))); [discriminate|].
  destruct (String.prefix "../" (normalize s)) eqn:Hpre; [discriminate|].
  destruct (includes "/../" (normalize s)) eqn:Hinc; [discriminate|].
  destruct (includes "..\" (normalize s)) eqn:Hbs; [discriminate|].
  destruct (String.eqb (normalize s) "..") eqn:Heq; [discriminate|].
  simpl orb. cbv iota.
  destruct (isAbsolute (normalize s)) eqn:Habs; [discriminate|].
  intros [= <-]. apply String.eqb_neq in Heq. auto 10.
Qed.

(** X10.  [sanitizePath] is idempotent: a path it returns is accepted and
    returned unchanged when it is sanitised again, under whatever field
    name. *)
Theorem sanitizePath_idempotent (s p : string) (fieldName fieldName' : option string) :
  sanitizePath (JStr s) fieldName = Ok p ->
  sanitizePath (JStr p) fieldName' = Ok p.
Proof.
  intros Hok.
  destruct (sanitizePath_accepts _ _ _ Hok) as (-> & Habs & Hpre & Hinc & Hbs & Hne).
  assert (Hnorm : normalize (normalize s) = normalize s).
  { destruct (normalize_accepted_shape s Habs Hpre Hne)
      as [->|[->|(names & Hnn & Hall & [->| ->])]]; try reflexivity;
      now apply normalize_clean. }
  assert (Htruthy : truthy (JStr (normalize s)) = true).
  { destruct (normalize_accepted_shape s Habs Hpre Hne)
      as [->|[->|(names & Hnn & Hall & Hor)]]; try reflexivity.
    destruct (entry_name_Forall _ Hall) as [Hp _].
    assert (Hj : join_with "/" names <> EmptyString).
    { intros Heq. now apply (join_with_nil_iff _ Hp) in Heq. }
    simpl. apply negb_true_iff.
    destruct Hor as [-> | ->]; [now apply String.eqb_neq|now apply eqb_empty_append]. }
  unfold sanitizePath. rewrite Htruthy, Hnorm, Hpre, Hinc, Hbs. cbn [negb orb].
  apply String.eqb_neq in Hne. rewrite Hne, Habs. reflexivity.
Qed.

Lemma sanitizePath_idempotent_witness :
  sanitizePath (JStr "./media//fonts/../img/logo.svg") None = Ok "media/img/logo.svg"
  /\ sanitizePath (JStr "media/img/logo.svg") (Some "Asset") = Ok "media/img/logo.svg".
Proof.
  assert (H : sanitizePath (JStr "./media//fonts/../img/logo.svg") None
              = Ok "media/img/logo.svg") by (vm_compute; reflexivity).
  split; [exact H|]. exact (sanitizePath_idempotent _ _ None (Some "Asset") H).
Defined.

Lemma prefix_cons_inv a p b t :
  String.prefix (String a p) (String b t) = true -> a = b /\ String.prefix p t = true.
Proof. simpl. destruct (ascii_dec a b); [auto|discriminate]. Qed.

Lemma prefix_dotdot_slash_inv s :
  String.prefix "../" s = true -> exists t, s = String "." (String "." (String slash t)).
Proof.
  destruct s as [|c1 [|c2 [|c3 t]]]; try discriminate.
  - intros H. apply prefix_cons_inv in H as [_ H]. discriminate H.
  - intros H. apply prefix_cons_inv in H as [_ H].
    apply prefix_cons_inv in H as [_ H]. discriminate H.
  - intros H. apply prefix_cons_inv in H as [<- H].
    apply prefix_cons_inv in H as [<- H]. apply prefix_cons_inv in H as [<- _].
    eauto.
Qed.

Lemma includes_dotdot_segment s :
  includes "/../" s = true -> In ".." (tl (split_slash s)).
Proof.
  induction s as [|c s IH]; [discriminate|].
  cbn [includes]. intros H. apply orb_true_iff in H as [Hpre|Htail].
  - apply prefix_cons_inv in Hpre as [<- Hpre].
    apply prefix_dotdot_slash_inv in Hpre as [t ->].
    simpl. destruct (split_slash_cons t) as (seg & rest & ->). simpl. auto.
  - specialize (IH Htail). simpl.
    destruct (split_slash_cons s) as (seg & rest & Heq). rewrite Heq in *.
    destruct (Ascii.eqb c slash); simpl in *; auto.
Qed.

Lemma prefix_cons_eq a p b t :
  String.prefix (String a p) (String b t)
  = if ascii_dec a b then String.prefix p t else false.
Proof. reflexivity. Qed.

Lemma prefix_cons_nil a p : String.prefix (String a p) EmptyString = false.
Proof. reflexivity. Qed.

Lemma prefix_bs_trailing s :
  String.prefix "..\" (s +:+ "/") = String.prefix "..\" s.
Proof.
  destruct s as [|c1 [|c2 [|c3 s]]];
    rewrite ?append_cons, ?append_empty_l, ?prefix_cons_eq, ?prefix_cons_nil, ?prefix_empty;
    repeat match goal with
           | |- context [ascii_dec ?a ?b] => destruct (ascii_dec a b)
           end;
    try reflexivity;
    exfalso; match goal with H : _ = _ |- _ => discriminate H end.
Qed.

Lemma includes_bs_trailing t : includes "..\" (t +:+ "/") = includes "..\" t.
Proof.
  induction t as [|c t IH]; [reflexivity|].
  pose proof (prefix_bs_trailing (String c t)) as Hp.
  rewrite append_cons in Hp |- *. cbn [includes]. now rewrite IH, Hp.
Qed.

Lemma prefix_dotdot_segment s :
  String.prefix "../" s = true -> In ".." (split_slash s).
Proof.
  intros H. apply prefix_dotdot_slash_inv in H as [t ->].
  simpl. destruct (split_slash_cons t) as (seg & rest & ->). simpl. auto.
Qed.

(** X11.  A relative path made of entry names joined by single slashes
    (none of them empty, "." or ".."), optionally followed by one slash, is
    returned as it is, provided it does not contain the two dots followed
    by a backslash that [sanitizePath] refuses anywhere. *)
Theorem sanitizePath_clean_identity (names : list string) (trailing : bool)
    (fieldName : option string) :
  names <> [] ->
  forallb entry_name names = true ->
  includes "..\" (join_with "/" names) = false ->
  sanitizePath (JStr (join_with "/" names +:+ (if trailing then "/" else EmptyString)))
    fieldName
  = Ok (join_with "/" names +:+ (if trailing then "/" else EmptyString)).
Proof.
  intros Hne Hall Hbs.
  destruct (entry_name_Forall _ Hall) as [Hp Hs].
  destruct (normalize_clean names Hne Hall) as [Hn1 Hn2].
  assert (Hj : join_with "/" names <> EmptyString).
  { intros Heq. now apply (join_with_nil_iff _ Hp) in Heq. }
  set (p := join_with "/" names +:+ (if trailing then "/" else EmptyString)).
  assert (Hnorm : normalize p = p).
  { subst p. destruct trailing; [exact Hn2|]. now rewrite append_empty_r. }
  assert (Hsplit : split_slash p = names ++ (if trailing then [EmptyString] else [])).
  { subst p. destruct trailing.
    - change (join_with "/" names +:+ "/")
        with (join_with "/" names +:+ String slash EmptyString).
      now rewrite split_slash_app, (split_slash_join names Hne Hs).
    - now rewrite append_empty_r, app_nil_r, (split_slash_join names Hne Hs). }
  assert (Hnodd : ~ In ".." (split_slash p)).
  { rewrite Hsplit, in_app_iff. intros [H|H].
    - exact (plain_seg_not_dotdot names Hp H).
    - destruct trailing; simpl in H; [destruct H as [H|[]]; discriminate H|destruct H]. }
  unfold sanitizePath.
  assert (Htruthy : truthy (JStr p) = true).
  { simpl. apply negb_true_iff. subst p. now apply eqb_empty_append. }
  rewrite Htruthy, Hnorm. cbn [negb].
  assert (Hpre : String.prefix "../" p = false).
  { destruct (String.prefix "../" p) eqn:Hpx; [|reflexivity].
    exfalso. apply Hnodd. now apply prefix_dotdot_segment. }
  assert (Hinc : includes "/../" p = false).
  { destruct (includes "/../" p) eqn:Hi; [|reflexivity].
    exfalso. apply Hnodd. apply includes_dotdot_segment in Hi.
    destruct (split_slash p); [destruct Hi|]. simpl in Hi. now right. }
  assert (Hbs' : includes "..\" p = false).
  { subst p. destruct trailing; [|now rewrite append_empty_r].
    now rewrite includes_bs_trailing. }
  rewrite Hpre, Hinc, Hbs'. cbn [orb].
  assert (Hneq : String.eqb p ".." = false).
  { apply String.eqb_neq. intros Heq. apply Hnodd. rewrite Heq. simpl. auto. }
  rewrite Hneq.
  assert (Habs : isAbsolute p = false).
  { unfold isAbsolute. subst p. rewrite (starts_with_slash_app _ _ Hj).
    destruct names as [|x l]; [congruence|]. simpl in Hall.
    apply andb_true_iff in Hall as [Hx _]. now apply starts_with_slash_join. }
  rewrite Habs. reflexivity.
Qed.

Lemma sanitizePath_clean_identity_witness :
  sanitizePath (JStr "public/fonts/inter.woff2") None = Ok "public/fonts/inter.woff2".
Proof.
  apply (sanitizePath_clean_identity ["public"; "fonts"; "inter.woff2"] false None);
    [discriminate|reflexivity|reflexivity].
Defined.

(** X12.  An absolute path is never accepted: [sanitizePath] raises an
    error for every input that starts with a slash. *)
Theorem sanitizePath_rejects_absolute (s : string) (fieldName : option string) :
  isAbsolute s = true ->
  exists message, sanitizePath (JStr s) fieldName = Throw (EError message).
Proof.
  unfold isAbsolute. intros Habs.
  assert (Hn : isAbsolute (normalize s) = true).
  { unfold normalize, isAbsolute. rewrite Habs.
    destruct s as [|c s]; [discriminate Habs|]. simpl String.eqb. cbv iota.
    destruct (String.eqb _ EmptyString); [reflexivity|].
    rewrite append_cons. reflexivity. }
  unfold sanitizePath.
  destruct (negb (truthy (JStr s))); [eauto|].
  destruct (String.prefix "../" (normalize s) || includes "/../" (normalize s)
            || includes "..\" (normalize s) || String.eqb (normalize s) "..");
    [eauto|].
  rewrite Hn. eauto.
Qed.

Lemma sanitizePath_rejects_absolute_witness :
  sanitizePath (JStr "/etc/passwd") (Some "Content path")
  = Throw (EError "Content path must be a relative path: /etc/passwd").
Proof.
  destruct (sanitizePath_rejects_absolute "/etc/passwd" (Some "Content path")
              ltac:(reflexivity)) as [message H].
  rewrite H. vm_compute in H. exact (eq_sym H).
Defined.

(** ** What the plugin never does *)

Lemma grows_refl w : grows w w.
Proof. unfold grows, same_setting. repeat split; reflexivity. Qed.

Lemma grows_trans w1 w2 w3 : grows w1 w2 -> grows w2 w3 -> grows w1 w3.
Proof.
  unfold grows, same_setting.
  intros ((He & Hf & Hr & Hg) & Hd & Hn & Hs & Hc & Hk)
         ((He' & Hf' & Hr' & Hg') & Hd' & Hn' & Hs' & Hc' & Hk').
  repeat split; try congruence; try (etransitivity; eassumption); lia.
Qed.

Ltac grows_now :=
  unfold grows, same_setting; simpl;
  repeat split; try reflexivity; try (apply prefix_app_r; reflexivity);
  try set_solver; try lia.

Lemma steady_ret {A} (a : A) : steady (ret a).
Proof. intros w. split; [apply grows_refl|discriminate]. Qed.

Lemma steady_throw {A} e : e <> EUndefined -> steady (@throw A e).
Proof. intros He w. split; [apply grows_refl|]. simpl. congruence. Qed.

Lemma steady_lift {A} (r : Res A) : r <> Throw EUndefined -> steady (lift r).
Proof. intros H w. split; [apply grows_refl|exact H]. Qed.

Lemma steady_log e : steady (log e).
Proof. intros w. split; [grows_now|discriminate]. Qed.

Lemma timer_delay_pos delay : 1 <= timer_delay delay.
Proof.
  unfold timer_delay.
  destruct (Z.leb_spec 1 delay), (Z.leb_spec delay 2147483647); simpl; lia.
Qed.

Lemma steady_sleep d : steady (sleep d).
Proof.
  intros w. pose proof (timer_delay_pos d). split; [grows_now|discriminate].
Qed.

Lemma steady_getenv name : steady (getenv name).
Proof. intros w. split; [apply grows_refl|discriminate]. Qed.

Lemma steady_now_iso : steady now_iso.
Proof. intros w. split; [apply grows_refl|discriminate]. Qed.

Lemma steady_bind {A B} (m : M A) (k : A -> M B) :
  steady m -> (forall a, steady (k a)) -> steady (bind m k).
Proof.
  intros Hm Hk w. unfold bind. destruct (Hm w) as (Hg & Hr).
  destruct (m w) as [[a|e] w1]; simpl in *.
  - destruct (Hk a w1) as (Hg' & Hr'). split; [|exact Hr'].
    exact (grows_trans _ _ _ Hg Hg').
  - split; [exact Hg|]. intros [= Heq]. apply Hr. now rewrite Heq.
Qed.

Lemma steady_try_catch {A} (m : M A) (h : JsError -> M A) :
  steady m -> (forall e, e <> EUndefined -> steady (h e)) -> steady (try_catch m h).
Proof.
  intros Hm Hh w. unfold try_catch. destruct (Hm w) as (Hg & Hr).
  destruct (m w) as [[a|e] w1]; simpl in *.
  - split; assumption.
  - assert (Hne : e <> EUndefined) by congruence.
    destruct (Hh e Hne w1) as (Hg' & Hr'). split; [|exact Hr'].
    exact (grows_trans _ _ _ Hg Hg').
Qed.

Lemma steady_when b (m : M unit) : steady m -> steady (when b m).
Proof. destruct b; simpl; [auto|intros _; apply steady_ret]. Qed.

Lemma steady_if {A} (b : bool) (m1 m2 : M A) :
  steady m1 -> steady m2 -> steady (if b then m1 else m2).
Proof. destruct b; auto. Qed.

Lemma steady_existsSync p : steady (existsSync p).
Proof. intros w. split; [apply grows_refl|discriminate]. Qed.

Lemma steady_readFileSync p : steady (readFileSync p).
Proof.
  intros w. unfold readFileSync.
  destruct (io_fault w (OpRead p)); [split; [apply grows_refl|discriminate]|].
  destruct (files w !! p); split; try apply grows_refl; discriminate.
Qed.

Lemma steady_writeFileSync p c : steady (writeFileSync p c).
Proof.
  intros w. rewrite writeFileSync_spec.
  destruct (write_ok w p); split; try discriminate; grows_now.
Qed.

Lemma steady_unlinkSync p : steady (unlinkSync p).
Proof.
  intros w. unfold unlinkSync.
  destruct (io_fault w (OpUnlink p)); [split; [apply grows_refl|discriminate]|].
  destruct (is_file w p); split; try discriminate; grows_now.
Qed.

Lemma steady_readdirSync p : steady (readdirSync p).
Proof.
  intros w. unfold readdirSync.
  destruct (io_fault w (OpReaddir p)); [split; [apply grows_refl|discriminate]|].
  destruct (negb (is_dir w p)); split; try discriminate; apply grows_refl.
Qed.

Lemma steady_mkdir_from rest : forall base, steady (mkdir_from base rest).
Proof.
  induction rest as [|s rest IH]; intros base w; simpl.
  - split; [apply grows_refl|discriminate].
  - destruct (is_dir w (base ++ [s])); [apply IH|].
    destruct (is_file w (base ++ [s])); [split; [apply grows_refl|discriminate]|].
    destruct (io_fault w (OpMkdir (base ++ [s]))); [split; [apply grows_refl|discriminate]|].
    destruct (IH (base ++ [s]) (set_dirs ({[base ++ [s]]} ∪ dirs w) w)) as [Hg Hr].
    split; [|exact Hr].
    refine (grows_trans _ _ _ _ Hg). grows_now.
Qed.

Lemma steady_js_gt_zero v : steady (js_gt_zero v).
Proof.
  intros w. unfold js_gt_zero. split; [apply grows_refl|].
  destruct v; simpl; try discriminate;
    destruct (coerce_positive (engine w) _); discriminate.
Qed.

Lemma steady_js_to_string v : steady (js_to_string v).
Proof.
  intros w. unfold js_to_string. split; [apply grows_refl|].
  destruct v as [| |[]| | | |]; simpl; try discriminate;
    destruct (coerce_string (engine w) _); discriminate.
Qed.

Lemma basename_error v : basename v <> Throw EUndefined.
Proof. destruct v; discriminate. Qed.

Lemma js_array_error v method : js_array v method <> Throw EUndefined.
Proof. destruct v; discriminate. Qed.

Lemma JSON_document_error v : JSON_document v <> Throw EUndefined.
Proof. destruct v; discriminate. Qed.

Lemma generateFontConfigHash_error fonts : generateFontConfigHash fonts <> Throw EUndefined.
Proof.
  intros H. destruct (generateFontConfigHash_type_error fonts _ H) as [m Hm].
  discriminate Hm.
Qed.

Lemma hasFontConfigChanged_error fonts st : hasFontConfigChanged fonts st <> Throw EUndefined.
Proof.
  unfold hasFontConfigChanged.
  destruct (generateFontConfigHash fonts) as [h|e] eqn:Hh; simpl.
  - destruct (js_get st "configHash") as [c|e] eqn:Hc; simpl; [discriminate|].
    intros [= ->]. exact (js_get_error _ _ Hc).
  - intros [= ->]. exact (generateFontConfigHash_error _ Hh).
Qed.

Lemma steady_download_attempt url t : steady (download_attempt url t).
Proof.
  intros w. pose proof (timer_delay_pos t). unfold download_attempt, try_catch, bind, fetch.
  destruct (remote w (length (net_log w)) url) as [m| |st tx [c|]]; simpl;
    try (destruct (response_ok st); simpl);
    (split; [grows_now|discriminate]).
Qed.

Lemma steady_retry_loop {A} (fn : M A) maxR base n :
  steady fn ->
  forall a e0, e0 <> EUndefined \/ (0 < n)%nat -> steady (retry_loop fn maxR base a n e0).
Proof.
  intros Hfn. induction n as [|n IH]; intros a e0 He0.
  - destruct He0 as [He0|Hn]; [|lia]. simpl. now apply steady_throw.
  - rewrite retry_loop_S. apply steady_try_catch; [exact Hfn|].
    intros e He. apply steady_bind; [apply steady_when, steady_sleep|].
    intros _. apply IH. now left.
Qed.

Lemma steady_downloadFont url opts :
  0 <= retries_of opts -> steady (downloadFont url opts).
Proof.
  intros Hmax. unfold downloadFont, retryWithBackoff.
  apply steady_retry_loop; [apply steady_download_attempt|].
  right. fold (retries_of opts). lia.
Qed.

Lemma steady_getFontCacheStatePath : steady getFontCacheStatePath.
Proof.
  unfold getFontCacheStatePath.
  apply steady_bind; [apply steady_existsSync|]. intros present.
  apply steady_bind; [|intros; apply steady_ret].
  apply steady_when, steady_mkdir_from.
Qed.

Lemma steady_loadFontCacheState : steady loadFontCacheState.
Proof.
  unfold loadFontCacheState.
  apply steady_bind; [apply steady_getFontCacheStatePath|]. intros stateFile.
  apply steady_bind; [apply steady_existsSync|]. intros present.
  apply steady_if; [apply steady_ret|].
  apply steady_try_catch.
  - apply steady_bind; [apply steady_readFileSync|]. intros text.
    apply steady_lift, JSON_parse_error.
  - intros e He. apply steady_bind; [apply steady_lift, err_message_defined, He|].
    intros message. apply steady_bind; [apply steady_log|]. intros; apply steady_ret.
Qed.

Lemma steady_saveFontCacheState state : steady (saveFontCacheState state).
Proof.
  unfold saveFontCacheState.
  apply steady_bind; [apply steady_getFontCacheStatePath|]. intros stateFile.
  apply steady_try_catch.
  - apply steady_bind; [apply steady_lift, JSON_document_error|]. intros text.
    apply steady_writeFileSync.
  - intros e He. apply steady_log.
Qed.

Lemma steady_recorded_file_exists recorded : steady (recorded_file_exists recorded).
Proof.
  unfold recorded_file_exists. apply steady_if; [apply steady_ret|].
  apply steady_bind; [apply steady_lift, basename_error|]. intros fileName.
  apply steady_existsSync.
Qed.

Lemma steady_cached_font_exists font : steady (cached_font_exists font).
Proof.
  unfold cached_font_exists.
  apply steady_bind; [apply steady_lift, js_get_error|]. intros woff.
  apply steady_bind; [apply steady_recorded_file_exists|]. intros woffExists.
  apply steady_bind; [apply steady_lift, js_get_error|]. intros woff2.
  apply steady_bind; [apply steady_recorded_file_exists|]. intros woff2Exists.
  apply steady_ret.
Qed.

Lemma steady_every cb l : (forall x, steady (cb x)) -> steady (every cb l).
Proof.
  intros Hcb. induction l as [|x l IH]; simpl; [apply steady_ret|].
  apply steady_bind; [apply Hcb|]. intros ok. apply steady_if; [exact IH|apply steady_ret].
Qed.

Lemma steady_use_cache cacheState : steady (use_cache cacheState).
Proof.
  unfold use_cache.
  apply steady_bind; [apply steady_lift, js_get_error|]. intros cachedFonts.
  apply steady_bind; [apply steady_lift, js_get_error|]. intros len.
  apply steady_bind; [apply steady_js_gt_zero|]. intros nonEmpty.
  apply steady_if; [apply steady_ret|].
  apply steady_bind; [apply steady_js_to_string|]. intros count.
  apply steady_bind; [apply steady_log|]. intros _.
  apply steady_bind; [apply steady_lift, js_get_error|]. intros lastSync.
  apply steady_bind; [apply steady_js_to_string|]. intros shown.
  apply steady_bind; [apply steady_log|]. intros _.
  apply steady_bind; [apply steady_lift, js_array_error|]. intros l.
  apply steady_bind; [apply steady_every, steady_cached_font_exists|]. intros allFilesExist.
  apply steady_if.
  - apply steady_bind; [apply steady_lift, JSON_document_error|]. intros text.
    apply steady_bind; [apply steady_writeFileSync|]. intros _. apply steady_ret.
  - apply steady_bind; [apply steady_log|]. intros _. apply steady_ret.
Qed.

Lemma steady_clean_fonts names : steady (clean_fonts names).
Proof.
  induction names as [|file rest IH]; simpl; [apply steady_ret|].
  apply steady_bind; [apply steady_when, steady_unlinkSync|]. intros _. exact IH.
Qed.

Lemma steady_download_format f fontName url opts :
  0 <= retries_of opts -> steady (download_format f fontName url opts).
Proof.
  intros Hmax. unfold download_format. apply steady_if; [apply steady_ret|].
  apply steady_try_catch.
  - apply steady_bind; [apply steady_js_to_string|]. intros name.
    apply steady_bind; [apply steady_log|]. intros _.
    apply steady_bind; [now apply steady_downloadFont|]. intros buffer.
    apply steady_bind; [apply steady_lift, basename_error|]. intros fileName.
    apply steady_bind; [apply steady_writeFileSync|]. intros _.
    apply steady_bind; [apply steady_log|]. intros _. apply steady_ret.
  - intros e He.
    apply steady_bind; [apply steady_js_to_string|]. intros name.
    apply steady_bind; [apply steady_lift, err_message_defined, He|]. intros message.
    apply steady_bind; [apply steady_log|]. intros _. apply steady_ret.
Qed.

Lemma steady_process_font opts fonts i font :
  0 <= retries_of opts -> steady (process_font opts fonts i font).
Proof.
  intros Hmax. unfold process_font.
  apply steady_bind; [apply steady_lift, js_get_error|]. intros fontName.
  apply steady_bind; [apply steady_lift, js_get_error|]. intros url1.
  apply steady_bind; [now apply steady_download_format|]. intros woffPath.
  apply steady_bind; [apply steady_lift, js_get_error|]. intros url2.
  apply steady_bind; [now apply steady_download_format|]. intros woff2Path.
  apply steady_bind.
  - apply steady_if; [apply steady_ret|].
    apply steady_bind; [apply steady_js_to_string|]. intros name.
    apply steady_bind; [apply steady_log|]. intros _. apply steady_ret.
  - intros entry. apply steady_bind; [apply steady_when, steady_sleep|].
    intros _. apply steady_ret.
Qed.

Lemma steady_download_loop opts fonts rest :
  0 <= retries_of opts ->
  forall i fontData successCount skipCount,
    steady (download_loop opts fonts rest i fontData successCount skipCount).
Proof.
  intros Hmax. induction rest as [|font rest IH]; intros i fontData sc kc; simpl.
  - apply steady_ret.
  - apply steady_bind; [now apply steady_process_font|]. intros [e|]; apply IH.
Qed.

Lemma steady_download_all fonts opts changed :
  0 <= retries_of opts -> steady (download_all fonts opts changed).
Proof.
  intros Hmax. unfold download_all.
  apply steady_bind; [apply steady_log|]. intros _.
  apply steady_bind; [apply steady_readdirSync|]. intros names.
  apply steady_bind; [apply steady_clean_fonts|]. intros _.
  apply steady_bind; [apply steady_log|]. intros _.
  apply steady_bind; [apply steady_lift, js_array_error|]. intros l.
  apply steady_bind; [now apply steady_download_loop|]. intros [[fontData sc] kc].
  apply steady_bind; [apply steady_lift, JSON_document_error|]. intros text.
  apply steady_bind; [apply steady_writeFileSync|]. intros _.
  apply steady_bind; [apply steady_now_iso|]. intros lastSync.
  apply steady_bind; [apply steady_lift, generateFontConfigHash_error|]. intros configHash.
  apply steady_bind; [apply steady_saveFontCacheState|]. intros _.
  apply steady_bind; [apply steady_log|]. intros _.
  apply steady_bind; [apply steady_when, steady_log|]. intros _.
  apply steady_ret.
Qed.

Lemma steady_downloadFontsWithCache fonts options :
  0 <= retries_of (merge_options defaultOptions options) ->
  steady (downloadFontsWithCache fonts options).
Proof.
  intros Hmax. unfold downloadFontsWithCache.
  apply steady_bind; [apply steady_existsSync|]. intros present.
  apply steady_bind; [apply steady_when, steady_mkdir_from|]. intros _.
  apply steady_bind; [apply steady_loadFontCacheState|]. intros cacheState.
  apply steady_bind; [apply steady_lift, hasFontConfigChanged_error|]. intros configChanged.
  apply steady_bind.
  - apply steady_if; [apply steady_use_cache|apply steady_ret].
  - intros [cachedFonts|]; [apply steady_ret|now apply steady_download_all].
Qed.

Lemma steady_fetch_and_download API_URL globalOptions fontOptions :
  0 <= retries_of globalOptions ->
  0 <= retries_of (merge_options defaultOptions fontOptions) ->
  steady (fetch_and_download API_URL globalOptions fontOptions).
Proof.
  intros Hg Hf. unfold fetch_and_download.
  apply steady_bind; [now apply steady_downloadFont|]. intros globalBuffer.
  apply steady_bind; [apply steady_lift, JSON_parse_error|]. intros global.
  apply steady_bind; [apply steady_lift, js_get_error|]. intros fonts.
  apply steady_bind.
  - apply steady_if; [apply steady_lift, js_get_error|apply steady_ret].
  - intros len. apply steady_if.
    + apply steady_bind; [apply steady_existsSync|]. intros present.
      apply steady_bind; [apply steady_when, steady_mkdir_from|]. intros _.
      apply steady_bind; [apply steady_lift, JSON_document_error|]. intros text.
      apply steady_bind; [apply steady_writeFileSync|]. intros _.
      apply steady_bind; [apply steady_log|]. intros _. apply steady_ret.
    + apply steady_bind; [now apply steady_downloadFontsWithCache|]. intros _.
      apply steady_ret.
Qed.

(** X13.  Whatever it is given and whatever the origin and the file system
    do, [downloadFontsWithCache] with a retry budget that is not negative
    only moves forward: the environment variables are untouched, no
    directory is removed, the requests, delays and console lines of before
    are all still there, and the clock has not gone back.  If it raises,
    what it raises is an error object, never [undefined]. *)
Theorem downloadFontsWithCache_moves_forward (fonts : jsval) (options : Options)
    (w : World) :
  0 <= retries_of (merge_options defaultOptions options) ->
  env (snd (downloadFontsWithCache fonts options w)) = env w
  /\ dirs w ⊆ dirs (snd (downloadFontsWithCache fonts options w))
  /\ net_log w `prefix_of` net_log (snd (downloadFontsWithCache fonts options w))
  /\ sleeps w `prefix_of` sleeps (snd (downloadFontsWithCache fonts options w))
  /\ console w `prefix_of` console (snd (downloadFontsWithCache fonts options w))
  /\ clock w <= clock (snd (downloadFontsWithCache fonts options w))
  /\ fst (downloadFontsWithCache fonts options w) <> Throw EUndefined.
Proof.
  intros Hmax.
  destruct (steady_downloadFontsWithCache fonts options Hmax w)
    as (((He & _) & Hd & Hn & Hs & Hc & Hk) & Hr).
  auto 10.
Qed.

Lemma downloadFontsWithCache_moves_forward_witness :
  [LogRestoring] `prefix_of`
    console (snd (downloadFontsWithCache JNull noOptions
                    (snd (log LogRestoring (empty_world origin_404)))))
  /\ fst (downloadFontsWithCache JNull noOptions
            (snd (log LogRestoring (empty_world origin_404))))
     <> Throw EUndefined.
Proof.
  destruct (downloadFontsWithCache_moves_forward JNull noOptions
              (snd (log LogRestoring (empty_world origin_404))))
    as (_ & _ & _ & _ & Hc & _ & Hr).
  - unfold retries_of. simpl. lia.
  - split; [exact Hc|exact Hr].
Defined.

(** ** The entry points *)

(** X14.  In development mode and on Netlify the Astro hook does nothing
    but print one line: whatever the options, the origin and the state of
    the working directory, it returns normally and leaves files,
    directories, requests and clock as they were. *)
Theorem astro_hook_skips (userOptions : Options) (w : World) :
  env w !! "NODE_ENV" = Some "development" \/ env_set (env w !! "NETLIFY") = true ->
  exists line,
    astro_config_setup userOptions w = (Ok tt, set_console (console w ++ [line]) w)
    /\ (line = LogDevelopmentSkip \/ line = LogNetlifySkip).
Proof.
  intros Hmode. unfold astro_config_setup, bind, getenv.
  destruct (bool_decide (env w !! "NODE_ENV" = Some "development")) eqn:Hdev.
  - exists LogDevelopmentSkip. split; [reflexivity|auto].
  - destruct Hmode as [Hd|Hn].
    + apply bool_decide_eq_false in Hdev. contradiction.
    + rewrite Hn. exists LogNetlifySkip. split; [reflexivity|auto].
Qed.

Lemma astro_hook_skips_witness :
  exists line,
    astro_config_setup noOptions dev_world
    = (Ok tt, set_console (console dev_world ++ [line]) dev_world)
    /\ (line = LogDevelopmentSkip \/ line = LogNetlifySkip).
Proof.
  apply (astro_hook_skips noOptions dev_world). left. reflexivity.
Defined.

Lemma guarded_steady (body : M unit) (entry : string -> LogEntry) w :
  steady body ->
  exists w',
    try_catch body
      (fun error => let* message := lift (err_message error) in log (entry message)) w
    = (Ok tt, w')
    /\ grows w w'.
Proof.
  intros Hst. unfold try_catch. destruct (Hst w) as (Hg & Hr).
  destruct (body w) as [[[]|e] w1]; simpl in *.
  - exists w1. auto.
  - destruct e; try congruence; eexists; (split; [reflexivity|]);
      (refine (grows_trans _ _ _ Hg _); grows_now).
Qed.

Lemma steady_restore_block utils cacheStatePath :
  utils_steady utils ->
  steady (let* _ := cache_restore utils fontsDir in
          let* _ := cache_restore utils cacheStatePath in
          let* present := existsSync cacheStatePath in
          if present then
            let* state := loadFontCacheState in
            let* fontCount := lift (restored_font_count state) in
            let* positive := js_gt_zero fontCount in
            when positive (log (LogRestored fontCount))
          else log LogNoCachedFonts).
Proof.
  intros [Hrestore _].
  apply steady_bind; [apply Hrestore|]. intros _.
  apply steady_bind; [apply Hrestore|]. intros _.
  apply steady_bind; [apply steady_existsSync|]. intros present.
  apply steady_if; [|apply steady_log].
  apply steady_bind; [apply steady_loadFontCacheState|]. intros state.
  apply steady_bind; [apply steady_lift, restored_font_count_error|]. intros fontCount.
  apply steady_bind; [apply steady_js_gt_zero|]. intros positive.
  apply steady_when, steady_log.
Qed.

Lemma steady_origin_block (globalOptions fontOptions : Options) (k : bool -> M unit) :
  0 <= retries_of globalOptions ->
  0 <= retries_of (merge_options defaultOptions fontOptions) ->
  (forall b, steady (k b)) ->
  steady (let* API_URL := getenv "KIRBY_URL" in
          if negb (env_set API_URL) then log LogKirbyUrlNotSet
          else
            let* downloaded := fetch_and_download (default EmptyString API_URL)
                                 globalOptions fontOptions in
            k downloaded).
Proof.
  intros Hg Hf Hk.
  apply steady_bind; [apply steady_getenv|]. intros API_URL.
  apply steady_if; [apply steady_log|].
  apply steady_bind; [now apply steady_fetch_and_download|]. exact Hk.
Qed.

(** X15.  On Netlify the fonts never fail the build: once its state
    directory is there, [onPreBuild] returns normally whatever the origin
    answers and whatever the file system refuses, having printed the error
    it ran into.  Outside Netlify it returns normally or raises an error
    object. *)
Theorem onPreBuild_keeps_building (utils : Utils) (w : World) :
  state_dir_available w = true ->
  utils_steady utils ->
  exists r w',
    onPreBuild utils w = (r, w')
    /\ grows w w'
    /\ r <> Throw EUndefined
    /\ (env_set (env w !! "NETLIFY") = true -> r = Ok tt).
Proof.
  intros Hav Hutils. unfold onPreBuild. mstep.
  set (w0 := set_console _ w).
  assert (Hg0 : grows w w0) by (subst w0; grows_now).
  assert (Hav0 : state_dir_available w0 = true) by exact Hav.
  rewrite (bind_ok _ _ _ _ _ (getFontCacheStatePath_ok w0 Hav0)).
  assert (Hg1 : grows w0 (with_state_dir w0)).
  { pose proof (steady_getFontCacheStatePath w0) as [Hg _].
    now rewrite (getFontCacheStatePath_ok w0 Hav0) in Hg. }
  match goal with
  | |- context [bind (try_catch ?body ?h)] =>
      destruct (guarded_steady body LogRestoreFailed (with_state_dir w0))
        as (w2 & Hblock & Hg2)
  end.
  { now apply steady_restore_block. }
  rewrite (bind_ok _ _ _ _ _ Hblock).
  assert (Hgw2 : grows w w2) by (eapply grows_trans; [|exact Hg2]; eapply grows_trans; eauto).
  match goal with
  | |- context [try_catch ?body ?h w2] =>
      pose proof (steady_origin_block (mkOptions (Some 30000) (Some 3) (Some 1000)) noOptions
                    (fun _ => ret tt) ltac:(unfold retries_of; simpl; lia)
                    ltac:(unfold retries_of; simpl; lia)
                    ltac:(intros; apply steady_ret) w2) as [Hg3 Hr3];
      unfold try_catch;
      change (fst (body w2) <> Throw EUndefined) in Hr3;
      change (grows w2 (snd (body w2))) in Hg3;
      destruct (body w2) as [[[]|e] w3]
  end; simpl in Hg3, Hr3.
  - exists (Ok tt), w3. split; [reflexivity|].
    split; [eapply grows_trans; eauto|]. split; [discriminate|auto].
  - assert (Hne : e <> EUndefined) by congruence.
    assert (Hgw3 : grows w w3) by (eapply grows_trans; eauto).
    assert (Henv : forall m, env (set_console (console w3 ++ [LogError m]) w3) = env w).
    { intros m. simpl. destruct Hgw3 as ((He & _) & _). exact He. }
    destruct (err_message e) as [m|e'] eqn:Hm;
      [|exfalso; destruct e; try discriminate Hm; congruence].
    unfold bind, lift, log, getenv. cbv beta iota. rewrite Henv.
    destruct (env_set (env w !! "NETLIFY")) eqn:Hn.
    + eexists (Ok tt), _. split; [reflexivity|].
      split; [refine (grows_trans _ _ _ Hgw3 _); grows_now;
              rewrite <- app_assoc; apply prefix_app_r; reflexivity|].
      split; [discriminate|auto].
    + eexists (Throw e), _. split; [reflexivity|].
      split; [refine (grows_trans _ _ _ Hgw3 _); grows_now|].
      split; [congruence|discriminate].
Qed.

Lemma onPreBuild_keeps_building_witness :
  fst (onPreBuild empty_cache netlify_world) = Ok tt
  /\ fst (onPreBuild empty_cache local_world) = Throw (EError "HTTP 404: Not Found").
Proof.
  assert (Hutils : utils_steady empty_cache).
  { split; intros p; apply steady_ret. }
  destruct (onPreBuild_keeps_building empty_cache netlify_world
              ltac:(vm_compute; reflexivity) Hutils) as (r & w' & Hrun & _ & _ & Hok).
  split.
  - rewrite Hrun. simpl. apply Hok. vm_compute. reflexivity.
  - vm_compute. reflexivity.
Defined.

(** X16.  [onPostBuild] never fails the build: once its state directory
    is there it returns normally, whatever the build cache raises and
    whatever the file system refuses. *)
Theorem onPostBuild_best_effort (utils : Utils) (w : World) :
  state_dir_available w = true ->
  utils_steady utils ->
  exists w', onPostBuild utils w = (Ok tt, w') /\ grows w w'.
Proof.
  intros Hav [_ Hsave]. unfold onPostBuild. mstep.
  set (w0 := set_console _ w).
  assert (Hg0 : grows w w0) by (subst w0; grows_now).
  assert (Hav0 : state_dir_available w0 = true) by exact Hav.
  rewrite (bind_ok _ _ _ _ _ (getFontCacheStatePath_ok w0 Hav0)).
  assert (Hg1 : grows w0 (with_state_dir w0)).
  { pose proof (steady_getFontCacheStatePath w0) as [Hg _].
    now rewrite (getFontCacheStatePath_ok w0 Hav0) in Hg. }
  match goal with
  | |- context [try_catch ?body ?h] =>
      destruct (guarded_steady body LogSaveCacheFailed (with_state_dir w0))
        as (w2 & Hblock & Hg2)
  end.
  { apply steady_bind; [apply steady_existsSync|]. intros present.
    apply steady_bind.
    - apply steady_if; [|apply steady_ret].
      apply steady_bind; [apply Hsave|]. intros _.
      apply steady_bind; [apply steady_readdirSync|]. intros names. apply steady_log.
    - intros _. apply steady_bind; [apply steady_existsSync|]. intros statePresent.
      apply steady_if; [|apply steady_ret].
      apply steady_bind; [apply Hsave|]. intros _. apply steady_log. }
  exists w2. split; [exact Hblock|].
  eapply grows_trans; [|exact Hg2]. eapply grows_trans; eauto.
Qed.

Lemma onPostBuild_best_effort_witness :
  exists w',
    onPostBuild (mkUtils (fun _ => ret false) (fun _ => throw (EError "cache unavailable")))
      cached_world
    = (Ok tt, w')
    /\ [LogSavingCache] `prefix_of` console w'.
Proof.
  destruct (onPostBuild_best_effort
              (mkUtils (fun _ => ret false) (fun _ => throw (EError "cache unavailable")))
              cached_world ltac:(vm_compute; reflexivity))
    as (w' & Hrun & Hg).
  { split; intros p; [apply steady_ret|apply steady_throw; discriminate]. }
  exists w'. split; [exact Hrun|].
  assert (Hw : w' = snd (onPostBuild
                           (mkUtils (fun _ => ret false)
                                    (fun _ => throw (EError "cache unavailable")))
                           cached_world)) by (now rewrite Hrun).
  rewrite Hw. vm_compute. eexists. reflexivity.
Defined.

(** X17.  In a local production build a failed download of the global
    data fails the build: when the request for [global.json] fails within
    the retry budget, the Astro hook prints the error and raises it again,
    and nothing is written. *)
Theorem astro_hook_rethrows (userOptions : Options) (w : World) (url : string)
    (e : JsError) :
  env w !! "NODE_ENV" <> Some "development" ->
  env_set (env w !! "NETLIFY") = false ->
  env w !! "KIRBY_URL" = Some url ->
  url <> EmptyString ->
  0 <= retries_of (merge_options defaultOptions userOptions) ->
  fst (fetch_outcome (remote w) (merge_options defaultOptions userOptions)
         (JStr (url +:+ "/global.json")) (length (net_log w))) = Throw e ->
  exists w' message,
    astro_config_setup userOptions w = (Throw e, w')
    /\ err_message e = Ok message
    /\ last (console w') = Some (LogError message)
    /\ files w' = files w
    /\ dirs w' = dirs w.
Proof.
  intros Hdev Hnet Hurl Hne Hmax Hfail.
  unfold astro_config_setup.
  set (options := merge_options defaultOptions userOptions) in *.
  unfold bind at 1, getenv at 1.
  destruct (bool_decide (env w !! "NODE_ENV" = Some "development")) eqn:Hd;
    [apply bool_decide_eq_true in Hd; contradiction|].
  unfold bind at 1, getenv at 1. rewrite Hnet. cbn [negb].
  mstep. set (wl := set_console _ w).
  destruct (downloadFont_spec (JStr (url +:+ "/global.json")) options wl Hmax)
    as (w1 & Hrun & _ & _ & _ & Hd1 & Hf1 & Hc1).
  change (remote wl) with (remote w) in Hrun.
  change (net_log wl) with (net_log w) in Hrun.
  rewrite Hfail in Hrun.
  assert (Henvset : env_set (Some url) = true).
  { simpl. apply negb_true_iff. now apply String.eqb_neq. }
  match goal with
  | |- context [try_catch ?body ?h wl] =>
      assert (Hbody : body wl = (Throw e, w1))
  end.
  { unfold bind at 1, getenv at 1. change (env wl) with (env w).
    rewrite Hurl, Henvset. cbn [negb default].
    unfold fetch_and_download.
    rewrite (bind_throw _ _ _ _ _ (bind_throw _ _ _ _ _ Hrun)). reflexivity. }
  rewrite (try_catch_throw _ _ _ _ _ Hbody).
  assert (Hdef : e <> EUndefined).
  { intros ->. apply (fetch_outcome_error (remote w) options
                        (JStr (url +:+ "/global.json")) (length (net_log w)) Hmax).
    exact Hfail. }
  destruct (err_message e) as [m|e'] eqn:Hm;
    [|exfalso; destruct e; try discriminate Hm; congruence].
  unfold bind, lift, log, throw. cbv beta iota.
  eexists _, m. split; [reflexivity|]. split; [reflexivity|].
  simpl. split; [apply last_snoc|]. split; assumption.
Qed.

Lemma astro_hook_rethrows_witness :
  exists w',
    astro_config_setup noOptions local_world = (Throw (EError "HTTP 404: Not Found"), w')
    /\ last (console w') = Some (LogError "HTTP 404: Not Found")
    /\ files w' = files local_world.
Proof.
  destruct (astro_hook_rethrows noOptions local_world "https://cms.example.com"
              (EError "HTTP 404: Not Found"))
    as (w' & message & Hrun & Hm & Hlast & Hfiles & _);
    try (vm_compute; reflexivity); try discriminate.
  exists w'. injection Hm as <-. auto.
Defined.

Lemma mkdir_from_same rest :
  forall base wa wb,
    dirs wb = dirs wa -> files wb = files wa -> io_fault wb = io_fault wa ->
    fst (mkdir_from base rest wb) = fst (mkdir_from base rest wa)
    /\ dirs (snd (mkdir_from base rest wb)) = dirs (snd (mkdir_from base rest wa))
    /\ files (snd (mkdir_from base rest wb)) = files wb
    /\ io_fault (snd (mkdir_from base rest wb)) = io_fault wb
    /\ net_log (snd (mkdir_from base rest wb)) = net_log wb
    /\ console (snd (mkdir_from base rest wb)) = console wb.
Proof.
  induction rest as [|s rest IH]; intros base wa wb Hd Hf Hio; simpl.
  - auto 10.
  - assert (Hisd : is_dir wb (base ++ [s]) = is_dir wa (base ++ [s]))
      by (unfold is_dir; now rewrite Hd).
    assert (Hisf : is_file wb (base ++ [s]) = is_file wa (base ++ [s]))
      by (unfold is_file; now rewrite Hf).
    assert (Hiop : io_fault wb (OpMkdir (base ++ [s])) = io_fault wa (OpMkdir (base ++ [s])))
      by now rewrite Hio.
    rewrite Hisd, Hisf, Hiop.
    destruct (is_dir wa (base ++ [s])); [now apply IH|].
    destruct (is_file wa (base ++ [s])); [simpl; auto 10|].
    destruct (io_fault wa (OpMkdir (base ++ [s]))); [simpl; auto 10|].
    apply (IH (base ++ [s]) (set_dirs ({[base ++ [s]]} ∪ dirs wa) wa)
              (set_dirs ({[base ++ [s]]} ∪ dirs wb) wb)); simpl; congruence.
Qed.

Lemma with_dir_same p wa wb :
  dirs wb = dirs wa -> files wb = files wa -> io_fault wb = io_fault wa ->
  dir_ready wb p = dir_ready wa p
  /\ dirs (with_dir p wb) = dirs (with_dir p wa)
  /\ files (with_dir p wb) = files wb
  /\ io_fault (with_dir p wb) = io_fault wb
  /\ net_log (with_dir p wb) = net_log wb
  /\ console (with_dir p wb) = console wb.
Proof.
  intros Hd Hf Hio.
  destruct (mkdir_from_same p [] wa wb Hd Hf Hio) as (Hr & Hd' & Hf' & Hio' & Hn' & Hc').
  assert (Hisd : is_dir wb p = is_dir wa p) by (unfold is_dir; now rewrite Hd).
  assert (Hisf : is_file wb p = is_file wa p) by (unfold is_file; now rewrite Hf).
  unfold dir_ready, with_dir, mkdirSync_recursive.
  rewrite Hisd, Hisf, Hr.
  split; [reflexivity|].
  destruct (is_dir wa p); auto 10.
Qed.

(** X18.  When the global data names no font (the [font] field is missing,
    null or an empty array), the Astro hook of a local production build
    writes a [fonts.json] with an empty list, creating the fonts directory
    if need be, and stops there: it sends no request but those for
    [global.json] and touches no other file, the cache state included. *)
Theorem astro_hook_without_fonts (userOptions : Options) (w : World) (url : string)
    (global fonts : jsval) (n : nat) :
  env w !! "NODE_ENV" <> Some "development" ->
  env_set (env w !! "NETLIFY") = false ->
  env w !! "KIRBY_URL" = Some url ->
  url <> EmptyString ->
  0 <= retries_of (merge_options defaultOptions userOptions) ->
  fetch_outcome (remote w) (merge_options defaultOptions userOptions)
    (JStr (url +:+ "/global.json")) (length (net_log w)) = (Ok (CJson global), n) ->
  js_get global "font" = Ok fonts ->
  truthy fonts = false \/ fonts = JArr [] ->
  dir_ready w fontsDir = true ->
  write_ok (with_dir fontsDir w) fontsJson = true ->
  exists w',
    astro_config_setup userOptions w = (Ok tt, w')
    /\ files w' = <[fontsJson := CJson (JObj [("fonts", JArr [])])]> (files w)
    /\ net_log w' = net_log w ++ repeat (JStr (url +:+ "/global.json")) n
    /\ last (console w') = Some LogNoFonts.
Proof.
  intros Hdev Hnet Hurl Hne Hmax Hfetch Hfont Hnone Hready Hwrite.
  unfold astro_config_setup.
  set (options := merge_options defaultOptions userOptions) in *.
  unfold bind at 1, getenv at 1.
  destruct (bool_decide (env w !! "NODE_ENV" = Some "development")) eqn:Hd;
    [apply bool_decide_eq_true in Hd; contradiction|].
  unfold bind at 1, getenv at 1. rewrite Hnet. cbn [negb].
  mstep. set (wl := set_console _ w).
  destruct (downloadFont_spec (JStr (url +:+ "/global.json")) options wl Hmax)
    as (w1 & Hrun & Hlog1 & _ & (_ & Hio1 & _) & Hd1 & Hf1 & Hc1).
  change (remote wl) with (remote w) in Hrun, Hlog1.
  change (net_log wl) with (net_log w) in Hrun, Hlog1.
  rewrite Hfetch in Hrun, Hlog1. simpl in Hrun, Hlog1.
  change (dirs wl) with (dirs w) in Hd1. change (files wl) with (files w) in Hf1.
  change (io_fault wl) with (io_fault w) in Hio1.
  assert (Henvset : env_set (Some url) = true).
  { simpl. apply negb_true_iff. now apply String.eqb_neq. }
  destruct (with_dir_same fontsDir w w1 Hd1 Hf1 Hio1)
    as (Hready1 & Hdirs2 & Hfiles2 & Hio2 & Hnet2 & Hcon2).
  rewrite Hready in Hready1.
  assert (Hwrite1 : write_ok (with_dir fontsDir w1) fontsJson = true).
  { destruct (with_dir_same fontsDir w w eq_refl eq_refl eq_refl) as (_ & _ & _ & Hio0 & _).
    unfold write_ok, is_dir in *. now rewrite Hio2, Hdirs2, Hio1, <- Hio0. }
  assert (Hfd : exists w',
             fetch_and_download url options options wl = (Ok false, w')
             /\ files w' = <[fontsJson := CJson (JObj [("fonts", JArr [])])]> (files w)
             /\ net_log w' = net_log w ++ repeat (JStr (url +:+ "/global.json")) n
             /\ last (console w') = Some LogNoFonts).
  { unfold fetch_and_download.
    rewrite (bind_ok _ _ _ _ _ Hrun). cbv beta.
    unfold bind at 1, lift at 1. cbn [JSON_parse]. cbv beta iota.
    unfold bind at 1, lift at 1. rewrite Hfont. cbv beta iota.
    assert (Hlen : (if truthy fonts then lift (js_get fonts "length") else ret JUndef) w1
                   = (Ok (if truthy fonts then JNum 0 else JUndef), w1)).
    { destruct Hnone as [Hf| ->]; [now rewrite Hf|reflexivity]. }
    rewrite (bind_ok _ _ _ _ _ Hlen).
    assert (Hzero : negb (truthy fonts) || js_is_zero (if truthy fonts then JNum 0 else JUndef)
                    = true) by (destruct (truthy fonts); reflexivity).
    rewrite Hzero.
    destruct (ensure_dir_ready fontsDir
                (let* text := lift (JSON_document (JObj [("fonts", JArr [])])) in
                 let* _ := writeFileSync fontsJson text in
                 let* _ := log LogNoFonts in
                 ret false) w1 ltac:(discriminate) Hready1) as (Heq & _ & _).
    rewrite Heq. unfold bind at 1, lift at 1. cbn [JSON_document json_norm List.flat_map app].
    cbv beta iota. unfold bind at 1. rewrite writeFileSync_spec, Hwrite1.
    eexists. split; [reflexivity|]. simpl.
    rewrite Hfiles2, Hf1, Hnet2, Hlog1. split; [reflexivity|]. split; [reflexivity|].
    apply last_snoc. }
  destruct Hfd as (w' & Hfd & Hrest).
  match goal with
  | |- context [try_catch ?body ?h wl] =>
      assert (Hbody : body wl = (Ok tt, w'))
  end.
  { unfold bind at 1, getenv at 1. change (env wl) with (env w).
    rewrite Hurl, Henvset. cbn [negb default].
    rewrite (bind_ok _ _ _ _ _ Hfd). reflexivity. }
  rewrite (try_catch_ok _ _ _ _ _ Hbody). exists w'. split; [reflexivity|exact Hrest].
Qed.

Lemma astro_hook_without_fonts_witness :
  exists w',
    astro_config_setup noOptions fontless_world = (Ok tt, w')
    /\ files w' = {[fontsJson := CJson (JObj [("fonts", JArr [])])]}
    /\ net_log w' = [JStr "https://cms.example.com/global.json"]
    /\ last (console w') = Some LogNoFonts.
Proof.
  destruct (astro_hook_without_fonts noOptions fontless_world "https://cms.example.com"
              (JObj [("title", JStr "Evergreen"); ("font", JArr [])]) (JArr []) 1)
    as (w' & Hrun & Hfiles & Hnet & Hlast);
    try (vm_compute; reflexivity); try discriminate.
  - right. reflexivity.
  - exists w'. split; [exact Hrun|]. split; [|split; [exact Hnet|exact Hlast]].
    rewrite Hfiles. reflexivity.
Defined.

(** ** A cached font whose file is gone *)

Lemma recorded_file_exists_checkable w recorded :
  recorded_checkable recorded = true ->
  recorded_file_exists recorded w = (Ok (recorded_present w recorded), w).
Proof.
  unfold recorded_checkable, recorded_present, recorded_file_exists.
  destruct (truthy recorded) eqn:Ht; simpl; [|reflexivity].
  destruct recorded; try discriminate. intros _. reflexivity.
Qed.

Lemma cached_font_exists_checkable w font :
  entry_checkable font = true ->
  cached_font_exists font w = (Ok (entry_present w font), w).
Proof.
  unfold entry_checkable, entry_present, cached_font_exists.
  destruct (js_get font "woff") as [a|]; [|discriminate].
  destruct (js_get font "woff2") as [b|]; [|discriminate].
  intros H. apply andb_true_iff in H as [Ha Hb].
  unfold bind at 1, lift. unfold bind at 1.
  rewrite (recorded_file_exists_checkable _ _ Ha).
  unfold bind at 1. unfold bind at 1.
  rewrite (recorded_file_exists_checkable _ _ Hb). reflexivity.
Qed.

Lemma every_checkable w l :
  forallb entry_checkable l = true ->
  every cached_font_exists l w = (Ok (forallb (entry_present w) l), w).
Proof.
  induction l as [|font l IH]; simpl; [reflexivity|].
  intros H. apply andb_true_iff in H as [Hf Hl].
  unfold bind. rewrite (cached_font_exists_checkable _ _ Hf).
  destruct (entry_present w font); [now apply IH|reflexivity].
Qed.

Lemma use_cache_missing st l v w :
  js_get st "fonts" = Ok (JArr l) ->
  js_get st "lastSync" = Ok v ->
  displayable w v = true ->
  forallb entry_checkable l = true ->
  forallb (entry_present w) l = false ->
  exists w' printed,
    use_cache st w = (Ok None, w')
    /\ fs_same w w'
    /\ console w' = console w ++ printed ++ [LogMissing].
Proof.
  intros Hfonts Hls Hdisp Hchk Hmiss.
  assert (Hne : l <> []) by (intros ->; discriminate Hmiss).
  assert (Hpos : (0 <? Z.of_nat (length l)) = true).
  { apply Z.ltb_lt. destruct l; [congruence|simpl; lia]. }
  unfold use_cache. rewrite Hfonts, Hls.
  mstep. mstep. rewrite !String.eqb_refl.
  rewrite (bind_ok _ _ _ true w) by (unfold js_gt_zero; now rewrite Hpos).
  change (negb true) with false. cbv iota.
  mstep. mstep.
  set (w1 := set_console _ w).
  mstep.
  destruct (js_to_string_displayable w1 v Hdisp) as [shown Hshown].
  rewrite (bind_ok _ _ _ _ _ Hshown).
  mstep. set (w2 := set_console _ w1).
  mstep.
  rewrite (bind_ok _ _ _ _ _ (every_checkable w2 l Hchk)).
  change (forallb (entry_present w2) l) with (forallb (entry_present w) l).
  rewrite Hmiss. cbv iota. mstep.
  exists (set_console (console w2 ++ [LogMissing]) w2),
         [LogUnchanged (NilZero.string_of_int (Z.to_int (Z.of_nat (length l))));
          LogLastSync shown].
  split; [reflexivity|]. split.
  - unfold fs_same, same_setting. simpl. tauto.
  - simpl. rewrite <- !app_assoc. reflexivity.
Qed.

(** X19.  A cache whose fingerprint matches is still not used when a file
    it records is missing from the fonts directory: the run says so and
    downloads everything again, every URL of the configuration being
    requested, and returns, writes and saves the entries of this new
    download. *)
Theorem missing_file_forces_download (fonts : list jsval) (options : Options) (w : World)
    (st : jsval) (h : string) (l : list jsval) (lastSync : jsval) :
  dir_ready w fontsDir = true ->
  dir_ready w astroDir = true ->
  io_fault w (OpRead stateFile) = false ->
  files w !! stateFile = Some (CJson st) ->
  generateFontConfigHash (JArr fonts) = Ok h ->
  js_get st "configHash" = Ok (JStr h) ->
  js_get st "fonts" = Ok (JArr l) ->
  js_get st "lastSync" = Ok lastSync ->
  displayable w lastSync = true ->
  forallb entry_checkable l = true ->
  forallb (entry_present (prepare w)) l = false ->
  cleaning_succeeds (prepare w) = true ->
  write_ok (prepare w) fontsJson = true ->
  write_ok (prepare w) stateFile = true ->
  forallb (font_ok w) fonts = true ->
  0 <= retries_of (merge_options defaultOptions options) ->
  exists w' newSync,
    downloadFontsWithCache (JArr fonts) options w
    = (Ok (JArr (entries_of
                   (expected_outcomes (remote w) (write_ok (prepare w))
                      (merge_options defaultOptions options) fonts (length (net_log w))))),
       w')
    /\ LogMissing ∈ console w'
    /\ (forall Y u,
          Y ∈ fonts ->
          js_get Y "url1" = Ok u \/ js_get Y "url2" = Ok u ->
          truthy u = true -> u ∈ net_log w')
    /\ files w' !! stateFile
       = Some (CJson (json_norm
                        (JObj [("lastSync", JStr newSync); ("configHash", JStr h);
                               ("fonts",
                                JArr (entries_of
                                        (expected_outcomes (remote w) (write_ok (prepare w))
                                           (merge_options defaultOptions options) fonts
                                           (length (net_log w)))));
                               ("version", JStr "1.0.0")]))).
Proof.
  intros Hfd Had Hrd Hlk Hh Hc Hfonts Hls Hdisp Hchk Hmiss Hclean Hwj Hws Hfok Hretries.
  set (opts := merge_options defaultOptions options) in *.
  destruct (prepare_facts w Hfd Had)
    as (HPf & HPa & HPfiles & ((HPe & HPio & HPr & HPg) & HPn & HPs & HPc & HPk) & Hav1).
  unfold downloadFontsWithCache. fold opts.
  match goal with
  | |- context [bind (existsSync fontsDir) (fun present => bind _ (fun _ => ?k))] =>
      destruct (ensure_dir_ready fontsDir k w ltac:(discriminate) Hfd)
        as (Heq & Hadd1 & Hdir1)
  end.
  rewrite Heq. clear Heq. set (w1 := with_dir fontsDir w) in *.
  assert (Hlk1 : files w1 !! stateFile = Some (CJson st)).
  { destruct Hadd1 as (-> & _). exact Hlk. }
  assert (Hrd1 : io_fault w1 (OpRead stateFile) = false).
  { now rewrite (dirs_added_fault _ _ _ _ Hadd1). }
  rewrite (bind_ok _ _ _ _ _ (loadFontCacheState_parsed w1 st Hav1 Hrd1 Hlk1)).
  change (with_state_dir w1) with (prepare w). set (P := prepare w) in *.
  rewrite (hasFontConfigChanged_same _ _ _ Hh Hc). mstep.
  change (negb false) with true. cbv iota.
  assert (HdispP : displayable P lastSync = true).
  { unfold displayable in *. now rewrite HPg. }
  destruct (use_cache_missing st l lastSync P Hfonts Hls HdispP Hchk Hmiss)
    as (wm & printed & Huse & Hfs & Hcon).
  rewrite (bind_ok _ _ _ _ _ Huse).
  assert (Hfok' : forallb (font_ok P) fonts = true).
  { rewrite forallb_forall in *. intros x Hx.
    rewrite (font_ok_engine w P x HPg). now apply Hfok. }
  destruct (download_all_spec fonts opts false P wm h Hfs HPf HPa Hclean Hwj Hws
              Hfok' Hretries Hh)
    as (w' & newSync & Hrun & _ & Hstate & _ & Hurls).
  rewrite HPr, HPn in Hrun, Hstate.
  exists w', newSync. split; [exact Hrun|]. split; [|split; [exact Hurls|exact Hstate]].
  destruct (steady_download_all (JArr fonts) opts false Hretries wm)
    as ((_ & _ & _ & _ & [more Hmore] & _) & _).
  rewrite Hrun in Hmore. simpl in Hmore.
  rewrite Hmore, Hcon. rewrite !elem_of_app, list_elem_of_singleton. auto.
Qed.

Lemma missing_file_forces_download_witness :
  exists w',
    downloadFontsWithCache cached_config noOptions damaged_cache_world
    = (Ok (JArr cached_fonts), w')
    /\ LogMissing ∈ console w'
    /\ JStr "https://cms.example.com/r.woff" ∈ net_log w'.
Proof.
  destruct (missing_file_forces_download
              [JObj [("name", JStr "Regular"); ("url1", JStr "https://cms.example.com/r.woff");
                     ("url2", JStr "https://cms.example.com/r.woff2")];
               JObj [("name", JStr "Black"); ("url1", JNull);
                     ("url2", JStr "https://cms.example.com/b.woff2")]]
              noOptions damaged_cache_world cached_state
              (match generateFontConfigHash cached_config with
               | Ok h => h
               | Throw _ => EmptyString
               end)
              cached_fonts (JStr "2024-01-10T09:00:00.000Z")
              ltac:(vm_compute; reflexivity) ltac:(vm_compute; reflexivity)
              ltac:(vm_compute; reflexivity) ltac:(vm_compute; reflexivity)
              ltac:(vm_compute; reflexivity) ltac:(vm_compute; reflexivity)
              ltac:(vm_compute; reflexivity) ltac:(vm_compute; reflexivity)
              ltac:(vm_compute; reflexivity) ltac:(vm_compute; reflexivity)
              ltac:(vm_compute; reflexivity) ltac:(vm_compute; reflexivity)
              ltac:(vm_compute; reflexivity) ltac:(vm_compute; reflexivity)
              ltac:(vm_compute; reflexivity)
              ltac:(unfold retries_of; simpl; lia))
    as (w' & newSync & Hrun & Hmissing & Hurls & _).
  exists w'. split; [exact Hrun|]. split; [exact Hmissing|].
  apply (Hurls (JObj [("name", JStr "Regular");
                      ("url1", JStr "https://cms.example.com/r.woff");
                      ("url2", JStr "https://cms.example.com/r.woff2")])
               (JStr "https://cms.example.com/r.woff")).
  - apply list_elem_of_In. simpl. auto.
  - left. reflexivity.
  - reflexivity.
Defined.

(** ** Cleaning the fonts directory *)

Lemma child_name_spec dir p n : child_name dir p = Some n <-> p = dir ++ [n].
Proof.
  unfold child_name. split.
  - destruct (bool_decide (take (length dir) p = dir)) eqn:Ht; [|discriminate].
    apply bool_decide_eq_true in Ht.
    destruct (drop (length dir) p) as [|m [|m' rest]] eqn:Hd; try discriminate.
    intros [= ->]. rewrite <- (take_drop (length dir) p), Ht, Hd. reflexivity.
  - intros ->. rewrite take_app_length, drop_app_length.
    rewrite bool_decide_eq_true_2; reflexivity.
Qed.

Lemma path_join_entry n : entry_name n = true -> path_join fontsDir n = fontsDir ++ [n].
Proof.
  intros Hn. apply andb_true_iff in Hn as [Hp Hs]. apply negb_true_iff in Hs.
  unfold path_join. rewrite (split_slash_plain n Hs).
  apply norm_segs_plain. rewrite fontsDir_eq.
  repeat constructor; assumption.
Qed.

Lemma fonts_child_inj a b : fontsDir ++ [a] = fontsDir ++ [b] -> a = b.
Proof. intros H. apply app_inv_head in H. now injection H. Qed.

Lemma clean_fonts_removes names :
  NoDup names ->
  forall w,
    (forall n, n ∈ names -> n <> "fonts.json" ->
               is_file w (fontsDir ++ [n]) = true
               /\ entry_name n = true
               /\ io_fault w (OpUnlink (fontsDir ++ [n])) = false) ->
    exists w',
      clean_fonts names w = (Ok tt, w')
      /\ dirs w' = dirs w /\ console w' = console w /\ net_log w' = net_log w
      /\ forall p,
           files w' !! p
           = if match child_name fontsDir p with
                | Some n => bool_decide (n ∈ names) && negb (String.eqb n "fonts.json")
                | None => false
                end
             then None else files w !! p.
Proof.
  induction 1 as [|n rest Hnotin Hnd IH]; intros w Hall.
  - exists w. simpl. repeat split; try reflexivity.
    intros p. destruct (child_name fontsDir p); reflexivity.
  - cbn [clean_fonts].
    destruct (String.eqb n "fonts.json") eqn:Hn.
    + apply String.eqb_eq in Hn. subst n. cbn [negb when]. mstep.
      destruct (IH w) as (w' & Hrun & Hd & Hc & Hnet & Hfiles).
      { intros m Hm. apply Hall. now right. }
      exists w'. split; [exact Hrun|]. split; [exact Hd|]. split; [exact Hc|].
      split; [exact Hnet|].
      intros p. rewrite Hfiles. destruct (child_name fontsDir p) as [m|]; [|reflexivity].
      destruct (String.eqb m "fonts.json") eqn:Hm; [now rewrite !andb_false_r|].
      rewrite !andb_true_r. apply String.eqb_neq in Hm.
      destruct (bool_decide (m ∈ rest)) eqn:Hin.
      * apply bool_decide_eq_true in Hin. rewrite bool_decide_eq_true_2; [reflexivity|].
        now right.
      * apply bool_decide_eq_false in Hin. rewrite bool_decide_eq_false_2; [reflexivity|].
        rewrite elem_of_cons. intros [Heq|Hr]; auto.
    + apply String.eqb_neq in Hn. cbn [negb when].
      destruct (Hall n ltac:(left) Hn) as (Hfile & Hname & Hfault).
      assert (Hunlink : unlinkSync (path_join fontsDir n) w
                        = (Ok tt, set_files (delete (fontsDir ++ [n]) (files w)) w)).
      { unfold unlinkSync. rewrite (path_join_entry n Hname), Hfault, Hfile. reflexivity. }
      rewrite (bind_ok _ _ _ _ _ Hunlink).
      set (w1 := set_files _ w).
      destruct (IH w1) as (w' & Hrun & Hd & Hc & Hnet & Hfiles).
      { intros m Hm Hmj. destruct (Hall m ltac:(now right) Hmj) as (Hf & Hnm & Hio).
        split; [|split; [exact Hnm|exact Hio]].
        unfold is_file in *. simpl. rewrite lookup_delete_ne; [exact Hf|].
        intros Heq. apply (fonts_child_inj n m) in Heq. subst m. contradiction. }
      exists w'. split; [exact Hrun|]. split; [exact Hd|]. split; [exact Hc|].
      split; [exact Hnet|].
      intros p. rewrite Hfiles. simpl.
      destruct (child_name fontsDir p) as [m|] eqn:Hchild.
      * apply child_name_spec in Hchild. subst p.
        destruct (String.eqb m "fonts.json") eqn:Hm.
        { rewrite !andb_false_r. apply String.eqb_eq in Hm. subst m.
          apply lookup_delete_ne. intros Heq.
          apply (fonts_child_inj n "fonts.json") in Heq. contradiction. }
        rewrite !andb_true_r.
        destruct (decide (m = n)) as [->|Hmn].
        -- rewrite (bool_decide_eq_true_2 (n ∈ n :: rest)) by now left.
           destruct (bool_decide (n ∈ rest)); [reflexivity|apply lookup_delete_eq].
        -- destruct (bool_decide (m ∈ rest)) eqn:Hin.
           ++ apply bool_decide_eq_true in Hin.
              rewrite bool_decide_eq_true_2; [reflexivity|now right].
           ++ apply bool_decide_eq_false in Hin.
              rewrite bool_decide_eq_false_2
                by (rewrite elem_of_cons; intros [Heq|Hr]; auto).
              apply lookup_delete_ne. intros Heq.
              apply (fonts_child_inj n m) in Heq. congruence.
      * apply lookup_delete_ne. intros <-.
        assert (Hsome : child_name fontsDir ["public"; "fonts"; n] = Some n)
          by (apply child_name_spec; reflexivity).
        congruence.
Qed.

Lemma NoDup_omap_child dir (l : list fpath) :
  NoDup l -> NoDup (omap (child_name dir) l).
Proof.
  induction 1 as [|p l Hnotin Hnd IH]; [constructor|].
  simpl. destruct (child_name dir p) as [n|] eqn:Hn; [|exact IH].
  constructor; [|exact IH].
  intros Hin. apply list_elem_of_omap in Hin as (q & Hq & Hqn).
  apply child_name_spec in Hn, Hqn. subst. contradiction.
Qed.

(** X20.  Before a download the fonts directory is emptied: every file
    directly inside it is removed except [fonts.json], and no other file
    and no directory is touched.  (The directory is taken to hold files
    only, under names the file system allows, and none that the operating
    system refuses to remove.) *)
Theorem cleaning_removes_stale_fonts (w : World) :
  is_dir w fontsDir = true ->
  io_fault w (OpReaddir fontsDir) = false ->
  (forall p, stale_font_file p = true -> io_fault w (OpUnlink p) = false) ->
  (forall n, fontsDir ++ [n] ∉ dirs w) ->
  (forall n, is_file w (fontsDir ++ [n]) = true -> entry_name n = true) ->
  exists w',
    (let* names := readdirSync fontsDir in clean_fonts names) w = (Ok tt, w')
    /\ dirs w' = dirs w
    /\ console w' = console w
    /\ net_log w' = net_log w
    /\ forall p, files w' !! p = if stale_font_file p then None else files w !! p.
Proof.
  intros Hdir Hrd Hunlink Hnodir Hnames.
  unfold bind at 1, readdirSync. rewrite Hrd, Hdir. cbn [negb].
  set (names := omap (child_name fontsDir) (elements (dom (files w) ∪ dirs w))).
  assert (Hmem : forall n, n ∈ names -> is_file w (fontsDir ++ [n]) = true).
  { intros n Hn. apply list_elem_of_omap in Hn as (p & Hp & Hpn).
    apply child_name_spec in Hpn. subst p.
    apply elem_of_elements, elem_of_union in Hp as [Hp|Hp].
    - unfold is_file. apply bool_decide_eq_true. now apply elem_of_dom.
    - exfalso. exact (Hnodir n Hp). }
  destruct (clean_fonts_removes names
              ltac:(apply NoDup_omap_child, NoDup_elements) w)
    as (w' & Hrun & Hd & Hc & Hnet & Hfiles).
  { intros n Hn Hj. split; [now apply Hmem|]. split; [now apply Hnames, Hmem|].
    apply Hunlink. unfold stale_font_file.
    rewrite (proj2 (child_name_spec fontsDir _ n) eq_refl).
    apply negb_true_iff. now apply String.eqb_neq. }
  exists w'. split; [exact Hrun|]. split; [exact Hd|]. split; [exact Hc|].
  split; [exact Hnet|].
  intros p. rewrite Hfiles. unfold stale_font_file.
  destruct (child_name fontsDir p) as [n|] eqn:Hchild; [|reflexivity].
  destruct (String.eqb n "fonts.json"); [now rewrite andb_false_r|].
  rewrite andb_true_r. cbn [negb].
  destruct (bool_decide (n ∈ names)) eqn:Hin; [reflexivity|].
  apply bool_decide_eq_false in Hin.
  destruct (files w !! p) as [c|] eqn:Hlk; [|reflexivity].
  exfalso. apply Hin. apply list_elem_of_omap. exists p. split; [|exact Hchild].
  apply elem_of_elements, elem_of_union. left. apply elem_of_dom. eauto.
Qed.

Lemma cleaning_removes_stale_fonts_witness :
  exists w',
    (let* names := readdirSync fontsDir in clean_fonts names) littered_world = (Ok tt, w')
    /\ files w' !! path_join fontsDir "old.woff" = None
    /\ files w' !! path_join fontsDir "older.woff2" = None
    /\ files w' !! fontsJson = Some (CJson (JObj [("fonts", JArr [])]))
    /\ files w' !! ["public"; "favicon.ico"] = Some (CRaw "icon").
Proof.
  destruct (cleaning_removes_stale_fonts littered_world) as (w' & Hrun & _ & _ & _ & Hfiles).
  - reflexivity.
  - reflexivity.
  - reflexivity.
  - intros n Hn. unfold littered_world in Hn. cbn [dirs] in Hn.
    apply elem_of_union in Hn as [Hn|Hn]; apply elem_of_singleton in Hn;
      apply (f_equal (@length string)) in Hn; rewrite length_app in Hn;
      simpl in Hn; lia.
  - intros n Hn. unfold is_file in Hn. apply bool_decide_eq_true in Hn as [c Hc].
    unfold littered_world in Hc. simpl in Hc.
    repeat (apply lookup_insert_Some in Hc as [[Hk _]|[_ Hc]];
            [vm_compute in Hk; first [discriminate Hk|injection Hk as <-; reflexivity]|]).
    apply lookup_singleton_Some in Hc as [Hk _]. discriminate Hk.
  - exists w'. split; [exact Hrun|]. rewrite !Hfiles. repeat split; reflexivity.
Defined.

Lemma unlinkSync_only_deletes p w w1 :
  unlinkSync p w = (Ok tt, w1) -> files w1 = delete p (files w) /\ dirs w1 = dirs w.
Proof.
  unfold unlinkSync.
  destruct (io_fault w (OpUnlink p)); [discriminate|].
  destruct (is_file w p); [|discriminate].
  intros [= <-]. auto.
Qed.

Lemma clean_fonts_blocked names d :
  d <> "fonts.json" ->
  entry_name d = true ->
  forall w,
    d ∈ names ->
    is_file w (fontsDir ++ [d]) = false ->
    exists e, fst (clean_fonts names w) = Throw e.
Proof.
  intros Hd Hname. induction names as [|n rest IH]; intros w Hin Hnf.
  - apply elem_of_nil in Hin. destruct Hin.
  - cbn [clean_fonts]. unfold bind.
    destruct (String.eqb n "fonts.json") eqn:Hn.
    + apply String.eqb_eq in Hn. subst n. cbn [negb when ret].
      apply elem_of_cons in Hin as [Heq|Hin]; [contradiction|]. now apply IH.
    + cbn [negb when].
      destruct (decide (n = d)) as [->|Hnd].
      * rewrite (path_join_entry d Hname). unfold unlinkSync. rewrite Hnf.
        destruct (io_fault w (OpUnlink (fontsDir ++ [d]))); simpl; eauto.
      * apply elem_of_cons in Hin as [Heq|Hin]; [congruence|].
        destruct (unlinkSync (path_join fontsDir n) w) as [[[]|e] w1] eqn:Hrun;
          [|simpl; eauto].
        apply unlinkSync_only_deletes in Hrun as [Hf _].
        apply IH; [exact Hin|].
        unfold is_file in *. rewrite Hf.
        apply bool_decide_eq_false. apply bool_decide_eq_false in Hnf.
        intros [c Hc]. apply Hnf. exists c.
        apply lookup_delete_Some in Hc. tauto.
Qed.

(** X22.  A directory inside the fonts directory stops every download:
    cleaning tries to remove it like a file, the error is not handled, and
    [downloadFontsWithCache] raises it from its download branch before any
    font is requested. *)
Theorem subdirectory_blocks_download (fonts : jsval) (opts : Options) (changed : bool)
    (w : World) (d : string) :
  fontsDir ++ [d] ∈ dirs w ->
  is_file w (fontsDir ++ [d]) = false ->
  entry_name d = true ->
  d <> "fonts.json" ->
  exists e w',
    download_all fonts opts changed w = (Throw e, w')
    /\ net_log w' = net_log w.
Proof.
  intros Hdir Hnf Hname Hd. unfold download_all. mstep.
  set (w0 := set_console _ w).
  unfold bind at 1, readdirSync.
  change (io_fault w0) with (io_fault w). change (is_dir w0 fontsDir) with (is_dir w fontsDir).
  change (files w0) with (files w). change (dirs w0) with (dirs w).
  destruct (io_fault w (OpReaddir fontsDir)); [eexists _, _; split; reflexivity|].
  destruct (negb (is_dir w fontsDir)); [eexists _, _; split; reflexivity|].
  set (names := omap (child_name fontsDir) (elements (dom (files w) ∪ dirs w))).
  assert (Hin : d ∈ names).
  { apply list_elem_of_omap. exists (fontsDir ++ [d]). split.
    - apply elem_of_elements, elem_of_union. now right.
    - now apply child_name_spec. }
  destruct (clean_fonts_blocked names d Hd Hname w0 Hin Hnf) as [e He].
  destruct (clean_fonts_rel names w0 w0 eq_refl eq_refl eq_refl)
    as (_ & _ & _ & Hnet & _).
  unfold bind at 1.
  destruct (clean_fonts names w0) as [[[]|e'] w1]; simpl in He; [discriminate He|].
  injection He as ->. exists e, w1. split; [reflexivity|exact Hnet].
Qed.

Lemma subdirectory_blocks_download_witness :
  exists w',
    download_all (JArr demo_fonts) defaultOptions true
      (set_dirs ({[fontsDir ++ ["archive"]]} ∪ dirs littered_world) littered_world)
    = (Throw (EFs "EISDIR" ["public"; "fonts"; "archive"]), w')
    /\ net_log w' = [].
Proof.
  destruct (subdirectory_blocks_download (JArr demo_fonts) defaultOptions true
              (set_dirs ({[fontsDir ++ ["archive"]]} ∪ dirs littered_world) littered_world)
              "archive")
    as (e & w' & Hrun & Hnet).
  - apply elem_of_union. left. now apply elem_of_singleton.
  - reflexivity.
  - reflexivity.
  - discriminate.
  - exists w'. split; [|exact Hnet]. rewrite Hrun. f_equal.
    assert (He : fst (download_all (JArr demo_fonts) defaultOptions true
                        (set_dirs ({[fontsDir ++ ["archive"]]} ∪ dirs littered_world)
                           littered_world)) = Throw e) by now rewrite Hrun.
    vm_compute in He. now injection He as <-.
Defined.

(** ** Staying within the fonts directory and the state file *)

Lemma confined_refl w : confined w w.
Proof. split; auto. Qed.

Lemma confined_trans w1 w2 w3 : confined w1 w2 -> confined w2 w3 -> confined w1 w3.
Proof.
  intros [Hf Hd] [Hf' Hd']. split.
  - intros p Hp Hn. rewrite (Hf' p Hp Hn). now apply Hf.
  - intros d Hin. destruct (Hd' d Hin) as [H| ->]; auto.
Qed.

Lemma rooted_same w w' : files w' = files w -> dirs w' = dirs w -> rooted w -> rooted w'.
Proof. unfold rooted, is_dir. intros -> ->. auto. Qed.

Lemma tidy_same {A} (m : M A) :
  (forall w, files (snd (m w)) = files w /\ dirs (snd (m w)) = dirs w) -> tidy m.
Proof.
  intros H w Hr. destruct (H w) as [Hf Hd]. split.
  - exact (rooted_same _ _ Hf Hd Hr).
  - split; [intros; now rewrite Hf|intros d; rewrite Hd; auto].
Qed.

Lemma tidy_ret {A} (a : A) : tidy (ret a).
Proof. apply tidy_same. auto. Qed.

Lemma tidy_throw {A} e : tidy (@throw A e).
Proof. apply tidy_same. auto. Qed.

Lemma tidy_lift {A} (r : Res A) : tidy (lift r).
Proof. apply tidy_same. auto. Qed.

Lemma tidy_log e : tidy (log e).
Proof. apply tidy_same. auto. Qed.

Lemma tidy_sleep d : tidy (sleep d).
Proof. apply tidy_same. auto. Qed.

Lemma tidy_now_iso : tidy now_iso.
Proof. apply tidy_same. auto. Qed.

Lemma tidy_existsSync p : tidy (existsSync p).
Proof. apply tidy_same. auto. Qed.

Lemma tidy_js_gt_zero v : tidy (js_gt_zero v).
Proof. apply tidy_same. auto. Qed.

Lemma tidy_js_to_string v : tidy (js_to_string v).
Proof. apply tidy_same. auto. Qed.

Lemma tidy_readFileSync p : tidy (readFileSync p).
Proof.
  apply tidy_same. intros w. unfold readFileSync.
  destruct (io_fault w (OpRead p)); [auto|]. destruct (files w !! p); auto.
Qed.

Lemma tidy_bind {A B} (m : M A) (k : A -> M B) :
  tidy m -> (forall a, tidy (k a)) -> tidy (bind m k).
Proof.
  intros Hm Hk w Hr. unfold bind. destruct (Hm w Hr) as (Hr1 & Hc1).
  destruct (m w) as [[a|e] w1]; simpl in *; [|auto].
  destruct (Hk a w1 Hr1) as (Hr2 & Hc2). split; [exact Hr2|].
  exact (confined_trans _ _ _ Hc1 Hc2).
Qed.

Lemma tidy_try_catch {A} (m : M A) (h : JsError -> M A) :
  tidy m -> (forall e, tidy (h e)) -> tidy (try_catch m h).
Proof.
  intros Hm Hh w Hr. unfold try_catch. destruct (Hm w Hr) as (Hr1 & Hc1).
  destruct (m w) as [[a|e] w1]; simpl in *; [auto|].
  destruct (Hh e w1 Hr1) as (Hr2 & Hc2). split; [exact Hr2|].
  exact (confined_trans _ _ _ Hc1 Hc2).
Qed.

Lemma tidy_when b (m : M unit) : tidy m -> tidy (when b m).
Proof. destruct b; simpl; [auto|intros _; apply tidy_ret]. Qed.

Lemma tidy_if {A} (b : bool) (m1 m2 : M A) : tidy m1 -> tidy m2 -> tidy (if b then m1 else m2).
Proof. destruct b; auto. Qed.

Lemma tidy_downloadFont url opts : 0 <= retries_of opts -> tidy (downloadFont url opts).
Proof.
  intros Hmax. apply tidy_same. intros w.
  destruct (downloadFont_spec url opts w Hmax) as (w' & Hrun & _ & _ & _ & Hd & Hf & _).
  rewrite Hrun. auto.
Qed.

Lemma fonts_child_not_state n : fontsDir ++ [n] <> stateFile.
Proof. rewrite fontsDir_eq, stateFile_eq. discriminate. Qed.

Lemma fonts_child_not_astro n : fontsDir ++ [n] <> astroDir.
Proof. rewrite fontsDir_eq, astroDir_eq. discriminate. Qed.

Lemma fonts_child_prefix n : fontsDir `prefix_of` fontsDir ++ [n].
Proof. now apply prefix_app_r. Qed.

Lemma rooted_insert w n c :
  entry_name n = true -> rooted w ->
  rooted (set_files (<[fontsDir ++ [n] := c]> (files w)) w).
Proof.
  intros Hn (Hd & Hp & Hnames). split; [exact Hd|]. split; [exact Hp|].
  intros m. simpl. rewrite dom_insert, !elem_of_union, elem_of_singleton.
  intros [[Heq|Hin]|Hin].
  - apply fonts_child_inj in Heq. now subst.
  - apply Hnames. apply elem_of_union. now left.
  - apply Hnames. apply elem_of_union. now right.
Qed.

Lemma confined_insert_child w n c :
  confined w (set_files (<[fontsDir ++ [n] := c]> (files w)) w).
Proof.
  split; [|auto]. intros p _ Hpre. simpl. apply lookup_insert_ne.
  intros <-. apply Hpre. exact (fonts_child_prefix n).
Qed.

Lemma tidy_write_child n c : entry_name n = true -> tidy (writeFileSync (fontsDir ++ [n]) c).
Proof.
  intros Hn w Hr. rewrite writeFileSync_spec.
  destruct (write_ok w (fontsDir ++ [n])); simpl.
  - split; [now apply rooted_insert|apply confined_insert_child].
  - split; [exact Hr|apply confined_refl].
Qed.

Lemma tidy_write_fontsJson c : tidy (writeFileSync fontsJson c).
Proof. apply (tidy_write_child "fonts.json" c). reflexivity. Qed.

Lemma tidy_write_state c : tidy (writeFileSync stateFile c).
Proof.
  intros w Hr. rewrite writeFileSync_spec.
  destruct (write_ok w stateFile); simpl; [|split; [exact Hr|apply confined_refl]].
  split.
  - destruct Hr as (Hd & Hp & Hnames). split; [exact Hd|]. split; [exact Hp|].
    intros m. simpl. rewrite dom_insert, !elem_of_union, elem_of_singleton.
    intros [[Heq|Hin]|Hin].
    + exfalso. exact (fonts_child_not_state m Heq).
    + apply Hnames. apply elem_of_union. now left.
    + apply Hnames. apply elem_of_union. now right.
  - split; [|auto]. intros p Hp _. simpl. apply lookup_insert_ne. congruence.
Qed.

Lemma basename_str_no_slash s : has_slash (basename_str s) = false.
Proof.
  unfold basename_str.
  pose proof (split_slash_no_slash s) as Hall.
  induction (split_slash s) as [|seg segs IH]; [reflexivity|].
  inversion Hall as [|? ? Hseg Hrest]; subst. simpl.
  destruct (negb (String.eqb seg EmptyString)); [|now apply IH].
  simpl. destruct (List.filter _ segs) eqn:Hf; [exact Hseg|]. now apply IH.
Qed.

(** [path.join(fontsDir, path.basename(url))] is a file directly inside
    the fonts directory, the fonts directory itself, or [public]. *)
Lemma path_join_basename s :
  (exists n, entry_name n = true /\ path_join fontsDir (basename_str s) = fontsDir ++ [n])
  \/ path_join fontsDir (basename_str s) = fontsDir
  \/ path_join fontsDir (basename_str s) = ["public"].
Proof.
  pose proof (basename_str_no_slash s) as Hns.
  set (b := basename_str s) in *.
  unfold path_join. rewrite (split_slash_plain b Hns).
  destruct (String.eqb b EmptyString) eqn:He.
  { apply String.eqb_eq in He. rewrite He. right. left. reflexivity. }
  destruct (String.eqb b ".") eqn:Hd.
  { apply String.eqb_eq in Hd. rewrite Hd. right. left. reflexivity. }
  destruct (String.eqb b "..") eqn:Hdd.
  { apply String.eqb_eq in Hdd. rewrite Hdd. right. right. reflexivity. }
  left. exists b.
  assert (Hplain : plain_seg b = true) by (unfold plain_seg; now rewrite He, Hd, Hdd).
  split; [unfold entry_name; now rewrite Hplain, Hns|].
  apply norm_segs_plain. rewrite fontsDir_eq. repeat constructor. exact Hplain.
Qed.

Lemma tidy_write_basename s c :
  tidy (writeFileSync (path_join fontsDir (basename_str s)) c).
Proof.
  destruct (path_join_basename s) as [(n & Hn & ->)|[-> | ->]].
  - now apply tidy_write_child.
  - intros w Hr. rewrite writeFileSync_spec. unfold write_ok.
    destruct Hr as (Hd & Hrest). rewrite Hd, andb_false_r. simpl.
    split; [split; assumption|apply confined_refl].
  - intros w Hr. rewrite writeFileSync_spec. unfold write_ok.
    destruct Hr as (Hd & Hp & Hrest). rewrite Hp, andb_false_r. simpl.
    split; [repeat split; assumption|apply confined_refl].
Qed.

Lemma tidy_unlink_child n : entry_name n = true -> tidy (unlinkSync (path_join fontsDir n)).
Proof.
  intros Hn w Hr. rewrite (path_join_entry n Hn). unfold unlinkSync.
  destruct (io_fault w (OpUnlink (fontsDir ++ [n]))); [split; [exact Hr|apply confined_refl]|].
  destruct (is_file w (fontsDir ++ [n])); [|split; [exact Hr|apply confined_refl]].
  simpl. split.
  - destruct Hr as (Hd & Hp & Hnames). split; [exact Hd|]. split; [exact Hp|].
    intros m. simpl. rewrite dom_delete, !elem_of_union, elem_of_difference.
    intros [[Hin _]|Hin]; apply Hnames; apply elem_of_union; auto.
  - split; [|auto]. intros p _ Hpre. simpl. apply lookup_delete_ne.
    intros <-. apply Hpre. exact (fonts_child_prefix n).
Qed.

Lemma tidy_clean_fonts names :
  Forall (fun n => entry_name n = true) names -> tidy (clean_fonts names).
Proof.
  induction 1 as [|n names Hn _ IH]; simpl; [apply tidy_ret|].
  apply tidy_bind; [apply tidy_when; now apply tidy_unlink_child|]. intros _. exact IH.
Qed.

Lemma tidy_readdir_clean {A} (k : M A) :
  tidy k ->
  tidy (let* names := readdirSync fontsDir in let* _ := clean_fonts names in k).
Proof.
  intros Hk w Hr.
  assert (Hcases : (exists names,
                       readdirSync fontsDir w = (Ok names, w)
                       /\ Forall (fun n => entry_name n = true) names)
                   \/ exists e, readdirSync fontsDir w = (Throw e, w)).
  { unfold readdirSync.
    destruct (io_fault w (OpReaddir fontsDir)); [right; eauto|].
    destruct (negb (is_dir w fontsDir)); [right; eauto|].
    left. eexists. split; [reflexivity|].
    apply Forall_forall. intros n Hn.
    apply list_elem_of_omap in Hn as (p & Hp & Hpn).
    apply child_name_spec in Hpn. subst p.
    apply elem_of_elements in Hp. destruct Hr as (_ & _ & Hnames). now apply Hnames. }
  destruct Hcases as [(names & Hrd & Hall)|(e & Hrd)].
  - rewrite (bind_ok _ _ _ _ _ Hrd).
    apply (tidy_bind (clean_fonts names) (fun _ => k)); [|auto|exact Hr].
    now apply tidy_clean_fonts.
  - rewrite (bind_throw _ _ _ _ _ Hrd). split; [exact Hr|apply confined_refl].
Qed.

Lemma tidy_mkdir_fonts : tidy (mkdirSync_recursive fontsDir).
Proof.
  intros w Hr. destruct Hr as (Hd & Hp & Hnames).
  assert (Hrun : mkdirSync_recursive fontsDir w = (Ok tt, w)).
  { unfold mkdirSync_recursive. rewrite fontsDir_eq in *. cbn [mkdir_from app].
    rewrite Hp. cbn [mkdir_from app]. rewrite Hd. reflexivity. }
  rewrite Hrun. split; [repeat split; assumption|apply confined_refl].
Qed.

Lemma is_dir_add w d p :
  is_dir w p = true -> is_dir (set_dirs ({[d]} ∪ dirs w) w) p = true.
Proof.
  unfold is_dir. simpl. intros H. apply orb_true_iff in H as [H|H].
  - now rewrite H.
  - apply bool_decide_eq_true in H. apply orb_true_iff. right.
    apply bool_decide_eq_true. apply elem_of_union. now right.
Qed.

Lemma tidy_mkdir_astro : tidy (mkdirSync_recursive astroDir).
Proof.
  intros w Hr. unfold mkdirSync_recursive. rewrite astroDir_eq. cbn [mkdir_from app].
  destruct (is_dir w [".astro"]); [split; [exact Hr|apply confined_refl]|].
  destruct (is_file w [".astro"]); [split; [exact Hr|apply confined_refl]|].
  destruct (io_fault w (OpMkdir [".astro"])); [split; [exact Hr|apply confined_refl]|].
  cbn [snd]. split.
  - destruct Hr as (Hd & Hp & Hnames).
    split; [now apply is_dir_add|]. split; [now apply is_dir_add|].
    intros m. simpl. rewrite !elem_of_union, elem_of_singleton.
    intros [Hin|[Heq|Hin]].
    + apply Hnames. apply elem_of_union. now left.
    + exfalso. discriminate Heq.
    + apply Hnames. apply elem_of_union. now right.
  - split; [auto|]. intros d. simpl. rewrite elem_of_union, elem_of_singleton.
    intros [->|Hin]; auto.
Qed.

Lemma tidy_getFontCacheStatePath : tidy getFontCacheStatePath.
Proof.
  unfold getFontCacheStatePath.
  apply tidy_bind; [apply tidy_existsSync|]. intros present.
  apply tidy_bind; [|intros; apply tidy_ret].
  apply tidy_when, tidy_mkdir_astro.
Qed.

Lemma tidy_loadFontCacheState : tidy loadFontCacheState.
Proof.
  unfold loadFontCacheState.
  apply tidy_bind; [apply tidy_getFontCacheStatePath|]. intros stateFile.
  apply tidy_bind; [apply tidy_existsSync|]. intros present.
  apply tidy_if; [apply tidy_ret|].
  apply tidy_try_catch.
  - apply tidy_bind; [apply tidy_readFileSync|]. intros text. apply tidy_lift.
  - intros e. apply tidy_bind; [apply tidy_lift|].
    intros message. apply tidy_bind; [apply tidy_log|]. intros; apply tidy_ret.
Qed.

Lemma tidy_saveFontCacheState state : tidy (saveFontCacheState state).
Proof.
  intros w Hr. unfold saveFontCacheState.
  destruct (state_dir_available w) eqn:Hav.
  - rewrite (bind_ok _ _ _ _ _ (getFontCacheStatePath_ok w Hav)).
    pose proof (tidy_getFontCacheStatePath w Hr) as (Hr1 & Hc1).
    rewrite (getFontCacheStatePath_ok w Hav) in Hr1, Hc1. simpl in Hr1, Hc1.
    assert (Ht : tidy (try_catch
                         (let* text := lift (JSON_document state) in
                          writeFileSync stateFile text)
                         (fun error => log (LogSaveError error)))).
    { apply tidy_try_catch; [|intros; apply tidy_log].
      apply tidy_bind; [apply tidy_lift|]. intros text. apply tidy_write_state. }
    destruct (Ht _ Hr1) as (Hr2 & Hc2). split; [exact Hr2|].
    exact (confined_trans _ _ _ Hc1 Hc2).
  - rewrite (bind_throw _ _ _ _ _ (getFontCacheStatePath_fails w Hav)). simpl.
    split; [exact Hr|apply confined_refl].
Qed.

Lemma tidy_recorded_file_exists recorded : tidy (recorded_file_exists recorded).
Proof.
  unfold recorded_file_exists. apply tidy_if; [apply tidy_ret|].
  apply tidy_bind; [apply tidy_lift|]. intros fileName. apply tidy_existsSync.
Qed.

Lemma tidy_cached_font_exists font : tidy (cached_font_exists font).
Proof.
  unfold cached_font_exists.
  apply tidy_bind; [apply tidy_lift|]. intros woff.
  apply tidy_bind; [apply tidy_recorded_file_exists|]. intros woffExists.
  apply tidy_bind; [apply tidy_lift|]. intros woff2.
  apply tidy_bind; [apply tidy_recorded_file_exists|]. intros woff2Exists.
  apply tidy_ret.
Qed.

Lemma tidy_every cb l : (forall x, tidy (cb x)) -> tidy (every cb l).
Proof.
  intros Hcb. induction l as [|x l IH]; simpl; [apply tidy_ret|].
  apply tidy_bind; [apply Hcb|]. intros ok. apply tidy_if; [exact IH|apply tidy_ret].
Qed.

Lemma tidy_use_cache cacheState : tidy (use_cache cacheState).
Proof.
  unfold use_cache.
  apply tidy_bind; [apply tidy_lift|]. intros cachedFonts.
  apply tidy_bind; [apply tidy_lift|]. intros len.
  apply tidy_bind; [apply tidy_js_gt_zero|]. intros nonEmpty.
  apply tidy_if; [apply tidy_ret|].
  apply tidy_bind; [apply tidy_js_to_string|]. intros count.
  apply tidy_bind; [apply tidy_log|]. intros _.
  apply tidy_bind; [apply tidy_lift|]. intros lastSync.
  apply tidy_bind; [apply tidy_js_to_string|]. intros shown.
  apply tidy_bind; [apply tidy_log|]. intros _.
  apply tidy_bind; [apply tidy_lift|]. intros l.
  apply tidy_bind; [apply tidy_every, tidy_cached_font_exists|]. intros allFilesExist.
  apply tidy_if.
  - apply tidy_bind; [apply tidy_lift|]. intros text.
    apply tidy_bind; [apply tidy_write_fontsJson|]. intros _. apply tidy_ret.
  - apply tidy_bind; [apply tidy_log|]. intros _. apply tidy_ret.
Qed.

Lemma tidy_bind_lift {A B} (r : Res A) (k : A -> M B) :
  (forall a, r = Ok a -> tidy (k a)) -> tidy (bind (lift r) k).
Proof.
  intros H w Hr. unfold bind, lift.
  destruct r as [a|e]; [now apply H|split; [exact Hr|apply confined_refl]].
Qed.

Lemma tidy_download_format f fontName url opts :
  0 <= retries_of opts -> tidy (download_format f fontName url opts).
Proof.
  intros Hmax. unfold download_format. apply tidy_if; [apply tidy_ret|].
  apply tidy_try_catch.
  - apply tidy_bind; [apply tidy_js_to_string|]. intros name.
    apply tidy_bind; [apply tidy_log|]. intros _.
    apply tidy_bind; [now apply tidy_downloadFont|]. intros buffer.
    apply tidy_bind_lift. intros fileName Hfile.
    destruct url; try discriminate Hfile. injection Hfile as <-.
    apply tidy_bind; [apply tidy_write_basename|]. intros _.
    apply tidy_bind; [apply tidy_log|]. intros _. apply tidy_ret.
  - intros e.
    apply tidy_bind; [apply tidy_js_to_string|]. intros name.
    apply tidy_bind; [apply tidy_lift|]. intros message.
    apply tidy_bind; [apply tidy_log|]. intros _. apply tidy_ret.
Qed.

Lemma tidy_process_font opts fonts i font :
  0 <= retries_of opts -> tidy (process_font opts fonts i font).
Proof.
  intros Hmax. unfold process_font.
  apply tidy_bind; [apply tidy_lift|]. intros fontName.
  apply tidy_bind; [apply tidy_lift|]. intros url1.
  apply tidy_bind; [now apply tidy_download_format|]. intros woffPath.
  apply tidy_bind; [apply tidy_lift|]. intros url2.
  apply tidy_bind; [now apply tidy_download_format|]. intros woff2Path.
  apply tidy_bind.
  - apply tidy_if; [apply tidy_ret|].
    apply tidy_bind; [apply tidy_js_to_string|]. intros name.
    apply tidy_bind; [apply tidy_log|]. intros _. apply tidy_ret.
  - intros entry. apply tidy_bind; [apply tidy_when, tidy_sleep|].
    intros _. apply tidy_ret.
Qed.

Lemma tidy_download_loop opts fonts rest :
  0 <= retries_of opts ->
  forall i fontData successCount skipCount,
    tidy (download_loop opts fonts rest i fontData successCount skipCount).
Proof.
  intros Hmax. induction rest as [|font rest IH]; intros i fontData sc kc; simpl.
  - apply tidy_ret.
  - apply tidy_bind; [now apply tidy_process_font|]. intros [e|]; apply IH.
Qed.

Lemma tidy_download_all fonts opts changed :
  0 <= retries_of opts -> tidy (download_all fonts opts changed).
Proof.
  intros Hmax. unfold download_all.
  apply tidy_bind; [apply tidy_log|]. intros _.
  apply tidy_readdir_clean.
  apply tidy_bind; [apply tidy_log|]. intros _.
  apply tidy_bind; [apply tidy_lift|]. intros l.
  apply tidy_bind; [now apply tidy_download_loop|]. intros [[fontData sc] kc].
  apply tidy_bind; [apply tidy_lift|]. intros text.
  apply tidy_bind; [apply tidy_write_fontsJson|]. intros _.
  apply tidy_bind; [apply tidy_now_iso|]. intros lastSync.
  apply tidy_bind; [apply tidy_lift|]. intros configHash.
  apply tidy_bind; [apply tidy_saveFontCacheState|]. intros _.
  apply tidy_bind; [apply tidy_log|]. intros _.
  apply tidy_bind; [apply tidy_when, tidy_log|]. intros _.
  apply tidy_ret.
Qed.

Lemma tidy_downloadFontsWithCache fonts options :
  0 <= retries_of (merge_options defaultOptions options) ->
  tidy (downloadFontsWithCache fonts options).
Proof.
  intros Hmax. unfold downloadFontsWithCache.
  apply tidy_bind; [apply tidy_existsSync|]. intros present.
  apply tidy_bind; [apply tidy_when, tidy_mkdir_fonts|]. intros _.
  apply tidy_bind; [apply tidy_loadFontCacheState|]. intros cacheState.
  apply tidy_bind; [apply tidy_lift|]. intros configChanged.
  apply tidy_bind.
  - apply tidy_if; [apply tidy_use_cache|apply tidy_ret].
  - intros [cachedFonts|]; [apply tidy_ret|now apply tidy_download_all].
Qed.

(** X21.  [downloadFontsWithCache] keeps to its own part of the working
    directory.  Started where the fonts directory exists below [public]
    and holds only properly named entries, it changes, creates or removes
    no file but the cache state file and files inside the fonts directory,
    and creates no directory but the state directory; this whatever the
    configuration names as URLs and whatever the origin sends. *)
Theorem downloadFontsWithCache_confined (fonts : jsval) (options : Options) (w : World) :
  rooted w ->
  0 <= retries_of (merge_options defaultOptions options) ->
  (forall p, p <> stateFile -> ~ fontsDir `prefix_of` p ->
             files (snd (downloadFontsWithCache fonts options w)) !! p = files w !! p)
  /\ (forall d, d ∈ dirs (snd (downloadFontsWithCache fonts options w)) ->
                d ∈ dirs w \/ d = astroDir).
Proof.
  intros Hr Hmax.
  destruct (tidy_downloadFontsWithCache fonts options Hmax w Hr) as (_ & Hc).
  exact Hc.
Qed.

Lemma downloadFontsWithCache_confined_witness :
  files (snd (downloadFontsWithCache (JArr demo_fonts) noOptions project_world))
    !! ["src"; "index.astro"] = Some (CRaw "<html>")
  /\ files (snd (downloadFontsWithCache (JArr demo_fonts) noOptions project_world))
       !! ["public"; "favicon.ico"] = Some (CRaw "icon").
Proof.
  assert (Hr : rooted project_world).
  { split; [reflexivity|]. split; [reflexivity|].
    intros n Hn. unfold project_world in Hn. cbn [files dirs] in Hn.
    apply elem_of_union in Hn as [Hn|Hn].
    - apply elem_of_dom in Hn as [c Hc].
      repeat (apply lookup_insert_Some in Hc as [[Hk _]|[_ Hc]];
              [vm_compute in Hk; first [discriminate Hk|injection Hk as <-; reflexivity]|]).
      apply lookup_singleton_Some in Hc as [Hk _]. discriminate Hk.
    - repeat (apply elem_of_union in Hn as [Hn|Hn]);
        apply elem_of_singleton in Hn; vm_compute in Hn; discriminate Hn. }
  destruct (downloadFontsWithCache_confined (JArr demo_fonts) noOptions project_world Hr)
    as [Hfiles _].
  { unfold retries_of. simpl. lia. }
  split; (rewrite Hfiles; [reflexivity|discriminate|]);
    intros [k Hk]; vm_compute in Hk; discriminate Hk.
Defined.

(** ** File names in the fonts directory *)

Lemma download_format_success f name s opts w c :
  displayable w name = true ->
  0 <= retries_of opts ->
  truthy (JStr s) = true ->
  fst (fetch_outcome (remote w) opts (JStr s) (length (net_log w))) = Ok c ->
  write_ok w (path_join fontsDir (basename_str s)) = true ->
  exists w',
    download_format f name (JStr s) opts w
    = (Ok (Some ("/fonts/" +:+ basename_str s)), w')
    /\ files w' = <[path_join fontsDir (basename_str s) := c]> (files w)
    /\ dirs w' = dirs w
    /\ same_setting w w'
    /\ net_log w'
       = net_log w
         ++ repeat (JStr s) (snd (fetch_outcome (remote w) opts (JStr s) (length (net_log w)))).
Proof.
  intros Hdisp Hretries Htruthy Hres Hwrite. unfold download_format.
  rewrite Htruthy. cbn [negb].
  destruct (js_to_string_same_engine w w name eq_refl Hdisp) as (shown & Hshown & _).
  set (w1 := set_console (console w ++ [logDownloadingFmt f shown]) w).
  destruct (downloadFont_spec (JStr s) opts w1 Hretries)
    as (w2 & Hrun & Hlog & _ & (He & Hf & Hr & Hg) & Hd & Hfi & Hc).
  change (remote w1) with (remote w) in *.
  change (net_log w1) with (net_log w) in *.
  change (env w1) with (env w) in *. change (io_fault w1) with (io_fault w) in *.
  change (engine w1) with (engine w) in *.
  change (dirs w1) with (dirs w) in *. change (files w1) with (files w) in *.
  rewrite Hres in Hrun.
  unfold try_catch.
  rewrite (bind_ok _ _ _ _ _ Hshown). mstep. fold w1.
  rewrite (bind_ok _ _ _ _ _ Hrun).
  simpl basename. mstep.
  unfold bind at 1. rewrite writeFileSync_spec.
  rewrite (write_ok_fs w w2 Hd Hf), Hwrite.
  mstep. eexists. split; [reflexivity|]. simpl.
  rewrite Hfi. unfold same_setting. simpl. auto 10.
Qed.

(** X23.  The file a font is stored in is named after the last segment of
    its URL alone.  When two URLs end in the same name and both downloads
    succeed, both are recorded under the same public path and the file
    holds what the second download brought: the first is overwritten. *)
Theorem same_basename_overwrites (f1 f2 : Format) (name1 name2 : jsval) (s1 s2 : string)
    (opts : Options) (w : World) (c1 c2 : content) :
  basename_str s1 = basename_str s2 ->
  displayable w name1 = true ->
  displayable w name2 = true ->
  0 <= retries_of opts ->
  truthy (JStr s1) = true ->
  truthy (JStr s2) = true ->
  write_ok w (path_join fontsDir (basename_str s1)) = true ->
  fst (fetch_outcome (remote w) opts (JStr s1) (length (net_log w))) = Ok c1 ->
  fst (fetch_outcome (remote w) opts (JStr s2)
         (length (net_log w)
          + snd (fetch_outcome (remote w) opts (JStr s1) (length (net_log w))))) = Ok c2 ->
  exists w',
    (let* first := download_format f1 name1 (JStr s1) opts in
     let* second := download_format f2 name2 (JStr s2) opts in
     ret (first, second)) w
    = (Ok (Some ("/fonts/" +:+ basename_str s1), Some ("/fonts/" +:+ basename_str s1)), w')
    /\ files w' = <[path_join fontsDir (basename_str s1) := c2]> (files w).
Proof.
  intros Hbase Hd1 Hd2 Hretries Ht1 Ht2 Hwrite Hres1 Hres2.
  destruct (download_format_success f1 name1 s1 opts w c1 Hd1 Hretries Ht1 Hres1 Hwrite)
    as (w1 & Hrun1 & Hfiles1 & Hdirs1 & (He1 & Hio1 & Hr1 & Hg1) & Hlog1).
  rewrite (bind_ok _ _ _ _ _ Hrun1).
  assert (Hlen : length (net_log w1)
                 = (length (net_log w)
                    + snd (fetch_outcome (remote w) opts (JStr s1) (length (net_log w))))%nat).
  { rewrite Hlog1, length_app, repeat_length. reflexivity. }
  destruct (download_format_success f2 name2 s2 opts w1 c2)
    as (w2 & Hrun2 & Hfiles2 & _); auto.
  - unfold displayable in *. now rewrite Hg1.
  - now rewrite Hr1, Hlen.
  - rewrite (write_ok_fs w w1 Hdirs1 Hio1), <- Hbase. exact Hwrite.
  - rewrite (bind_ok _ _ _ _ _ Hrun2). exists w2. rewrite <- Hbase in *.
    split; [reflexivity|]. rewrite Hfiles2, Hfiles1. apply insert_insert_eq.
Qed.

Lemma same_basename_overwrites_witness :
  exists w',
    (let* first := download_format Woff (JStr "A")
                     (JStr "https://cms.example.com/media/a/font.woff") noOptions in
     let* second := download_format Woff (JStr "B")
                      (JStr "https://cms.example.com/media/b/font.woff") noOptions in
     ret (first, second)) twin_world
    = (Ok (Some "/fonts/font.woff", Some "/fonts/font.woff"), w')
    /\ files w' = {[path_join fontsDir "font.woff" := CRaw "second"]}.
Proof.
  destruct (same_basename_overwrites Woff Woff (JStr "A") (JStr "B")
              "https://cms.example.com/media/a/font.woff"
              "https://cms.example.com/media/b/font.woff"
              noOptions twin_world (CRaw "first") (CRaw "second"))
    as (w' & Hrun & Hfiles); try reflexivity.
  { unfold retries_of. simpl. lia. }
  exists w'. split; [exact Hrun|]. rewrite Hfiles. reflexivity.
Defined.

(** ** A cache hit without write access *)

Lemma use_cache_unwritable st l v w :
  js_get st "fonts" = Ok (JArr l) ->
  l <> [] ->
  js_get st "lastSync" = Ok v ->
  displayable w v = true ->
  forallb (entry_present w) l = true ->
  write_ok w fontsJson = false ->
  exists e w',
    use_cache st w = (Throw (EFs e fontsJson), w')
    /\ files w' = files w /\ net_log w' = net_log w.
Proof.
  intros Hfonts Hne Hls Hdisp Hpres Hwrite.
  assert (Hpos : (0 <? Z.of_nat (length l)) = true).
  { apply Z.ltb_lt. destruct l; [congruence|simpl; lia]. }
  unfold use_cache. rewrite Hfonts, Hls.
  mstep. mstep. rewrite !String.eqb_refl.
  rewrite (bind_ok _ _ _ true w) by (unfold js_gt_zero; now rewrite Hpos).
  change (negb true) with false. cbv iota.
  mstep. mstep.
  set (w1 := set_console _ w).
  mstep.
  destruct (js_to_string_displayable w1 v Hdisp) as [shown Hshown].
  rewrite (bind_ok _ _ _ _ _ Hshown).
  mstep. set (w2 := set_console _ w1).
  mstep.
  rewrite (bind_ok _ _ _ _ _ (every_present w2 l Hpres)).
  mstep.
  unfold bind. rewrite writeFileSync_spec.
  change (write_ok w2 fontsJson) with (write_ok w fontsJson). rewrite Hwrite.
  eexists _, _. split; [reflexivity|]. split; reflexivity.
Qed.

(** X24.  A cache hit is not read-only: the branch rewrites [fonts.json]
    outside any handler, so where that file cannot be written the run
    raises the error of the write, although the configuration is unchanged
    and every cached font is in place.  Nothing is downloaded and no file
    changes. *)
Theorem cache_hit_needs_write_access (fonts : jsval) (options : Options) (w : World)
    (st : jsval) (h : string) (l : list jsval) (lastSync : jsval) :
  dir_ready w fontsDir = true ->
  dir_ready w astroDir = true ->
  io_fault w (OpRead stateFile) = false ->
  files w !! stateFile = Some (CJson st) ->
  generateFontConfigHash fonts = Ok h ->
  js_get st "configHash" = Ok (JStr h) ->
  js_get st "fonts" = Ok (JArr l) ->
  l <> [] ->
  js_get st "lastSync" = Ok lastSync ->
  displayable w lastSync = true ->
  forallb (entry_present w) l = true ->
  write_ok (prepare w) fontsJson = false ->
  exists code w',
    downloadFontsWithCache fonts options w = (Throw (EFs code fontsJson), w')
    /\ net_log w' = net_log w
    /\ files w' = files w.
Proof.
  intros Hfd Had Hrd Hlk Hh Hc Hfonts Hne Hls Hdisp Hpres Hwrite.
  unfold downloadFontsWithCache.
  match goal with
  | |- context [bind (existsSync fontsDir) (fun present => bind _ (fun _ => ?k))] =>
      destruct (ensure_dir_ready fontsDir k w ltac:(discriminate) Hfd)
        as (Heq & Hadd1 & Hdir1)
  end.
  set (w1 := with_dir fontsDir w) in *.
  rewrite Heq. clear Heq.
  pose proof (with_state_dir_added w1) as Hadd2.
  change (prepare w) with (with_state_dir w1) in Hwrite.
  set (w2 := with_state_dir w1) in *.
  assert (Hav1 : state_dir_available w1 = true).
  { apply (state_dir_available_mono _ _ _ Hadd1), dir_ready_state_dir, Had. }
  assert (Hlk1 : files w1 !! stateFile = Some (CJson st)).
  { destruct Hadd1 as (-> & _). exact Hlk. }
  assert (Hrd1 : io_fault w1 (OpRead stateFile) = false).
  { now rewrite (dirs_added_fault _ _ _ _ Hadd1). }
  rewrite (bind_ok _ _ _ _ _ (loadFontCacheState_parsed w1 st Hav1 Hrd1 Hlk1)).
  fold w2.
  rewrite (hasFontConfigChanged_same _ _ _ Hh Hc). mstep.
  change (negb false) with true. cbv iota.
  destruct (use_cache_unwritable st l lastSync w2 Hfonts Hne Hls)
    as (code & w' & Hrun & Hfiles & Hnet).
  - rewrite (displayable_quiet w1 w2), (displayable_quiet w w1); [exact Hdisp| |].
    + destruct Hadd1 as (_ & Hq & _). exact Hq.
    + destruct Hadd2 as (_ & Hq & _). exact Hq.
  - apply (entry_present_mono _ _ _ _ Hadd2), (entry_present_mono _ _ _ _ Hadd1), Hpres.
  - exact Hwrite.
  - rewrite (bind_throw _ _ _ _ _ Hrun). exists code, w'.
    destruct Hadd1 as (Hf1 & (_ & Hn1 & _) & _).
    destruct Hadd2 as (Hf2 & (_ & Hn2 & _) & _).
    split; [reflexivity|]. split; congruence.
Qed.

Lemma cache_hit_needs_write_access_witness :
  exists w',
    downloadFontsWithCache cached_config noOptions readonly_index_world
    = (Throw (EFs "EACCES" ["public"; "fonts"; "fonts.json"]), w')
    /\ net_log w' = []
    /\ files w' = files readonly_index_world.
Proof.
  destruct (cache_hit_needs_write_access cached_config noOptions readonly_index_world
              cached_state
              (match generateFontConfigHash cached_config with
               | Ok h => h
               | Throw _ => EmptyString
               end)
              cached_fonts (JStr "2024-01-10T09:00:00.000Z")
              ltac:(vm_compute; reflexivity) ltac:(vm_compute; reflexivity)
              ltac:(vm_compute; reflexivity) ltac:(vm_compute; reflexivity)
              ltac:(vm_compute; reflexivity) ltac:(vm_compute; reflexivity)
              ltac:(vm_compute; reflexivity) ltac:(discriminate)
              ltac:(vm_compute; reflexivity) ltac:(vm_compute; reflexivity)
              ltac:(vm_compute; reflexivity) ltac:(vm_compute; reflexivity))
    as (code & w' & Hrun & Hnet & Hfiles).
  exists w'. split; [|split; [exact Hnet|exact Hfiles]].
  rewrite Hrun. f_equal.
  assert (He : fst (downloadFontsWithCache cached_config noOptions readonly_index_world)
               = Throw (EFs code fontsJson)) by now rewrite Hrun.
  vm_compute in He. now injection He as <-.
Defined.

(** ** [validateOptions] *)

Lemma check_option_valid options key validator :
  check_option options key validator = Ok [] <-> option_valid options (key, validator) = true.
Proof.
  unfold check_option, option_valid. cbn [fst snd].
  destruct (nullish (option_value options key)).
  { rewrite andb_true_r. destruct (v_required validator); simpl; split; congruence. }
  rewrite andb_false_r.
  destruct (v_type validator) as [t|].
  - destruct (String.eqb t EmptyString), (String.eqb (opt_typeof (option_value options key)) t);
      cbn [negb andb orb]; try (split; discriminate);
      destruct (number_of (option_value options key)) as [x|];
      try destruct (String.eqb t "number"); cbn [negb orb andb];
      try (destruct (v_min validator) as [m|]; [destruct (number_lt x (number_of_Z m))|];
           (destruct (v_max validator) as [M|]; [destruct (number_lt (number_of_Z M) x)|]));
      cbn [negb andb app];
      (destruct (v_validate validator) as [validate|];
       [destruct (validate (option_value options key)) as [[]|e];
        [|destruct (err_message e); simpl]|]);
      split; (reflexivity || discriminate).
  - cbn [negb andb String.eqb].
    destruct (number_of (option_value options key)) as [x|]; cbn [andb];
      (destruct (v_validate validator) as [validate|];
       [destruct (validate (option_value options key)) as [[]|e];
        [|destruct (err_message e); simpl]|]);
      split; (reflexivity || discriminate).
Qed.

Lemma collect_errors_from options schema :
  forall errors,
    collect_errors options schema errors
    = res_bind (collect_errors options schema []) (fun pushed => Ok (errors ++ pushed)).
Proof.
  induction schema as [|[key validator] rest IH]; intros errors; simpl.
  - now rewrite app_nil_r.
  - destruct (check_option options key validator) as [pushed|e]; [|reflexivity].
    simpl. rewrite (IH (errors ++ pushed)), (IH pushed).
    destruct (collect_errors options rest []) as [more|e]; [|reflexivity].
    simpl. now rewrite app_assoc.
Qed.

Lemma collect_errors_none options schema :
  collect_errors options schema [] = Ok []
  <-> forallb (option_valid options) schema = true.
Proof.
  induction schema as [|[key validator] rest IH]; simpl.
  - split; reflexivity.
  - rewrite andb_true_iff, <- IH, <- check_option_valid.
    destruct (check_option options key validator) as [pushed|e]; simpl.
    + rewrite collect_errors_from.
      destruct (collect_errors options rest []) as [more|e]; simpl.
      * split.
        -- intros [= H]. apply app_eq_nil in H as [-> ->]. now split.
        -- intros [[= ->] [= ->]]. reflexivity.
      * split; [discriminate|]. intros [_ H]. discriminate H.
    + split; [discriminate|]. intros [H _]. discriminate H.
Qed.

(** X25. [validateOptions] returns exactly when every option the schema
    names passes its entry, and then it returns the options object itself.
    Passing the bounds means being neither below [min] nor above [max]: a
    [NaN] under an entry of type number without a custom validator is let
    through whatever the bounds. *)
Theorem validateOptions_accepts options schema :
  (forall result,
     validateOptions options schema = Ok result
     <-> result = options /\ forallb (option_valid options) schema = true)
  /\ ((forall key validator,
         (key, validator) ∈ schema ->
         v_type validator = Some "number"
         /\ v_validate validator = None
         /\ option_value options key = ONumber NaN) ->
      validateOptions options schema = Ok options).
Proof.
  assert (Hiff : forall result,
             validateOptions options schema = Ok result
             <-> result = options /\ forallb (option_valid options) schema = true).
  { intros result. unfold validateOptions. rewrite <- collect_errors_none.
    destruct (collect_errors options schema []) as [[|line errors]|e]; simpl.
    - split; [intros [= <-]; now split|intros [-> _]; reflexivity].
    - split; [discriminate|intros [_ H]; discriminate H].
    - split; [discriminate|intros [_ H]; discriminate H]. }
  split; [exact Hiff|].
  intros Hnan. apply Hiff. split; [reflexivity|].
  apply forallb_forall. intros [key validator] Hin.
  apply list_elem_of_In in Hin. destruct (Hnan key validator Hin) as (Hty & Hval & Hv).
  unfold option_valid. cbn [fst snd]. rewrite Hv, Hty, Hval. cbn.
  destruct (v_min validator), (v_max validator); reflexivity.
Qed.

Lemma validateOptions_accepts_witness :
  validateOptions good_options retry_schema = Ok good_options
  /\ validateOptions nan_options (take 2 retry_schema) = Ok nan_options.
Proof.
  split.
  - apply (proj1 (validateOptions_accepts good_options retry_schema) good_options).
    split; reflexivity.
  - apply (proj2 (validateOptions_accepts nan_options (take 2 retry_schema))).
    intros key validator Hin. cbn in Hin.
    repeat (apply elem_of_cons in Hin as [[= -> ->]|Hin]; [repeat split|]).
    now apply elem_of_nil in Hin.
Defined.

Lemma check_option_same options options' key validator :
  option_value options key = option_value options' key
  \/ (nullish (option_value options key) = true
      /\ nullish (option_value options' key) = true) ->
  check_option options key validator = check_option options' key validator.
Proof.
  unfold check_option. intros [->|[-> ->]]; reflexivity.
Qed.

Lemma collect_errors_same options options' schema :
  same_known schema options options' ->
  forall errors,
    collect_errors options schema errors = collect_errors options' schema errors.
Proof.
  induction schema as [|[key validator] rest IH]; intros Hsame errors; simpl.
  - reflexivity.
  - rewrite (check_option_same options options' key validator)
      by (apply (Hsame key validator); left).
    destruct (check_option options' key validator) as [pushed|e]; [|reflexivity].
    simpl. apply IH. intros k v Hin. apply (Hsame k v). now right.
Qed.

(** X26. [validateOptions] only looks at the options its schema names:
    two option objects that agree on those (an option set to null counting
    as one left out) get the same verdict, the same error included.  Keys
    the schema does not know are never reported. *)
Theorem validateOptions_ignores_unknown schema options options' :
  same_known schema options options' ->
  verdict (validateOptions options schema) = verdict (validateOptions options' schema).
Proof.
  intros Hsame. unfold validateOptions.
  rewrite (collect_errors_same options options' schema Hsame).
  destruct (collect_errors options' schema []) as [errors|e]; [|reflexivity].
  simpl. destruct (0 <? length errors)%nat; reflexivity.
Qed.

Lemma validateOptions_ignores_unknown_witness :
  same_known retry_schema good_options [("maxRetries", OValue (JNum 3))]
  /\ verdict (validateOptions good_options retry_schema)
     = verdict (validateOptions [("maxRetries", OValue (JNum 3))] retry_schema).
Proof.
  assert (H : same_known retry_schema good_options [("maxRetries", OValue (JNum 3))]).
  { intros key validator Hin. unfold retry_schema in Hin.
    repeat (apply elem_of_cons in Hin as [[= -> _]|Hin];
            [vm_compute; (now left) || (now right)|]).
    now apply elem_of_nil in Hin. }
  split; [exact H|].
  exact (validateOptions_ignores_unknown retry_schema good_options _ H).
Defined.

Lemma prefix_append (a b : string) : String.prefix a (a +:+ b) = true.
Proof.
  induction a as [|c a IH].
  - rewrite append_empty_l. apply prefix_empty.
  - rewrite append_cons, prefix_cons_eq. destruct (ascii_dec c c); [exact IH|congruence].
Qed.

Lemma append_assoc (a b c : string) : (a +:+ b) +:+ c = a +:+ b +:+ c.
Proof.
  induction a as [|x a IH].
  - now rewrite !append_empty_l.
  - now rewrite !append_cons, IH.
Qed.

Lemma option_line_prefix key rest :
  String.prefix ("Option '" +:+ key +:+ "'") ("Option '" +:+ key +:+ String "'" rest) = true.
Proof.
  replace ("Option '" +:+ key +:+ String "'" rest)
    with (("Option '" +:+ key +:+ "'") +:+ rest).
  - apply prefix_append.
  - rewrite !append_assoc. do 2 f_equal.
Qed.

Lemma check_option_report options key validator lines :
  check_option options key validator = Ok lines ->
  report_for options (key, validator) lines.
Proof.
  intros Hcheck. split.
  { rewrite <- check_option_valid, Hcheck. split; congruence. }
  revert Hcheck. unfold check_option. cbn [fst].
  match goal with
  | |- context [Ok (?b ++ _)] => set (bounds := b)
  end.
  assert (Hb : Forall (fun line => String.prefix ("Option '" +:+ key +:+ "'") line = true)
                      bounds
               /\ (length bounds <= 2)%nat).
  { subst bounds.
    destruct (number_of (option_value options key)) as [x|];
      [|split; [constructor|cbn [length]; lia]].
    destruct (String.eqb _ "number"); [|split; [constructor|cbn [length]; lia]].
    rewrite length_app.
    destruct (v_min validator) as [m|]; [destruct (number_lt x (number_of_Z m))|];
      (destruct (v_max validator) as [M|]; [destruct (number_lt (number_of_Z M) x)|]);
      (split; [repeat constructor; apply option_line_prefix|cbn [length]; lia]). }
  clearbody bounds. destruct Hb as [Hprefix Hlength].
  destruct (v_required validator && nullish (option_value options key)).
  { intros [= <-]. split; [repeat constructor; apply option_line_prefix|simpl; lia]. }
  destruct (nullish (option_value options key)).
  { intros [= <-]. split; [constructor|simpl; lia]. }
  destruct (_ && _).
  { intros [= <-]. split; [repeat constructor; apply option_line_prefix|simpl; lia]. }
  destruct (v_validate validator) as [validate|];
    [|intros [= <-]; split; [exact Hprefix|lia]].
  destruct (validate _) as [[]|e]; [intros [= <-]; split; [exact Hprefix|lia]|].
  destruct (err_message e) as [m|]; [|discriminate]. simpl. intros [= <-]. split.
  - apply Forall_app. split; [exact Hprefix|]. repeat constructor. apply option_line_prefix.
  - rewrite length_app. simpl. lia.
Qed.

Lemma collect_errors_report options schema errors :
  collect_errors options schema [] = Ok errors ->
  exists groups, errors = concat groups /\ Forall2 (report_for options) schema groups.
Proof.
  revert errors. induction schema as [|[key validator] rest IH]; intros errors; simpl.
  - intros [= <-]. exists []. split; [reflexivity|constructor].
  - destruct (check_option options key validator) as [lines|e] eqn:Hcheck; [|discriminate].
    simpl. rewrite collect_errors_from.
    destruct (collect_errors options rest []) as [more|e]; [|discriminate].
    simpl. intros [= <-]. destruct (IH more eq_refl) as (groups & -> & Hall).
    exists (lines :: groups). split; [reflexivity|].
    constructor; [|exact Hall]. now apply check_option_report.
Qed.

(** X27. [validateOptions] does not stop at the first wrong option.
    The error it throws for invalid options lists, in the order of the
    schema, the lines of every entry: none for an entry the option passes
    (as a [NaN] does any bounds), and between one and three lines that
    open with the name of the option for every entry it does not pass. *)
Theorem validateOptions_reports_all options schema message :
  validateOptions options schema = Throw (EError message) ->
  exists groups,
    message = "Plugin option validation failed:" +:+ newline +:+ "  - "
              +:+ join_with (newline +:+ "  - ") (concat groups)
    /\ Forall2 (report_for options) schema groups.
Proof.
  unfold validateOptions.
  destruct (collect_errors options schema []) as [errors|e] eqn:Hcollect; simpl.
  - destruct (collect_errors_report _ _ _ Hcollect) as (groups & -> & Hall).
    destruct (0 <? length (concat groups))%nat; [|discriminate].
    intros [= <-]. now exists groups.
  - intros [= ->]. exfalso. revert Hcollect. generalize (@nil string).
    induction schema as [|[key validator] rest IH]; intros acc; simpl; [discriminate|].
    destruct (check_option options key validator) as [lines|e] eqn:Hcheck; simpl.
    + apply IH.
    + intros [= ->]. revert Hcheck. unfold check_option.
      destruct (v_validate validator) as [validate|];
        [destruct (validate _) as [[]|[]]; simpl|];
        repeat match goal with
               | |- context [if ?c then _ else _] => destruct c
               end; discriminate.
Qed.

Lemma validateOptions_reports_all_witness :
  exists message groups,
    validateOptions bad_options retry_schema = Throw (EError message)
    /\ message = "Plugin option validation failed:" +:+ newline +:+ "  - "
                 +:+ join_with (newline +:+ "  - ") (concat groups)
    /\ Forall2 (report_for bad_options) retry_schema groups.
Proof.
  assert (H : validateOptions bad_options retry_schema
              = Throw (EError ltac:(let m := eval vm_compute in
                  match validateOptions bad_options retry_schema with
                  | Throw (EError m) => m
                  | _ => EmptyString
                  end in exact m))) by (vm_compute; reflexivity).
  destruct (validateOptions_reports_all _ _ _ H) as (groups & Hm & Hall).
  eexists _, groups. split; [exact H|]. split; [exact Hm|exact Hall].
Defined.
